(** * Product feedback dashboard: theme classification, aggregation,
      headline selection and KPI buckets of [src/index.ts]

    The worker's functions are embedded as Rocq functions.  JavaScript
    strings are modelled as [string] (one [ascii] per code unit), which is
    exact for ASCII text: case mapping, [\w], [\s] and [trim] are those of
    the ASCII range.  JavaScript Numbers that hold counts are modelled as
    [Z] (array lengths and increments by one are exact), and the Numbers
    produced by divisions, products and [Math.round] as binary64 values
    ([spec_float], precision 53, emax 1024).  The builtins [JSON.parse],
    [JSON.stringify] and the oracle [env.AI.run] are parameters. *)

From Stdlib Require Import ZArith List Bool Ascii String Lia Permutation Sorted.
From Stdlib Require Import SpecFloat DecimalString.
Import ListNotations.

Local Open Scope string_scope.
Local Open Scope Z_scope.

(* ================================================================== *)
(** ** JavaScript strings *)
(* ================================================================== *)

Module JsString.

Definition code (c : ascii) : nat := nat_of_ascii c.

Definition in_range (lo hi : nat) (c : ascii) : bool :=
  (Nat.leb lo (code c) && Nat.leb (code c) hi)%bool.

Definition is_digit (c : ascii) : bool := in_range 48 57 c.
Definition is_upper (c : ascii) : bool := in_range 65 90 c.
Definition is_lower (c : ascii) : bool := in_range 97 122 c.

(** [\w] of a regular expression: [[A-Za-z0-9_]]. *)
Definition is_word (c : ascii) : bool :=
  (is_digit c || is_upper c || is_lower c || Nat.eqb (code c) 95)%bool.

(** [\s] (and what [trim] removes), on ASCII: TAB, LF, VT, FF, CR, space. *)
Definition is_space (c : ascii) : bool :=
  (in_range 9 13 c || Nat.eqb (code c) 32)%bool.

(** What [.] refuses without the [s] flag: LF and CR. *)
Definition is_line_terminator (c : ascii) : bool :=
  (Nat.eqb (code c) 10 || Nat.eqb (code c) 13)%bool.

Definition is_quote (c : ascii) : bool :=
  (Nat.eqb (code c) 34 || Nat.eqb (code c) 39)%bool.

(** [[a-f0-9]] under the [i] flag. *)
Definition is_hex (c : ascii) : bool :=
  (is_digit c || in_range 97 102 c || in_range 65 70 c)%bool.

Definition lower_char (c : ascii) : ascii :=
  if is_upper c then ascii_of_nat (code c + 32) else c.

Definition upper_char (c : ascii) : ascii :=
  if is_lower c then ascii_of_nat (code c - 32) else c.

Fixpoint map_chars (f : ascii -> ascii) (s : string) : string :=
  match s with
  | EmptyString => EmptyString
  | String c s' => String (f c) (map_chars f s')
  end.

Definition toLowerCase : string -> string := map_chars lower_char.
Definition toUpperCase : string -> string := map_chars upper_char.

Definition slen (s : string) : Z := Z.of_nat (String.length s).

Definition head (s : string) : option ascii :=
  match s with EmptyString => None | String c _ => Some c end.

Fixpoint last (s : string) : option ascii :=
  match s with
  | EmptyString => None
  | String c EmptyString => Some c
  | String _ s' => last s'
  end.

Fixpoint drop_last (s : string) : string :=
  match s with
  | EmptyString => EmptyString
  | String _ EmptyString => EmptyString
  | String c s' => String c (drop_last s')
  end.

Fixpoint skip (n : nat) (s : string) : string :=
  match n, s with
  | S n', String _ s' => skip n' s'
  | _, _ => s
  end.

Fixpoint take (n : nat) (s : string) : string :=
  match n, s with
  | S n', String c s' => String c (take n' s')
  | _, _ => EmptyString
  end.

(** [s.startsWith(p)]. *)
Fixpoint startsWith (p s : string) : bool :=
  match p, s with
  | EmptyString, _ => true
  | String a p', String b s' => (Ascii.eqb a b && startsWith p' s')%bool
  | String _ _, EmptyString => false
  end.

(** [s.includes(k)]. *)
Fixpoint includes (s k : string) : bool :=
  (startsWith k s ||
   match s with
   | EmptyString => false
   | String _ s' => includes s' k
   end)%bool.

Definition endsWith (s : string) (c : ascii) : bool :=
  match last s with Some d => Ascii.eqb c d | None => false end.

Fixpoint trimStart (s : string) : string :=
  match s with
  | String c s' => if is_space c then trimStart s' else s
  | EmptyString => EmptyString
  end.

(** Removes the white space at the end: a character is kept when
    something that is no white space follows it. *)
Fixpoint trimEnd (s : string) : string :=
  match s with
  | EmptyString => EmptyString
  | String c s' =>
      match trimEnd s' with
      | EmptyString => if is_space c then EmptyString else String c EmptyString
      | t => String c t
      end
  end.

Definition trim (s : string) : string := trimEnd (trimStart s).

(** [s.split(/\s+/).filter(w => w.length > 0)]: the maximal runs of
    characters that are no white space.  [cur] is the run being read. *)
Fixpoint words_aux (cur : string) (s : string) : list string :=
  match s with
  | EmptyString => match cur with EmptyString => [] | _ => [cur] end
  | String c s' =>
      if is_space c
      then match cur with
           | EmptyString => words_aux EmptyString s'
           | _ => cur :: words_aux EmptyString s'
           end
      else words_aux (cur ++ String c EmptyString) s'
  end.

Definition words (s : string) : list string := words_aux EmptyString s.

(** [s.split(/\s+/).length]: the pieces between white-space runs, the empty
    ones at both ends included (the empty string splits into one piece). *)
Fixpoint split_count_aux (in_sep : bool) (s : string) : nat :=
  match s with
  | EmptyString => 1
  | String c s' =>
      if is_space c
      then if in_sep then split_count_aux true s'
           else S (split_count_aux true s')
      else split_count_aux false s'
  end.

Definition split_count (s : string) : Z := Z.of_nat (split_count_aux false s).

(** [ws.join(' ')]. *)
Fixpoint join_space (ws : list string) : string :=
  match ws with
  | [] => EmptyString
  | [w] => w
  | w :: rest => w ++ String " "%char (join_space rest)
  end.

(** *** Regular expressions of the shape [/\b(a1|a2|...)\b/]

    An alternative is a sequence of literal characters and of [.?]. *)
Inductive tok := Ch (c : ascii) | OptDot.

Fixpoint lit (s : string) : list tok :=
  match s with
  | EmptyString => []
  | String c s' => Ch c :: lit s'
  end.

Definition is_word_opt (c : option ascii) : bool :=
  match c with Some d => is_word d | None => false end.

(** [\b] between the character before and the character after. *)
Definition word_boundary (before after : option ascii) : bool :=
  xorb (is_word_opt before) (is_word_opt after).

(** The alternative [p] matches a prefix of [s] that ends at a [\b];
    [prev] is the character before [s]. *)
Fixpoint match_alt (p : list tok) (prev : option ascii) (s : string) : bool :=
  match p with
  | [] => word_boundary prev (head s)
  | Ch c :: p' =>
      match s with
      | String d s' => (Ascii.eqb c d && match_alt p' (Some d) s')%bool
      | EmptyString => false
      end
  | OptDot :: p' =>
      (match s with
       | String d s' =>
           (negb (is_line_terminator d) && match_alt p' (Some d) s')%bool
       | EmptyString => false
       end || match_alt p' prev s)%bool
  end.

Fixpoint test_from (alts : list (list tok)) (prev : option ascii)
    (s : string) : bool :=
  ((word_boundary prev (head s) &&
    existsb (fun p => match_alt p prev s) alts) ||
   match s with
   | String c s' => test_from alts (Some c) s'
   | EmptyString => false
   end)%bool.

(** [/\b(a1|a2|...)\b/.test(s)]. *)
Definition test_words (alts : list (list tok)) (s : string) : bool :=
  test_from alts None s.

End JsString.
Import JsString.

(* ================================================================== *)
(** ** JavaScript Numbers that are no counts: binary64 *)
(* ================================================================== *)

Module JsNumber.

Definition prec : Z := 53.
Definition emax : Z := 1024.

Definition number : Type := spec_float.

(** The Number of an integer (exact below [2 ^ 53]). *)
Definition js_of_Z (z : Z) : number := binary_normalize prec emax z 0 false.

(** [x / y] and [x * y], rounded to nearest, ties to even. *)
Definition js_div (x y : number) : number := SFdiv prec emax x y.
Definition js_mul (x y : number) : number := SFmul prec emax x y.

(** [x < y] and [x >= y]. *)
Definition js_lt (x y : number) : bool := SFltb x y.
Definition js_ge (x y : number) : bool := SFleb y x.

(** [Math.round(x)]: [x] when it is not finite or already integral, a zero
    of the sign of [x] when [-0.5 <= x < 0.5], and otherwise
    [floor (x + 1/2)], computed exactly on the mantissa. *)
Definition Math_round (x : number) : number :=
  match x with
  | S754_finite s m e =>
      if 0 <=? e then x
      else
        let n := cond_Zopp s (Zpos m) in
        let r := (2 * n + 2 ^ (- e)) / 2 ^ (1 - e) in
        if r =? 0 then S754_zero s else js_of_Z r
  | _ => x
  end.

End JsNumber.
Import JsNumber.

(* ================================================================== *)
(** ** Data model *)
(* ================================================================== *)

Record FeedbackRow := mkRow {
  id : Z;
  source : string;
  sentiment : string;
  comment : string;
  timestamp : string
}.

Record AggregatedTheme := mkAgg {
  theme : string;
  total_mentions : Z;
  enterprise_mentions : Z;
  self_serve_mentions : Z;
  percent_negative : number;
  yesterday_mentions : Z;
  percent_change_vs_yesterday : number
}.

Inductive RiskLevel := Critical | Monitor | LowImpact.

Definition RiskLevel_eqb (a b : RiskLevel) : bool :=
  match a, b with
  | Critical, Critical | Monitor, Monitor | LowImpact, LowImpact => true
  | _, _ => false
  end.

(** An aggregate spread together with its risk ([{ ...a, ...risk }]). *)
Record ScoredTheme := mkScored {
  agg : AggregatedTheme;
  risk_score : Z;
  risk_level : RiskLevel
}.

(** The value a bucket resolves to. *)
Record ThemeCount := mkThemeCount {
  label : string;
  count : Z;
  enterpriseCount : Z
}.

(** A [Map] (or [Set]) of the worker: the entries in insertion order, each
    key once. *)
Definition jsmap (V : Type) : Type := list (string * V).

Section JsMap.
Context {V : Type}.

Fixpoint map_get (m : jsmap V) (k : string) : option V :=
  match m with
  | [] => None
  | (k', v) :: m' => if String.eqb k k' then Some v else map_get m' k
  end.

Definition map_has (m : jsmap V) (k : string) : bool :=
  match map_get m k with Some _ => true | None => false end.

(** [m.set(k, v)]: the value of an existing key is replaced in place, a
    new key goes to the end. *)
Fixpoint map_set (m : jsmap V) (k : string) (v : V) : jsmap V :=
  match m with
  | [] => [(k, v)]
  | (k', v') :: m' =>
      if String.eqb k k' then (k', v) :: m' else (k', v') :: map_set m' k v
  end.
End JsMap.

Definition set_has (s : list string) (k : string) : bool :=
  existsb (String.eqb k) s.

(** [s.add(k)] on a [Set]. *)
Definition set_add (s : list string) (k : string) : list string :=
  if set_has s k then s else (s ++ [k])%list.

(** [Array.prototype.sort] with the comparator
    [(a, b) => key(b) - key(a)]: descending in [key], and stable, so
    entries of equal key keep their order. *)
Section SortDesc.
Context {A : Type}.
Variable key : A -> Z.

Fixpoint insert_desc (x : A) (l : list A) : list A :=
  match l with
  | [] => [x]
  | y :: l' => if key x <? key y then y :: insert_desc x l' else x :: l
  end.

Fixpoint sort_desc (l : list A) : list A :=
  match l with
  | [] => []
  | x :: l' => insert_desc x (sort_desc l')
  end.
End SortDesc.

Definition count_of {A : Type} (l : list A) : Z := Z.of_nat (List.length l).

(* ================================================================== *)
(** ** Keyword theme matcher and abstract labels *)
(* ================================================================== *)

Definition CANONICAL_THEMES : list string :=
  [ "Authentication / Login Issues";
    "Support Response Delays";
    "Email Delivery Issues";
    "API Timeout Errors";
    "Link / Validation Errors";
    "Issue / Ticket Status";
    String (ascii_of_nat 34) "Needs Info" ++ String (ascii_of_nat 34) " Workflow Friction";
    "Documentation Confusion" ].

Definition canonical (i : nat) : string := nth i CANONICAL_THEMES EmptyString.

(** Order matters: first match wins. *)
Definition KEYWORD_TO_THEME : list (list string * string) :=
  [ (["login"; "auth"; "password"; "sign-in"; "signin"; "session"; "token";
      "sso"; "saml"; "idp"], canonical 0);
    (["delay"; "slow"; "response time"; "wait"; "support"; "reply";
      "ticket"], canonical 1);
    (["email"; "delivery"; "inbox"; "notification"; "mail"], canonical 2);
    (["api"; "timeout"; "504"; "failing"; "gateway timeout"], canonical 3);
    (["link"; "validation"; "invalid"; "error"; "broken"; "expired";
      "verify"], canonical 4);
    (["status"; "confusion"; "update"; "tracking"; "state"], canonical 5);
    (["github"; "needs info"; "workflow"; "triage"; "issue status";
      "labels"], canonical 6);
    (["documentation"; "docs"; "guide"; "scattered"; "right page"],
     canonical 7) ].

(** The loop of [toAbstractLabel] over [KEYWORD_TO_THEME]: the theme of the
    first rule one of whose keywords occurs in [lower]. *)
Fixpoint keyword_theme_in (rules : list (list string * string))
    (lower : string) : option string :=
  match rules with
  | [] => None
  | (keywords, th) :: rest =>
      if existsb (fun k => includes lower k) keywords then Some th
      else keyword_theme_in rest lower
  end.

Definition keyword_theme : string -> option string :=
  keyword_theme_in KEYWORD_TO_THEME.

(** [.replace(/^["']|["']$/g, '')]: a quote at the start goes, and so does
    a quote at the end of what is left. *)
Definition strip_quotes (s : string) : string :=
  let s1 :=
    match s with
    | String c s' => if is_quote c then s' else s
    | EmptyString => s
    end in
  match last s1 with
  | Some c => if is_quote c then drop_last s1 else s1
  | None => s1
  end.

Fixpoint all_digits (s : string) : bool :=
  match s with
  | EmptyString => true
  | String c s' => (is_digit c && all_digits s')%bool
  end.

(** A word (maximal run of [\w]) goes when it is two digits or more. *)
Definition flush_word (w : string) : string :=
  if (all_digits w && Nat.leb 2 (String.length w))%bool then EmptyString
  else w.

(** [.replace(/\b\d{2,}\b/g, '')]; [w] is the word being read. *)
Fixpoint strip_numbers_aux (w : string) (s : string) : string :=
  match s with
  | EmptyString => flush_word w
  | String c s' =>
      if is_word c then strip_numbers_aux (w ++ String c EmptyString) s'
      else flush_word w ++ String c (strip_numbers_aux EmptyString s')
  end.

Definition strip_numbers (s : string) : string :=
  strip_numbers_aux EmptyString s.

(** [n] hexadecimal digits at the start of [s]: what follows them. *)
Fixpoint hex_run (n : nat) (s : string) : option string :=
  match n with
  | O => Some s
  | S n' =>
      match s with
      | String c s' => if is_hex c then hex_run n' s' else None
      | EmptyString => None
      end
  end.

Definition dash (s : string) : option string :=
  match s with
  | String c s' => if Ascii.eqb c "-"%char then Some s' else None
  | EmptyString => None
  end.

Definition obind {A B : Type} (o : option A) (f : A -> option B) : option B :=
  match o with Some a => f a | None => None end.

(** The UUID shape 8-4-4-4-12 at the start of [s]. *)
Definition uuid_at (s : string) : bool :=
  match
    obind (hex_run 8 s) (fun s1 => obind (dash s1) (fun s2 =>
    obind (hex_run 4 s2) (fun s3 => obind (dash s3) (fun s4 =>
    obind (hex_run 4 s4) (fun s5 => obind (dash s5) (fun s6 =>
    obind (hex_run 4 s6) (fun s7 => obind (dash s7) (fun s8 =>
    hex_run 12 s8))))))))
  with
  | Some _ => true
  | None => false
  end.

(** The global replacement of the UUID shape by nothing; [pending] counts
    the characters of the current match still to drop. *)
Fixpoint strip_uuids_aux (pending : nat) (s : string) : string :=
  match s with
  | EmptyString => EmptyString
  | String c s' =>
      match pending with
      | S p => strip_uuids_aux p s'
      | O => if uuid_at s then strip_uuids_aux 35 s'
             else String c (strip_uuids_aux 0 s')
      end
  end.

Definition strip_uuids (s : string) : string := strip_uuids_aux 0 s.

(** Turns raw text into a short label of 2 to 5 words or a canonical
    theme; [None] is [null]. *)
Definition toAbstractLabel (raw : string) : option string :=
  let maxWords := 5%nat in
  let minWords := 2%nat in
  let s := trim (strip_uuids (strip_numbers (strip_quotes raw))) in
  if slen s <? 3 then None
  else
    let lower := toLowerCase s in
    match keyword_theme lower with
    | Some th => Some th
    | None =>
        let ws := firstn maxWords (words s) in
        if (count_of ws <? Z.of_nat minWords) then None
        else
          let lbl := join_space ws in
          if (endsWith lbl "."%char || (50 <? slen lbl))%bool
          then match join_space (firstn minWords ws) with
               | EmptyString => None
               | l => Some l
               end
          else Some lbl
    end.

(** Case-insensitive [startsWith]. *)
Definition startsWith_ci (p s : string) : bool :=
  startsWith (toLowerCase p) (toLowerCase s).

Definition FILLER_PREFIXES : list string :=
  [ "Improvement in"; "Issues with"; "Problems related to"; "Problem with";
    "Issue with"; "Lack of"; "Difficulty with" ].

(** [.replace(/^(Improvement in|...|Difficulty with)\s*/gi, '')]. *)
Definition strip_filler (s : string) : string :=
  match find (fun p => startsWith_ci p s) FILLER_PREFIXES with
  | Some p => trimStart (skip (String.length p) s)
  | None => s
  end.

(** [.replace(/^(The |A )\b/gi, '')]: the article goes when a word
    character follows its space. *)
Definition strip_article (s : string) : string :=
  let try_art (p : string) :=
    (startsWith_ci p s &&
     is_word_opt (head (skip (String.length p) s)))%bool in
  if try_art "The " then skip 4 s
  else if try_art "A " then skip 2 s
  else s.

(** [.replace(/\n.*/gs, '')]: everything from the first line feed on. *)
Fixpoint cut_at_newline (s : string) : string :=
  match s with
  | EmptyString => EmptyString
  | String c s' =>
      if Nat.eqb (code c) 10 then EmptyString else String c (cut_at_newline s')
  end.

Definition titleWord (w : string) : string :=
  if (Nat.leb 2 (String.length w) && String.eqb w (toUpperCase w))%bool then w
  else
    match w with
    | EmptyString => EmptyString
    | String c rest => String (upper_char c) (toLowerCase rest)
    end.

(** Removes filler prefixes and normalizes a label: 5 words at most. *)
Definition postProcessThemeLabel (raw : string) : string :=
  let s := cut_at_newline (strip_quotes (trim raw)) in
  let s := strip_filler s in
  let s := strip_article s in
  let s := trim s in
  let ws := firstn 5 (words s) in
  join_space (map titleWord ws).

Definition alt_opt (a b : string) : list tok := (lit a ++ OptDot :: lit b)%list.

Definition RE_PASSWORD_RESET : list (list tok) :=
  [ lit "password reset"; lit "reset link"; lit "forgot password";
    lit "link expired" ].

(** Maps the oracle's label to a stable cluster.  Order matters: more
    specific first. *)
Definition normalizeToCanonicalCluster (aiLabel : string) : string :=
  let t := toLowerCase aiLabel in
  if test_words RE_PASSWORD_RESET t then "Password Reset Issues"
  else if test_words [ lit "api"; lit "timeout"; lit "500"; lit "endpoint";
                       alt_opt "rate" "limit" ] t
  then "API Timeout Errors"
  else if test_words [ lit "login"; lit "sso"; lit "auth"; lit "authenticate";
                       alt_opt "sign" "in"; alt_opt "log" "in";
                       lit "token invalid"; lit "redirect"; lit "idp" ] t
  then "Authentication / Login Issues"
  else if test_words [ lit "deploy"; lit "session"; lit "invalid" ] t
  then "Deployment / Session Issues"
  else if test_words [ lit "ui"; lit "interface"; lit "ux"; lit "design";
                       lit "bug" ] t
  then "UI / UX Issues"
  else if test_words [ lit "email"; lit "notification"; lit "alert" ] t
  then "Notifications / Alerts"
  else if test_words [ lit "recovery"; lit "forgot" ] t
  then "Account Recovery"
  else if test_words [ lit "status"; lit "confusion"; lit "tracking" ] t
  then "Issue / Ticket Status"
  else if test_words [ lit "dashboard"; lit "latency"; lit "slow";
                       lit "performance" ] t
  then "Dashboard Latency"
  else if test_words [ lit "documentation"; lit "docs"; lit "guide";
                       lit "scattered" ] t
  then "Documentation Confusion"
  else aiLabel.

(** Keyword-based theme of a comment. *)
Definition getThemeForCommentBackend (comment : string) : string :=
  let text := toLowerCase comment in
  if test_words [ lit "login"; lit "sso"; lit "auth"; lit "password";
                  lit "authenticate"; alt_opt "sign" "in";
                  alt_opt "log" "in" ] text
  then "Authentication / Login Issues"
  else if test_words [ lit "api"; alt_opt "rate" "limit"; lit "timeout";
                       lit "500"; lit "endpoint" ] text
  then "API Timeout Errors"
  else if test_words RE_PASSWORD_RESET text
  then "Password Reset Issues"
  else if test_words [ lit "deploy"; lit "token"; lit "session";
                       lit "invalid" ] text
  then "Deployment / Session Issues"
  else if test_words [ lit "ui"; lit "interface"; lit "ux"; lit "design";
                       lit "bug" ] text
  then "UI / UX Issues"
  else if test_words [ lit "email"; lit "notification"; lit "alert" ] text
  then "Notifications / Alerts"
  else if test_words [ lit "reset"; lit "forgot"; lit "recovery" ] text
  then "Account Recovery"
  else if test_words [ lit "status"; lit "confusion"; lit "tracking" ] text
  then "Issue / Ticket Status"
  else if test_words [ lit "dashboard"; lit "latency"; lit "slow";
                       lit "performance" ] text
  then "Dashboard Latency"
  else if test_words [ lit "documentation"; lit "docs"; lit "guide";
                       lit "scattered" ] text
  then "Documentation Confusion"
  else "Other".

(* ================================================================== *)
(** ** Theme aggregator *)
(* ================================================================== *)

(** Sources treated as enterprise (B2B).  Others are self-serve. *)
Definition ENTERPRISE_SOURCES : list string :=
  [ "customer support tickets"; "email" ].

Definition isEnterprise (row : FeedbackRow) : bool :=
  set_has ENTERPRISE_SOURCES (toLowerCase (source row)).

Definition isNegative (row : FeedbackRow) : bool :=
  String.eqb (toLowerCase (sentiment row)) "negative".

(** The counters kept per theme. *)
Record ThemeRec := mkRec {
  total : Z;
  enterprise : Z;
  selfServe : Z;
  negative : Z
}.

(** [toAbstractLabel(row.comment) ?? 'Other']. *)
Definition themeKey (row : FeedbackRow) : string :=
  match toAbstractLabel (comment row) with
  | Some t => t
  | None => "Other"
  end.

(** The record of the theme after one more row of today. *)
Definition bump (row : FeedbackRow) (rec : ThemeRec) : ThemeRec :=
  mkRec (total rec + 1)
        (if isEnterprise row then enterprise rec + 1 else enterprise rec)
        (if isEnterprise row then selfServe rec else selfServe rec + 1)
        (if isNegative row then negative rec + 1 else negative rec).

(** The inner function [add] of [aggregateThemes], on the map it closes
    over: the key is created when missing, and counted only for a row of
    today. *)
Definition add (row : FeedbackRow) (isToday : bool)
    (themeMap : jsmap ThemeRec) : jsmap ThemeRec :=
  let key := themeKey row in
  let themeMap :=
    if map_has themeMap key then themeMap
    else map_set themeMap key (mkRec 0 0 0 0) in
  match map_get themeMap key with
  | Some rec => if isToday then map_set themeMap key (bump row rec)
                else themeMap
  | None => themeMap
  end.

(** [yesterdayByTheme.set(theme, (yesterdayByTheme.get(theme) ?? 0) + 1)]. *)
Definition countYesterday (yesterdayByTheme : jsmap Z) (r : FeedbackRow)
    : jsmap Z :=
  let th := themeKey r in
  map_set yesterdayByTheme th
    (match map_get yesterdayByTheme th with Some n => n | None => 0 end + 1).

(** [Math.round((a / b) * 100)]. *)
Definition percent (a b : Z) : number :=
  Math_round (js_mul (js_div (js_of_Z a) (js_of_Z b)) (js_of_Z 100)).

(** One entry of the result, from an entry of [themeMap]. *)
Definition toAggregate (yesterdayByTheme : jsmap Z)
    (entry : string * ThemeRec) : AggregatedTheme :=
  let (th, rec) := entry in
  let yesterday_mentions :=
    match map_get yesterdayByTheme th with Some n => n | None => 0 end in
  let percent_change_vs_yesterday :=
    if 0 <? yesterday_mentions
    then percent (total rec - yesterday_mentions) yesterday_mentions
    else if 0 <? total rec then js_of_Z 100
    else js_of_Z 0 in
  mkAgg th (total rec) (enterprise rec) (selfServe rec)
        (if 0 <? total rec then percent (negative rec) (total rec)
         else js_of_Z 0)
        yesterday_mentions percent_change_vs_yesterday.

(** The theme map after [todayItems.forEach((r) => add(r, true))]. *)
Definition todayThemeMap (todayItems : list FeedbackRow) : jsmap ThemeRec :=
  fold_left (fun m r => add r true m) todayItems [].

Definition yesterdayCounts (yesterdayItems : list FeedbackRow) : jsmap Z :=
  fold_left countYesterday yesterdayItems [].

Definition aggregateThemes (todayItems yesterdayItems : list FeedbackRow)
    : list AggregatedTheme :=
  let themeMap := todayThemeMap todayItems in
  let yesterdayByTheme := yesterdayCounts yesterdayItems in
  map (toAggregate yesterdayByTheme) themeMap.

(* ================================================================== *)
(** ** Risk scorer and headline selection *)
(* ================================================================== *)

(** +3 per enterprise mention, +1 per self-serve, +2 if majority negative. *)
Definition computeRiskScore (a : AggregatedTheme) : Z * RiskLevel :=
  let risk_score := enterprise_mentions a * 3 + self_serve_mentions a * 1 in
  let risk_score :=
    if js_ge (percent_negative a) (js_of_Z 50) then risk_score + 2
    else risk_score in
  if 20 <=? risk_score then (risk_score, Critical)
  else if 10 <=? risk_score then (risk_score, Monitor)
  else (risk_score, LowImpact).

Definition withRisk (a : AggregatedTheme) : ScoredTheme :=
  let (s, l) := computeRiskScore a in mkScored a s l.

Definition aggregatedWithRisk (todayItems yesterdayItems : list FeedbackRow)
    : list ScoredTheme :=
  map withRisk (aggregateThemes todayItems yesterdayItems).

Definition isLow (x : ScoredTheme) : bool :=
  RiskLevel_eqb (risk_level x) LowImpact.

Definition byRiskDesc (scored : list ScoredTheme) : list ScoredTheme :=
  sort_desc risk_score scored.

Definition bestLow (scored : list ScoredTheme) : option ScoredTheme :=
  List.hd_error (sort_desc risk_score (filter isLow scored)).

Definition candidate3 (scored : list ScoredTheme) : list ScoredTheme :=
  firstn 3 (byRiskDesc scored).

Definition hasLowInTop3 (scored : list ScoredTheme) : bool :=
  existsb isLow (candidate3 scored).

Definition top3 (scored : list ScoredTheme) : list ScoredTheme :=
  match bestLow scored, candidate3 scored with
  | Some b, c0 :: c1 :: _ :: _ =>
      if negb (hasLowInTop3 scored) then [c0; c1; b] else candidate3 scored
  | _, _ => candidate3 scored
  end.

(* ================================================================== *)
(** ** Bucketed KPI resolver *)
(* ================================================================== *)

(** Count items in bucket matching a canonical cluster. *)
Definition countForCluster (items : list FeedbackRow) (cluster : string)
    : Z * Z :=
  let matching :=
    filter (fun r => String.eqb (getThemeForCommentBackend (comment r)) cluster)
           items in
  (count_of matching, count_of (filter isEnterprise matching)).

(** Themes never surfaced on KPI cards. *)
Definition KPI_EXCLUDED_THEMES : list string :=
  [ "Notifications / Alerts"; "Issue / Ticket Status" ].

(** [byTheme.get(key).push(r)], after the key was created when missing. *)
Definition push_row (byTheme : jsmap (list FeedbackRow)) (key : string)
    (r : FeedbackRow) : jsmap (list FeedbackRow) :=
  match map_get byTheme key with
  | Some rows => map_set byTheme key (rows ++ [r])%list
  | None => map_set byTheme key [r]
  end.

(** The grouping loop of [fallbackThemeAndCount]. *)
Definition groupByTheme (excludeThemes : list string)
    (items : list FeedbackRow) : jsmap (list FeedbackRow) :=
  fold_left
    (fun byTheme r =>
       let th := getThemeForCommentBackend (comment r) in
       if (String.eqb th "Other" || set_has excludeThemes th)%bool
       then byTheme
       else push_row byTheme th r)
    items [].

Definition themeCountOf (lbl : string) (rows : list FeedbackRow) : ThemeCount :=
  mkThemeCount lbl (count_of rows) (count_of (filter isEnterprise rows)).

Definition rowsCount (e : string * list FeedbackRow) : Z := count_of (snd e).

(** A string is truthy when it is not empty. *)
Definition truthy (s : string) : bool :=
  match s with EmptyString => false | _ => true end.

(** Fallback: top theme and count from keyword grouping.  [None] is
    [null]; [preferTheme = None] is the omitted argument. *)
Definition fallbackThemeAndCount (items : list FeedbackRow)
    (excludeThemes : list string) (preferTheme : option string)
    : option ThemeCount :=
  match items with
  | [] => None
  | _ =>
      let byTheme := groupByTheme excludeThemes items in
      let preferred :=
        match preferTheme with
        | Some p => if truthy p
                    then option_map (fun rows => themeCountOf p rows)
                                    (map_get byTheme p)
                    else None
        | None => None
        end in
      match preferred with
      | Some r => Some r
      | None =>
          match sort_desc rowsCount byTheme with
          | [] => None
          | (lbl, rows) :: _ => Some (themeCountOf lbl rows)
          end
      end
  end.

Definition LOW_IMPACT_MAX_ISSUES : nat := 3.

(** The grouping loop of [getTopThemesForLowBucket]. *)
Definition groupForLow (excludeThemes : list string) (includeOther : bool)
    (items : list FeedbackRow) : jsmap (list FeedbackRow) :=
  fold_left
    (fun byTheme r =>
       let th := getThemeForCommentBackend (comment r) in
       if ((negb includeOther && String.eqb th "Other")
           || set_has excludeThemes th)%bool
       then byTheme
       else
         let key :=
           if (String.eqb th "Other" && includeOther)%bool
           then "Various feedback" else th in
         push_row byTheme key r)
    items [].

(** Top themes of the Low Impact bucket, keyword-based. *)
Definition getTopThemesForLowBucket (items : list FeedbackRow)
    (excludeThemes : list string) (includeOther : bool) : list ThemeCount :=
  match items with
  | [] => []
  | _ =>
      map (fun e => themeCountOf (fst e) (snd e))
          (firstn LOW_IMPACT_MAX_ISSUES
             (sort_desc rowsCount (groupForLow excludeThemes includeOther items)))
  end.

(** [0.05], the double nearest to 1/20. *)
Definition KPI_MIN_SHARE : number := S754_finite false 7205759403792794 (-57).

Definition MONITOR_PREFERRED_THEME : string := "Authentication / Login Issues".

(** [count < KPI_MIN_SHARE * bucketSize]. *)
Definition belowMinShare (cnt bucketSize : Z) : bool :=
  js_lt (js_of_Z cnt) (js_mul KPI_MIN_SHARE (js_of_Z bucketSize)).

(* ================================================================== *)
(** ** The oracle and what it returns *)
(* ================================================================== *)

(** A call that returns or throws (a promise that resolves or rejects). *)
Inductive outcome (A : Type) :=
  | Returned (a : A)
  | Thrown (message : string).
Arguments Returned {A} a.
Arguments Thrown {A} message.

Definition bind {A B : Type} (o : outcome A) (f : A -> outcome B) : outcome B :=
  match o with Returned a => f a | Thrown msg => Thrown msg end.

(** [try { body } catch { handler }]. *)
Definition try_catch {A : Type} (body : outcome A) (handler : outcome A)
    : outcome A :=
  match body with Returned a => Returned a | Thrown _ => handler end.

Notation "x <- c1 ;; c2" := (bind c1 (fun x => c2))
  (at level 61, c1 at next level, right associativity).

(** A JavaScript value as far as the worker looks into one; [JNull] stands
    for both [null] and [undefined]. *)
#[warnings="-register-all"]
Inductive json :=
  | JNull
  | JBool (b : bool)
  | JNum (x : number)
  | JStr (s : string)
  | JArr (items : list json)
  | JObj (fields : list (string * json)).

(** [v?.name]: the property of an object, nothing for anything else. *)
Definition field (v : json) (name : string) : json :=
  match v with
  | JObj fields =>
      match map_get fields name with Some x => x | None => JNull end
  | _ => JNull
  end.

(** [a ?? b]. *)
Definition nullish (a b : json) : json :=
  match a with JNull => b | _ => a end.

Definition backticks : string := "```".

(** [.replace(/^```(?:json)?\s*/i, '')] on a string that starts with the
    fence. *)
Definition strip_fence_head (raw : string) : string :=
  let r := skip 3 raw in
  let r := if startsWith_ci "json" r then skip 4 r else r in
  trimStart r.

(** [s] is white space, the fence, white space, and nothing more. *)
Definition fence_tail (s : string) : bool :=
  let r := trimStart s in
  (startsWith backticks r &&
   match trimStart (skip 3 r) with EmptyString => true | _ => false end)%bool.

(** [.replace(/\s*```\s*$/, '')]: the leftmost place from which only the
    closing fence is left. *)
Fixpoint strip_fence_tail (s : string) : string :=
  if fence_tail s then EmptyString
  else match s with
       | EmptyString => EmptyString
       | String c s' => String c (strip_fence_tail s')
       end.

(** [typeof parsed?.issue === 'string' ? parsed.issue.trim() : null]. *)
Definition rawLabelOf (parsed : json) : option string :=
  match field parsed "issue" with
  | JStr s => Some (trim s)
  | _ => None
  end.

(** [Array.isArray(parsed?.matching_indices) ? parsed.matching_indices : []]. *)
Definition indicesOf (parsed : json) : list json :=
  match field parsed "matching_indices" with
  | JArr l => l
  | _ => []
  end.

Section Oracle.
(** [JSON.parse]: the value, or [Thrown] for a [SyntaxError]. *)
Variable JSON_parse : string -> outcome json.

(** Extracts and parses JSON from the oracle's answer, tolerating markdown
    code fences.  A [text] that is no string has no [trim]: it throws. *)
Definition parseAiJson (text : json) : outcome json :=
  match text with
  | JStr t =>
      let raw := trim t in
      let raw :=
        if startsWith backticks raw
        then strip_fence_tail (strip_fence_head raw)
        else raw in
      JSON_parse raw
  | _ => Thrown "text.trim is not a function"
  end.

(** [typeof result === 'string' ? result
      : result?.response ?? result?.result ?? dflt]. *)
Definition answerText (result : json) (dflt : json) : json :=
  match result with
  | JStr _ => result
  | _ => nullish (field result "response") (nullish (field result "result") dflt)
  end.

(** The numbered comments of the prompt: [`${i + 1}. ${c}`] joined by
    line feeds. *)
Fixpoint numbered_from (i : nat) (comments : list string) : string :=
  match comments with
  | [] => EmptyString
  | c :: rest =>
      let line := NilZero.string_of_uint (Nat.to_uint i) ++ ". " ++ c in
      match rest with
      | [] => line
      | _ => line ++ String (ascii_of_nat 10) (numbered_from (S i) rest)
      end
  end.

Definition themePrompt (items : list FeedbackRow) : string :=
  let q := String (ascii_of_nat 34) EmptyString in
  let nl := String (ascii_of_nat 10) EmptyString in
  "You are analyzing product feedback. From the following comments, identify the single most recurring specific issue affecting enterprise customers or core product reliability. Return only a JSON object in this format:"
  ++ nl ++ "{" ++ nl
  ++ "  " ++ q ++ "issue" ++ q ++ ": " ++ q ++ "Short 2-5 word label" ++ q ++ "," ++ nl
  ++ "  " ++ q ++ "matching_indices" ++ q ++ ": [1, 2, 5, 7]" ++ nl
  ++ "}" ++ nl
  ++ "The matching_indices array must contain the 1-based line numbers of comments that describe this specific issue. Do not return explanations. Do not return generic phrases. The issue must reflect actual user-reported problems. Maximum 5 words."
  ++ nl ++ nl ++ "Comments:" ++ nl
  ++ numbered_from 1 (firstn 50 (map comment items)).

(** [env.AI.run(model, { prompt })]. *)
Variable AI_run : string -> outcome json.

(** The body of the [try] block of [generateThemeWithCount]. *)
Definition generateThemeBody (items : list FeedbackRow)
    (excludeThemes : list string) (preferTheme : option string)
    : outcome (option ThemeCount) :=
  let bucketSize := count_of items in
  result <- AI_run (themePrompt items) ;;
  parsed <- parseAiJson (answerText result (JStr EmptyString)) ;;
  let rawLabel := rawLabelOf parsed in
  let indices := indicesOf parsed in
  match rawLabel, indices with
  | None, _ | _, [] =>
      Returned (fallbackThemeAndCount items excludeThemes preferTheme)
  | Some rawLabel, _ :: _ =>
    if negb (truthy rawLabel)
    then Returned (fallbackThemeAndCount items excludeThemes preferTheme)
    else
    let processedLabel := postProcessThemeLabel rawLabel in
    if 5 <? split_count processedLabel
    then Returned (fallbackThemeAndCount items excludeThemes preferTheme)
    else
    let canonicalCluster := normalizeToCanonicalCluster processedLabel in
    if set_has excludeThemes canonicalCluster
    then Returned (fallbackThemeAndCount items excludeThemes preferTheme)
    else
    let (cnt, ent) := countForCluster items canonicalCluster in
    if belowMinShare cnt bucketSize
    then Returned (fallbackThemeAndCount items excludeThemes preferTheme)
    else
    let preferred :=
      match preferTheme with
      | Some p =>
          if (truthy p && negb (set_has excludeThemes p))%bool
          then let (pc, pe) := countForCluster items p in
               if 1 <=? pc then Some (mkThemeCount p pc pe) else None
          else None
      | None => None
      end in
    match preferred with
    | Some r => Returned (Some r)
    | None => Returned (Some (mkThemeCount canonicalCluster cnt ent))
    end
  end.

(** Identify the dominant issue with the oracle, normalize it to a
    cluster and return the cluster count; any failure inside the [try]
    block is absorbed by the keyword fallback. *)
Definition generateThemeWithCount (items : list FeedbackRow)
    (excludeThemes : list string) (preferTheme : option string)
    : outcome (option ThemeCount) :=
  match items with
  | [] => Returned None
  | _ =>
      try_catch (generateThemeBody items excludeThemes preferTheme)
                (Returned (fallbackThemeAndCount items excludeThemes preferTheme))
  end.
End Oracle.

(* ================================================================== *)
(** ** The KPI and summary routes, and the cache cells *)
(* ================================================================== *)

(** The module-level cells of the worker. *)
Record Caches := mkCaches {
  cachedSummary : option json;
  cachedAt : Z;
  dashboardCache : option (string * string * Z);
  execSummaryCache : option (string * string * Z)
}.

Definition CACHE_TTL_MS : Z := 30000.
Definition DASHBOARD_CACHE_TTL_MS : Z := 120000.
Definition EXEC_SUMMARY_CACHE_TTL_MS : Z := 300000.

Definition initialCaches : Caches := mkCaches None 0 None None.

(** The bindings of a request: the rows the query returns (or the error it
    throws) and the oracle; [None] is a missing binding. *)
Record Env := mkEnv {
  FEEDBACK_DB : option (outcome (list FeedbackRow));
  AI : option (string -> outcome json)
}.

Record KpiThemes := mkKpi {
  critical : option ThemeCount;
  monitor : option ThemeCount;
  low : option (list ThemeCount)
}.

Inductive Body :=
  | ErrorBody (error : string) (details : option string)
  | SummaryBody (summary : json)
  | KpiBody (kpi : KpiThemes).

Record Response := mkResponse { status : Z; body : Body }.

Definition hasSentiment (s : string) (r : FeedbackRow) : bool :=
  String.eqb (toLowerCase (sentiment r)) s.

Definition add_label (s : list string) (r : option ThemeCount) : list string :=
  match r with
  | Some t => if truthy (label t) then set_add s (label t) else s
  | None => s
  end.

(** [critical] of the [/api/kpi-themes] route. *)
Definition criticalOf (items : list FeedbackRow) : option ThemeCount :=
  let criticalItems := filter (hasSentiment "negative") items in
  match criticalItems with
  | [] => None
  | _ => fallbackThemeAndCount criticalItems [] None
  end.

(** [monitorExclude]: the themes never surfaced, and the label of the Critical
    bucket. *)
Definition monitorExcludeOf (critical : option ThemeCount) : list string :=
  add_label KPI_EXCLUDED_THEMES critical.

(** [monitor] of the route. *)
Definition monitorOf (items : list FeedbackRow) (critical : option ThemeCount)
    : option ThemeCount :=
  let monitorItems := filter (hasSentiment "neutral") items in
  match monitorItems with
  | [] => None
  | _ => fallbackThemeAndCount monitorItems (monitorExcludeOf critical)
           (Some MONITOR_PREFERRED_THEME)
  end.

(** [fallbackLowExclude] and [minimalExclude]: the labels of the Critical
    and of the Monitor bucket alone. *)
Definition minimalExcludeOf (critical monitor : option ThemeCount)
    : list string :=
  add_label (add_label [] critical) monitor.

(** [if (lowIssues.length === 0 && lowItems.length > 0) lowIssues = next]. *)
Definition retryWhenEmpty {A B : Type} (lowIssues : list A) (lowItems : list B)
    (next : list A) : list A :=
  match lowIssues, lowItems with
  | [], _ :: _ => next
  | _, _ => lowIssues
  end.

(** [lowIssues] of the route after its three steps. *)
Definition lowIssuesOf (lowItems : list FeedbackRow)
    (critical monitor : option ThemeCount) : list ThemeCount :=
  let lowExclude := add_label (monitorExcludeOf critical) monitor in
  let lowIssues := getTopThemesForLowBucket lowItems lowExclude false in
  let lowIssues :=
    retryWhenEmpty lowIssues lowItems
      (let fallbackLowExclude := minimalExcludeOf critical monitor in
       getTopThemesForLowBucket lowItems fallbackLowExclude false) in
  let lowIssues :=
    retryWhenEmpty lowIssues lowItems
      (let minimalExclude := minimalExcludeOf critical monitor in
       getTopThemesForLowBucket lowItems minimalExclude true) in
  lowIssues.

(** The resolution of the three buckets in the [/api/kpi-themes] route. *)
Definition kpiThemes (items : list FeedbackRow) : KpiThemes :=
  let lowItems := filter (hasSentiment "positive") items in
  let critical := criticalOf items in
  let monitor := monitorOf items critical in
  let lowIssues := lowIssuesOf lowItems critical monitor in
  mkKpi critical monitor
        (match lowIssues with [] => None | _ => Some lowIssues end).

Definition api_kpi_themes (st : Caches) (env : Env) : Response * Caches :=
  match FEEDBACK_DB env, AI env with
  | None, _ => (mkResponse 500 (ErrorBody "Missing D1 binding FEEDBACK_DB" None), st)
  | Some _, None => (mkResponse 500 (ErrorBody "Missing AI binding" None), st)
  | Some (Thrown msg), Some _ =>
      (mkResponse 500 (ErrorBody "Failed to generate KPI themes" (Some msg)), st)
  | Some (Returned items), Some _ =>
      (mkResponse 200 (KpiBody (kpiThemes items)), st)
  end.

(** The sources in order of first appearance ([[...new Set(...)]]). *)
Definition distinct (l : list string) : list string :=
  fold_left set_add l [].

Fixpoint join_with (sep : string) (l : list string) : string :=
  match l with
  | [] => EmptyString
  | [x] => x
  | x :: rest => x ++ sep ++ join_with sep rest
  end.

Definition ellipsis : string :=
  String (ascii_of_nat 226) (String (ascii_of_nat 128)
    (String (ascii_of_nat 166) EmptyString)).

(** [c.slice(0, n) + (c.length > n ? ellipsis : '')]. *)
Definition clip (n : nat) (c : string) : string :=
  take n c ++ (if Nat.ltb n (String.length c) then ellipsis else EmptyString).

Definition decimal (n : nat) : string := NilZero.string_of_uint (Nat.to_uint n).

Definition sourceSummary (items : list FeedbackRow) (src : string) : json :=
  let forSource := filter (fun i => String.eqb (source i) src) items in
  let pos := count_of (filter (hasSentiment "positive") forSource) in
  let neg := count_of (filter (hasSentiment "negative") forSource) in
  let dominant_sentiment :=
    if count_of forSource <? 2 * neg then "negative"
    else if count_of forSource <? 2 * pos then "positive"
    else "neutral" in
  JObj [ ("source", JStr src);
         ("total_items", JNum (js_of_Z (count_of forSource)));
         ("dominant_sentiment", JStr dominant_sentiment);
         ("key_issues",
          JArr (map (fun i => JStr (clip 80 (comment i))) (firstn 5 forSource))) ].

Definition overallSummary (items : list FeedbackRow) : string :=
  match items with
  | [] => "No feedback has been recorded yet."
  | _ =>
      decimal (List.length items) ++ " feedback item"
      ++ (if Nat.eqb (List.length items) 1 then EmptyString else "s")
      ++ " from " ++ join_with ", " (distinct (map source items)) ++ "."
  end.

Definition fallbackBySource (items : list FeedbackRow) : list json :=
  map (sourceSummary items) (distinct (map source items)).

Definition fallbackUrgent (items : list FeedbackRow) : list json :=
  map (fun i => JStr (source i ++ ": " ++ clip 60 (comment i))) (firstn 5 items).

Definition mkSummary (overall : string) (by_source urgent : list json) : json :=
  JObj [ ("overall_summary", JStr overall);
         ("by_source", JArr by_source);
         ("top_urgent_issues", JArr urgent) ].

(** A fully populated summary from the feedback alone. *)
Definition summaryFromFeedback (items : list FeedbackRow) : json :=
  mkSummary (overallSummary items) (fallbackBySource items) (fallbackUrgent items).

(** Fills the fields the parsed answer lacks from the feedback; reading a
    property of [null] throws. *)
Definition normalizeSummary (parsed : json) (feedbackItems : list FeedbackRow)
    : outcome json :=
  match parsed with
  | JNull => Thrown "Cannot read properties of null"
  | _ =>
      Returned
        (mkSummary
           (match field parsed "overall_summary" with
            | JStr s => if truthy s then s else overallSummary feedbackItems
            | _ => overallSummary feedbackItems
            end)
           (match field parsed "by_source" with
            | JArr (x :: l) => x :: l
            | _ => fallbackBySource feedbackItems
            end)
           (match field parsed "top_urgent_issues" with
            | JArr (x :: l) => x :: l
            | _ => fallbackUrgent feedbackItems
            end))
  end.

Definition promptLine (item : FeedbackRow) : string :=
  let q := String (ascii_of_nat 34) EmptyString in
  "[" ++ source item ++ "] sentiment=" ++ sentiment item ++ " comment=" ++ q
  ++ comment item ++ q ++ " timestamp=" ++ timestamp item.

Definition summaryPrompt (items : list FeedbackRow) : string :=
  let q := String (ascii_of_nat 34) EmptyString in
  let nl := String (ascii_of_nat 10) EmptyString in
  trim
    (nl ++ "You are helping a product manager understand customer feedback aggregated from multiple channels."
     ++ nl ++ nl
     ++ "Each line below is a single piece of feedback in the format:" ++ nl
     ++ "[source] sentiment=<positive|neutral|negative> comment=" ++ q
     ++ "<user comment>" ++ q ++ " timestamp=<ISO8601>" ++ nl ++ nl
     ++ "Feedback:" ++ nl
     ++ join_with nl (map promptLine items) ++ nl ++ nl
     ++ "Based on this feedback, respond ONLY with minified JSON (no markdown, no extra text) that matches this TypeScript type:"
     ++ nl ++ nl
     ++ "type Summary = {" ++ nl
     ++ "  overall_summary: string;" ++ nl
     ++ "  by_source: {" ++ nl
     ++ "    source: string;" ++ nl
     ++ "    total_items: number;" ++ nl
     ++ "    dominant_sentiment: string;" ++ nl
     ++ "    key_issues: string[];" ++ nl
     ++ "  }[];" ++ nl
     ++ "  top_urgent_issues: string[];" ++ nl
     ++ "};" ++ nl ++ nl
     ++ "Return ONLY valid JSON conforming to Summary." ++ nl
     ++ String (ascii_of_nat 9) (String (ascii_of_nat 9) (String (ascii_of_nat 9)
          (String (ascii_of_nat 9) EmptyString)))).

Section SummaryRoute.
Variable JSON_parse : string -> outcome json.
(** [JSON.stringify]: a string, nothing for [undefined], or [Thrown] for a
    value it cannot serialize (a BigInt, a cycle). *)
Variable JSON_stringify : json -> outcome json.

(** [typeof aiResult === 'string' ? aiResult
      : aiResult?.response ?? aiResult?.result ?? JSON.stringify(aiResult)]:
    [JSON.stringify] is called only when both properties are nullish. *)
Definition summaryText (aiResult : json) : outcome json :=
  match aiResult with
  | JStr _ => Returned aiResult
  | _ =>
      match nullish (field aiResult "response") (field aiResult "result") with
      | JNull => JSON_stringify aiResult
      | text => Returned text
      end
  end.

(** The [/api/summary] route: the response and the cache cells after the
    request. *)
Definition api_summary (st : Caches) (env : Env) : Response * Caches :=
  match FEEDBACK_DB env, AI env with
  | None, _ =>
      (mkResponse 500 (ErrorBody "Missing D1 binding FEEDBACK_DB" None), st)
  | Some _, None => (mkResponse 500 (ErrorBody "Missing AI binding" None), st)
  | Some (Thrown msg), Some _ =>
      (mkResponse 500 (ErrorBody "Failed to generate summary from AI" (Some msg)), st)
  | Some (Returned []), Some _ =>
      (mkResponse 200
         (SummaryBody (mkSummary "No feedback has been recorded yet." [] [])), st)
  | Some (Returned feedbackItems), Some run =>
      match run (summaryPrompt feedbackItems) with
      | Thrown msg =>
          (mkResponse 500
             (ErrorBody "Failed to generate summary from AI" (Some msg)), st)
      | Returned aiResult =>
          match summaryText aiResult with
          | Thrown msg =>
              (mkResponse 500
                 (ErrorBody "Failed to generate summary from AI" (Some msg)), st)
          | Returned text =>
              let summary :=
                try_catch
                  (parsed <- parseAiJson JSON_parse text ;;
                   normalizeSummary parsed feedbackItems)
                  (Returned (summaryFromFeedback feedbackItems)) in
              match summary with
              | Returned s => (mkResponse 200 (SummaryBody s), st)
              | Thrown msg =>
                  (mkResponse 500
                     (ErrorBody "Failed to generate summary from AI" (Some msg)),
                   st)
              end
          end
      end
  end.
End SummaryRoute.

(* ================================================================== *)
(** ** Sample feedback *)
(* ================================================================== *)

(** [n] rows of one source, sentiment and comment, with ids from [first]. *)
Fixpoint rows (first : Z) (n : nat) (src sent c : string) : list FeedbackRow :=
  match n with
  | O => []
  | S n' =>
      mkRow first src sent c "2026-01-15T09:00:00Z"
      :: rows (first + 1) n' src sent c
  end.

(** Two Critical themes, one Monitor theme and one Low Impact theme. *)
Definition sample_four_themes : list FeedbackRow :=
  (rows 1 7 "Email" "negative" "login fails"
   ++ rows 8 7 "Email" "negative" "api timeout"
   ++ rows 15 4 "Email" "neutral" "docs scattered"
   ++ rows 19 1 "Discord" "positive" "status unclear")%list.

(** Two themes of equal score, listed against the lexical order. *)
Definition sample_tie : list FeedbackRow :=
  (rows 1 1 "Discord" "neutral" "docs scattered"
   ++ rows 2 1 "Discord" "neutral" "api timeout")%list.

(** A record whose comment matches no keyword rule of the bucket
    resolver. *)
Definition sample_unclassified : list FeedbackRow :=
  rows 1 1 "Discord" "negative" "great product".

(** A neutral record of a theme that is never surfaced. *)
Definition sample_excluded_monitor : list FeedbackRow :=
  rows 1 1 "Discord" "neutral" "status unclear".

(** A complaint and a compliment about the same theme. *)
Definition sample_same_theme : list FeedbackRow :=
  (rows 1 1 "Email" "negative" "login fails"
   ++ rows 2 1 "Discord" "positive" "login works great")%list.

(** Five themes that the aggregator lists against the order of their risk
    scores: 12, 13, 3 (Low Impact), 26 and 30. *)
Definition sample_unsorted : list FeedbackRow :=
  (rows 1 4 "Email" "neutral" "docs scattered"
   ++ rows 5 4 "Email" "neutral" "api timeout"
   ++ rows 9 1 "Discord" "neutral" "api timeout"
   ++ rows 10 1 "Email" "neutral" "status unclear"
   ++ rows 11 8 "Email" "negative" "login fails"
   ++ rows 19 10 "Email" "neutral" "inbox empty")%list.

(** Five mentions of a theme that was not seen the day before. *)
Definition sample_five_today : list FeedbackRow :=
  rows 1 5 "Discord" "negative" "login fails".

(** A theme seen yesterday only. *)
Definition sample_yesterday_only : list FeedbackRow :=
  rows 1 3 "Email" "negative" "api timeout".

(** 63 mentions of a theme today against 40 yesterday: an exact change of
    57.5 percent. *)
Definition sample_63_today : list FeedbackRow :=
  rows 1 63 "Discord" "negative" "login fails".

Definition sample_40_yesterday : list FeedbackRow :=
  rows 1 40 "Discord" "negative" "login fails".

(** An answer of the oracle inside a code fence: a label, and no index. *)
Definition sample_answer_json : string :=
  let q := String (ascii_of_nat 34) EmptyString in
  "{" ++ q ++ "issue" ++ q ++ ": " ++ q ++ "Login Bugs" ++ q ++ ", "
  ++ q ++ "matching_indices" ++ q ++ ": []}".

Definition sample_answer : string :=
  backticks ++ "json" ++ String (ascii_of_nat 10) sample_answer_json
  ++ String (ascii_of_nat 10) backticks.

(** [JSON.parse] on the texts of the samples: the object above parses,
    prose throws. *)
Definition JSON_parse_sample (raw : string) : outcome json :=
  if String.eqb raw sample_answer_json
  then Returned (JObj [ ("issue", JStr "Login Bugs");
                        ("matching_indices", JArr []) ])
  else Thrown "Unexpected token".

Definition sample_oracle (prompt : string) : outcome json :=
  Returned (JObj [ ("response", JStr sample_answer) ]).

(** An oracle that answers in prose. *)
Definition prose_oracle (prompt : string) : outcome json :=
  Returned (JStr "Sorry, I cannot summarize this feedback.").

(** Two requests for the summary, the second after one more record was
    stored. *)
Definition sample_request_1 : Env :=
  mkEnv (Some (Returned (rows 1 1 "Email" "negative" "login fails")))
        (Some prose_oracle).

Definition sample_request_2 : Env :=
  mkEnv (Some (Returned (rows 1 2 "Email" "negative" "login fails")))
        (Some prose_oracle).

(* ================================================================== *)
(** ** Vocabulary of the statements *)
(* ================================================================== *)

(** [a] may stand before [b] in a list that is descending in [key]. *)
Definition desc {A : Type} (key : A -> Z) (a b : A) : Prop := key b <= key a.

Definition themeOf (x : ScoredTheme) : string := theme (agg x).

(** Entries of equal risk score stand in the lexical order of their
    labels. *)
Definition ties_lexical (l : list ScoredTheme) : Prop :=
  forall i j a b,
    (i < j)%nat -> nth_error l i = Some a -> nth_error l j = Some b ->
    risk_score a = risk_score b ->
    String.leb (themeOf a) (themeOf b) = true.

Definition PASSWORD_RESET : string := "Password Reset Issues".

(** The password-reset rule wins in all three rulesets. *)
Definition password_reset_first_everywhere : Prop :=
  forall c : string,
    test_words RE_PASSWORD_RESET (toLowerCase c) = true ->
    getThemeForCommentBackend c = PASSWORD_RESET /\
    normalizeToCanonicalCluster c = PASSWORD_RESET /\
    toAbstractLabel c = Some PASSWORD_RESET.

(** What makes [generateThemeWithCount] give up on the oracle: the call
    throws, its output does not parse, the label is missing or empty, no
    index comes back, the processed label has more than 5 words, the
    cluster is excluded, or the cluster's count is below the minimum
    share of the bucket. *)
Definition oracle_rejected (JSON_parse : string -> outcome json)
    (AI_run : string -> outcome json) (items : list FeedbackRow)
    (excludeThemes : list string) : Prop :=
  match AI_run (themePrompt items) with
  | Thrown _ => True
  | Returned result =>
      match parseAiJson JSON_parse (answerText result (JStr EmptyString)) with
      | Thrown _ => True
      | Returned parsed =>
          match rawLabelOf parsed with
          | None => True
          | Some rawLabel =>
              let cluster :=
                normalizeToCanonicalCluster (postProcessThemeLabel rawLabel) in
              rawLabel = EmptyString \/
              indicesOf parsed = [] \/
              5 < split_count (postProcessThemeLabel rawLabel) \/
              set_has excludeThemes cluster = true \/
              belowMinShare (fst (countForCluster items cluster))
                            (count_of items) = true
          end
      end
  end.


(** *** Binary64 rounding *)

(** The mantissa rounded up: one more when a bit was shifted out. *)
Definition ceil_m (mrs : shr_record) : Z :=
  shr_m mrs + (if (shr_r mrs || shr_s mrs)%bool then 1 else 0).

(** What [n] shifts keep: the mantissa stays non-negative, it shrinks by
    [2 ^ n] at least, and its ceiling stays below every bound that the
    ceiling at the start respected on the coarser grid. *)
Definition shifted (mrs0 : shr_record) (n : nat) (mrs : shr_record) : Prop :=
  0 <= shr_m mrs /\
  shr_m mrs * 2 ^ Z.of_nat n <= shr_m mrs0 /\
  forall K, ceil_m mrs0 <= K * 2 ^ Z.of_nat n -> ceil_m mrs <= K.

(** [x] is zero or a positive finite number [m * 2 ^ e] that is at most
    [kB * 2 ^ eB], with [e <= eB]. *)
Definition below (kB eB : Z) (x : number) : Prop :=
  match x with
  | S754_zero false => True
  | S754_finite false m e => e <= eB /\ Zpos m <= kB * 2 ^ (eB - e)
  | _ => False
  end.

(** The records of a list that fall under a theme. *)
Definition mentions (k : string) (items : list FeedbackRow) : Z :=
  count_of (filter (fun r => String.eqb (themeKey r) k) items).

Definition total_of (m : jsmap ThemeRec) (k : string) : Z :=
  match map_get m k with Some rec => total rec | None => 0 end.

Definition count_in (m : jsmap Z) (k : string) : Z :=
  match map_get m k with Some n => n | None => 0 end.

(** The labels the Critical and the Monitor bucket resolved to. *)
Definition resolvedLabels (k : KpiThemes) : list string :=
  minimalExcludeOf (critical k) (monitor k).

(** The quotient [n / d] rounded to the nearest integer, a half going up:
    [Math.round] of the exact quotient. *)
Definition round_half_up (n d : Z) : Z := (2 * n + d) / (2 * d).

(** The rule of the percent change read on exact quotients. *)
Definition percent_change_exact : Prop :=
  forall todayItems yesterdayItems a,
    In a (aggregateThemes todayItems yesterdayItems) ->
    (0 < yesterday_mentions a ->
     percent_change_vs_yesterday a =
     js_of_Z (round_half_up (100 * (total_mentions a - yesterday_mentions a))
                            (yesterday_mentions a))) /\
    (yesterday_mentions a = 0 -> 0 < total_mentions a ->
     percent_change_vs_yesterday a = js_of_Z 100) /\
    (yesterday_mentions a = 0 -> total_mentions a = 0 ->
     percent_change_vs_yesterday a = js_of_Z 0).

(** The counters of a theme after [n] rows: the tier split adds up, and
    the negative mentions are among the [n] at most that were counted. *)
Definition rec_ok (n : Z) (rec : ThemeRec) : Prop :=
  enterprise rec + selfServe rec = total rec /\
  0 <= negative rec <= total rec /\ total rec <= n.

(** The sum of a measure over a list. *)
Definition sum_by {A : Type} (f : A -> Z) (l : list A) : Z :=
  fold_right (fun a acc => f a + acc) 0 l.

(** Critical above Monitor above Low Impact. *)
Definition tierRank (l : RiskLevel) : Z :=
  match l with Critical => 2 | Monitor => 1 | LowImpact => 0 end.

(** The rows a grouping holds under a key; none for a missing key. *)
Definition rows_in (m : jsmap (list FeedbackRow)) (k : string)
    : list FeedbackRow :=
  match map_get m k with Some rows => rows | None => [] end.

(** A theme the bucket resolver may surface: classified and not excluded. *)
Definition allowedTheme (excludeThemes : list string) (th : string) : bool :=
  negb (String.eqb th "Other" || set_has excludeThemes th).

(** The records of a bucket that the keyword rules give a theme. *)
Definition rowsOfTheme (th : string) (items : list FeedbackRow)
    : list FeedbackRow :=
  filter (fun r => String.eqb (getThemeForCommentBackend (comment r)) th) items.

(** The values [getThemeForCommentBackend] can return. *)
Definition BACKEND_THEMES : list string :=
  [ "Authentication / Login Issues"; "API Timeout Errors";
    "Password Reset Issues"; "Deployment / Session Issues"; "UI / UX Issues";
    "Notifications / Alerts"; "Account Recovery"; "Issue / Ticket Status";
    "Dashboard Latency"; "Documentation Confusion"; "Other" ].

(** One turn of a grouping loop: a kept row is pushed under its key. *)
Definition group_step (keep : FeedbackRow -> bool) (key : FeedbackRow -> string)
    (byTheme : jsmap (list FeedbackRow)) (r : FeedbackRow)
    : jsmap (list FeedbackRow) :=
  if keep r then push_row byTheme (key r) r else byTheme.

(** The kept rows of a key. *)
Definition kept (keep : FeedbackRow -> bool) (key : FeedbackRow -> string)
    (k : string) (items : list FeedbackRow) : list FeedbackRow :=
  filter (fun r => (keep r && String.eqb (key r) k)%bool) items.

Definition themeOfRow (r : FeedbackRow) : string :=
  getThemeForCommentBackend (comment r).

(** The rows the Low Impact grouping keeps, and the key it files them
    under. *)
Definition lowKeep (excludeThemes : list string) (includeOther : bool)
    (r : FeedbackRow) : bool :=
  negb ((negb includeOther && String.eqb (themeOfRow r) "Other")
        || set_has excludeThemes (themeOfRow r)).

Definition lowKey (includeOther : bool) (r : FeedbackRow) : string :=
  if (String.eqb (themeOfRow r) "Other" && includeOther)%bool
  then "Various feedback" else themeOfRow r.

(** The counts of a list of issues are descending. *)
Definition countsDescending (l : list ThemeCount) : Prop :=
  StronglySorted (fun a b => count b <= count a) l.


(* ================================================================== *)
(** ** Text helpers of the HTML page *)
(* ================================================================== *)

(** [s.replace(/c/g, rep)] for a single character [c]. *)
Fixpoint replace_char (c : ascii) (rep : string) (s : string) : string :=
  match s with
  | EmptyString => EmptyString
  | String d s' =>
      (if Ascii.eqb d c then rep else String d EmptyString)
      ++ replace_char c rep s'
  end.

Definition escapeHtml (s : string) : string :=
  replace_char (ascii_of_nat 34) "&quot;"
    (replace_char ">"%char "&gt;"
       (replace_char "<"%char "&lt;"
          (replace_char "&"%char "&amp;" s))).

(** Source name with consistent capitalization. *)
Definition displaySourceName (source : string) : string :=
  let lower := toLowerCase source in
  if String.eqb lower "email" then "Email"
  else if String.eqb lower "community forums" then "Community Forums"
  else if String.eqb lower "github issues" then "GitHub Issues"
  else source.

(** No character of [s] is white space. *)
Fixpoint no_space (s : string) : bool :=
  match s with
  | EmptyString => true
  | String c s' => (negb (is_space c) && no_space s')%bool
  end.

(** A word: not empty, and without white space. *)
Definition a_word (w : string) : Prop :=
  w <> EmptyString /\ no_space w = true.

(** The character [c] occurs in [s]. *)
Fixpoint occurs (c : ascii) (s : string) : bool :=
  match s with
  | EmptyString => false
  | String d s' => (Ascii.eqb d c || occurs c s')%bool
  end.

(** A summary with its three fields filled: a text that is not empty and
    two arrays that are not empty. *)
Definition populated (s : json) : Prop :=
  (exists t, field s "overall_summary" = JStr t /\ t <> EmptyString) /\
  (exists x l, field s "by_source" = JArr (x :: l)) /\
  (exists x l, field s "top_urgent_issues" = JArr (x :: l)).

(** The records of one source. *)
Definition fromSource (src : string) (items : list FeedbackRow)
    : list FeedbackRow :=
  filter (fun i => String.eqb (source i) src) items.

(** What [escapeHtml] writes for one character. *)
Definition escapeChar (c : ascii) : string := escapeHtml (String c EmptyString).

(* ================================================================== *)
(** ** The lists of the HTML dashboard *)
(* ================================================================== *)

(** [sourceCounts.set(r.source, (sourceCounts.get(r.source) ?? 0) + 1)]. *)
Definition countSource (sourceCounts : jsmap Z) (r : FeedbackRow) : jsmap Z :=
  map_set sourceCounts (source r)
    (match map_get sourceCounts (source r) with Some n => n | None => 0 end + 1).

(** Today's records per source. *)
Definition sourceCounts (todayItems : list FeedbackRow) : jsmap Z :=
  fold_left countSource todayItems [].

(** The entries [{ source, count }], by descending count. *)
Definition sourceBreakdownSorted (todayItems : list FeedbackRow)
    : list (string * Z) :=
  sort_desc (@snd string Z) (sourceCounts todayItems).

(** [Math.max(1, ...sourceBreakdownSorted.map((s) => s.count))]. *)
Definition maxSourceCount (todayItems : list FeedbackRow) : Z :=
  fold_left Z.max (map snd (sourceBreakdownSorted todayItems)) 1.

(** [Math.round((s.count / maxSourceCount) * 200)]. *)
Definition barWidth (count maxSourceCount : Z) : number :=
  Math_round (js_mul (js_div (js_of_Z count) (js_of_Z maxSourceCount))
                     (js_of_Z 200)).

(** The five themes with the most mentions. *)
Definition recurringByMentions (scored : list ScoredTheme)
    : list ScoredTheme :=
  firstn 5 (sort_desc (fun x => total_mentions (agg x)) scored).

(* ================================================================== *)
(** ** Theme labels with a priority *)
(* ================================================================== *)

Inductive Priority := High | Moderate | Low.

(** [{ theme, priority }]. *)
Definition ThemeWithPriority : Type := (string * Priority)%type.

(** A loop whose body may throw. *)
Fixpoint foldM {A B : Type} (f : A -> B -> outcome A) (l : list B) (a : A)
    : outcome A :=
  match l with
  | [] => Returned a
  | x :: rest => a' <- f a x ;; foldM f rest a'
  end.

(** [if (!label) return; counts.set(label, (counts.get(label) ?? 0) + 1)]. *)
Definition addOccurrence (counts : jsmap Z) (label : option string)
    : jsmap Z :=
  match label with
  | Some l =>
      if truthy l
      then map_set counts l
             (match map_get counts l with Some n => n | None => 0 end + 1)
      else counts
  | None => counts
  end.

Definition is_label_char (c : ascii) : bool :=
  (is_upper c || is_lower c || is_digit c || Nat.eqb (code c) 32)%bool.

Fixpoint skip_label_chars (s : string) : string :=
  match s with
  | String c s' => if is_label_char c then skip_label_chars s' else s
  | EmptyString => EmptyString
  end.

(** [/^[A-Za-z0-9 ]+:\s/.test(text)]. *)
Definition has_source_prefix (text : string) : bool :=
  match text with
  | String c _ =>
      (is_label_char c &&
       match skip_label_chars text with
       | String d (String e _) => (Ascii.eqb d ":"%char && is_space e)%bool
       | _ => false
       end)%bool
  | EmptyString => false
  end.

(** One turn of the loop over [top_urgent_issues]; an entry that is no
    string has no [trim]. *)
Definition countUrgent (counts : jsmap Z) (t : json) : outcome (jsmap Z) :=
  match t with
  | JStr t =>
      let text := trim t in
      if negb (truthy text) then Returned counts
      else if (has_source_prefix text || (80 <? slen text))%bool
      then Returned (addOccurrence counts (toAbstractLabel text))
      else
        let ws := words text in
        if ((2 <=? count_of ws) && (count_of ws <=? 5)
            && (slen text <=? 50))%bool
        then Returned (addOccurrence counts (Some text))
        else Returned (addOccurrence counts (toAbstractLabel text))
  | _ => Thrown "t.trim is not a function"
  end.

(** [Array.isArray(s.key_issues) ? s.key_issues : []]. *)
Definition keyIssuesOf (s : json) : outcome (list json) :=
  match s with
  | JNull => Thrown "Cannot read properties of null"
  | _ => Returned (match field s "key_issues" with JArr l => l | _ => [] end)
  end.

Fixpoint flatMapM (f : json -> outcome (list json)) (l : list json)
    : outcome (list json) :=
  match l with
  | [] => Returned []
  | x :: rest => xs <- f x ;; ys <- flatMapM f rest ;; Returned (xs ++ ys)%list
  end.

(** One turn of the loop over the key issues; an issue that is no string
    has no [replace]. *)
Definition countIssue (counts : jsmap Z) (issue : json) : outcome (jsmap Z) :=
  match issue with
  | JStr raw => Returned (addOccurrence counts (toAbstractLabel raw))
  | _ => Thrown "raw.replace is not a function"
  end.

(** High from 4 occurrences, Moderate from 2, Low for 1. *)
Definition priority (count : Z) : Priority :=
  if 4 <=? count then High else if 2 <=? count then Moderate else Low.

(** The loop that pads with canonical themes. *)
Fixpoint padThemes (themes seen : list string)
    (sorted : list (string * Priority)) : list (string * Priority) :=
  match themes with
  | [] => sorted
  | th :: rest =>
      if (5 <=? List.length sorted)%nat then sorted
      else if set_has seen th then padThemes rest seen sorted
      else padThemes rest (set_add seen th) (sorted ++ [(th, Low)])
  end.

(** Counts how often each abstract theme occurs among the urgent issues
    and the key issues of a summary, and returns themes with a
    priority. *)
Definition deriveThemeLabelsWithPriority (summary : json)
    : outcome (list ThemeWithPriority) :=
  let MAX_THEMES := 5%nat in
  match summary with
  | JNull => Thrown "Cannot read properties of null"
  | _ =>
      let fromTop :=
        match field summary "top_urgent_issues" with
        | JArr l => l
        | _ => []
        end in
      counts <- foldM countUrgent fromTop [] ;;
      let bySource :=
        match field summary "by_source" with JArr l => l | _ => [] end in
      flattened <- flatMapM keyIssuesOf bySource ;;
      counts <- foldM countIssue flattened counts ;;
      let sorted :=
        map (fun e : string * Z => (fst e, priority (snd e)))
            (firstn MAX_THEMES (sort_desc (@snd string Z) counts)) in
      let seen := distinct (map fst sorted) in
      let sorted := padThemes CANONICAL_THEMES seen sorted in
      Returned (firstn MAX_THEMES sorted)
  end.

(* ================================================================== *)
(** * Properties *)
(* ================================================================== *)

(** ** Maps in insertion order *)

Section JsMapFacts.
Context {V : Type}.
Implicit Types (m : jsmap V) (k : string) (v : V).

Lemma map_has_In m k : map_has m k = true <-> In k (map fst m).
Proof.
  unfold map_has. induction m as [|[k' v'] m IH]; simpl.
  - split; [discriminate | tauto].
  - destruct (String.eqb_spec k k') as [->|Hne].
    + split; auto.
    + rewrite IH. split; [auto | intros [H|H]; [congruence | exact H]].
Qed.

Lemma map_has_false m k : map_has m k = false <-> ~ In k (map fst m).
Proof.
  rewrite <- map_has_In. destruct (map_has m k); split; congruence.
Qed.

Lemma map_get_In m k v : map_get m k = Some v -> In (k, v) m.
Proof.
  induction m as [|[k' v'] m IH]; simpl; [discriminate|].
  destruct (String.eqb_spec k k') as [->|Hne].
  - intros [= ->]. now left.
  - intros H. right. auto.
Qed.

Lemma map_get_None m k : map_get m k = None <-> map_has m k = false.
Proof. unfold map_has. destruct (map_get m k); split; congruence. Qed.

Lemma map_set_keys m k v :
  map fst (map_set m k v) =
  if map_has m k then map fst m else (map fst m ++ [k])%list.
Proof.
  unfold map_has. induction m as [|[k' v'] m IH]; simpl; [reflexivity|].
  destruct (String.eqb_spec k k') as [->|Hne]; simpl; [reflexivity|].
  rewrite IH. now destruct (map_get m k).
Qed.

Lemma map_get_set_same m k v : map_get (map_set m k v) k = Some v.
Proof.
  induction m as [|[k' v'] m IH]; simpl.
  - now rewrite String.eqb_refl.
  - destruct (String.eqb_spec k k') as [->|Hne]; simpl.
    + now rewrite String.eqb_refl.
    + destruct (String.eqb_spec k k'); [congruence | exact IH].
Qed.

Lemma map_get_set_other m k k' v :
  k <> k' -> map_get (map_set m k v) k' = map_get m k'.
Proof.
  intros Hne. induction m as [|[k0 v0] m IH]; simpl.
  - destruct (String.eqb_spec k' k); [congruence | reflexivity].
  - destruct (String.eqb_spec k k0) as [->|Hk]; simpl.
    + destruct (String.eqb_spec k' k0); [congruence | reflexivity].
    + now rewrite IH.
Qed.

Lemma map_set_NoDup m k v :
  NoDup (map fst m) -> NoDup (map fst (map_set m k v)).
Proof.
  intros Hnd. rewrite map_set_keys.
  destruct (map_has m k) eqn:Hh; [exact Hnd|].
  apply map_has_false in Hh.
  apply NoDup_rev in Hnd. rewrite <- (rev_involutive (_ ++ _)).
  apply NoDup_rev. rewrite rev_app_distr. simpl. constructor; [|exact Hnd].
  now rewrite <- in_rev.
Qed.

(** A property of all values survives [map_set] with such a value. *)
Lemma map_set_Forall (P : V -> Prop) m k v :
  Forall (fun e => P (snd e)) m -> P v ->
  Forall (fun e => P (snd e)) (map_set m k v).
Proof.
  intros Hm Hv. induction m as [|[k' v'] m IH]; simpl.
  - constructor; [exact Hv | constructor].
  - inversion Hm; subst.
    destruct (String.eqb k k'); constructor; auto.
Qed.

Lemma map_get_Forall (P : V -> Prop) m k v :
  Forall (fun e => P (snd e)) m -> map_get m k = Some v -> P v.
Proof.
  intros Hm Hg. apply map_get_In in Hg.
  rewrite Forall_forall in Hm. exact (Hm _ Hg).
Qed.
End JsMapFacts.

(** ** The stable descending sort *)

Section SortDescFacts.
Context {A : Type}.
Variable key : A -> Z.

Lemma insert_desc_perm x l : Permutation (insert_desc key x l) (x :: l).
Proof.
  induction l as [|y l IH]; simpl; [reflexivity|].
  destruct (key x <? key y); [|reflexivity].
  rewrite IH. apply perm_swap.
Qed.

Lemma sort_desc_perm l : Permutation (sort_desc key l) l.
Proof.
  induction l as [|x l IH]; simpl; [reflexivity|].
  rewrite insert_desc_perm. now constructor.
Qed.

Lemma sort_desc_In x l : In x (sort_desc key l) <-> In x l.
Proof.
  split; apply Permutation_in;
    [apply sort_desc_perm | symmetry; apply sort_desc_perm].
Qed.

Lemma sort_desc_length l : List.length (sort_desc key l) = List.length l.
Proof. apply Permutation_length, sort_desc_perm. Qed.

Lemma insert_desc_sorted x l :
  StronglySorted (desc key) l -> StronglySorted (desc key) (insert_desc key x l).
Proof.
  induction 1 as [|y l Hs IH Hall]; simpl.
  - constructor; constructor.
  - destruct (Z.ltb_spec (key x) (key y)) as [Hlt|Hge].
    + constructor; [exact IH|].
      rewrite Forall_forall in *. intros z Hz.
      apply (Permutation_in _ (insert_desc_perm x l)) in Hz.
      destruct Hz as [<-|Hz]; [unfold desc; lia | auto].
    + constructor; [constructor; assumption|].
      constructor; [exact Hge|].
      rewrite Forall_forall in *. intros z Hz.
      specialize (Hall z Hz). unfold desc in *. lia.
Qed.

Lemma sort_desc_sorted l : StronglySorted (desc key) (sort_desc key l).
Proof.
  induction l as [|x l IH]; simpl; [constructor|].
  now apply insert_desc_sorted.
Qed.

(** Stability: among the entries of one key, the order is kept. *)
Lemma insert_desc_stable k x l :
  filter (fun a => key a =? k) (insert_desc key x l) =
  filter (fun a => key a =? k) (x :: l).
Proof.
  induction l as [|y l IH]; [reflexivity|].
  simpl insert_desc. destruct (Z.ltb_spec (key x) (key y)) as [Hlt|Hge];
    [|reflexivity].
  simpl in *. rewrite IH.
  destruct (Z.eqb_spec (key x) k), (Z.eqb_spec (key y) k);
    try reflexivity; lia.
Qed.

Lemma sort_desc_stable k l :
  filter (fun a => key a =? k) (sort_desc key l) =
  filter (fun a => key a =? k) l.
Proof.
  induction l as [|x l IH]; [reflexivity|].
  simpl sort_desc. rewrite insert_desc_stable. simpl. now rewrite IH.
Qed.

(** The head of the sorted list has the largest key. *)
Lemma sort_desc_head_max b l :
  hd_error (sort_desc key l) = Some b ->
  In b l /\ forall x, In x l -> key x <= key b.
Proof.
  intros Hhd. pose proof (sort_desc_sorted l) as Hs.
  destruct (sort_desc key l) as [|b' rest] eqn:E; [discriminate|].
  injection Hhd as ->. split.
  - apply sort_desc_In. rewrite E. now left.
  - intros x Hx. apply sort_desc_In in Hx. rewrite E in Hx.
    inversion Hs as [|? ? _ Hall]; subst. destruct Hx as [<-|Hx]; [lia|].
    rewrite Forall_forall in Hall. exact (Hall x Hx).
Qed.

Lemma sort_desc_nonempty l :
  l <> [] -> exists b, hd_error (sort_desc key l) = Some b.
Proof.
  intros Hl. destruct (sort_desc key l) as [|b r] eqn:E.
  - apply (f_equal (@List.length A)) in E. rewrite sort_desc_length in E.
    destruct l; [congruence | discriminate].
  - now exists b.
Qed.
End SortDescFacts.

Lemma NoDup_map_inj {A B : Type} (f : A -> B) (l : list A) a b :
  NoDup (map f l) -> In a l -> In b l -> f a = f b -> a = b.
Proof.
  induction l as [|x l IH]; simpl; [tauto|].
  intros Hnd Ha Hb Hf. inversion Hnd as [|? ? Hnin Hnd']; subst.
  destruct Ha as [->|Ha], Hb as [->|Hb]; auto.
  - exfalso. apply Hnin. rewrite Hf. now apply in_map.
  - exfalso. apply Hnin. rewrite <- Hf. now apply in_map.
Qed.

Lemma In_firstn {A : Type} (n : nat) (l : list A) x :
  In x (firstn n l) -> In x l.
Proof.
  revert n. induction l as [|y l IH]; intros [|n]; simpl; try tauto.
  intros [H|H]; [now left | right; eauto].
Qed.

Lemma NoDup_firstn {A : Type} (n : nat) (l : list A) :
  NoDup l -> NoDup (firstn n l).
Proof.
  revert n. induction l as [|x l IH]; intros [|n] Hnd; simpl;
    try constructor.
  - inversion Hnd; subst. intros Hin. apply In_firstn in Hin. contradiction.
  - inversion Hnd; subst. now apply IH.
Qed.

(** ** The aggregator lists each theme once *)

Lemma add_NoDup row isToday m :
  NoDup (map fst m) -> NoDup (map fst (add row isToday m)).
Proof.
  intros Hnd. unfold add. cbv zeta.
  destruct (map_has m (themeKey row));
    match goal with |- context [map_get ?x ?k] => destruct (map_get x k) end;
    destruct isToday; auto using map_set_NoDup.
Qed.

Lemma todayThemeMap_NoDup todayItems : NoDup (map fst (todayThemeMap todayItems)).
Proof.
  unfold todayThemeMap.
  assert (H : forall m, NoDup (map fst m) ->
              NoDup (map fst (fold_left (fun m r => add r true m) todayItems m))).
  { induction todayItems as [|r l IH]; intros m Hm; simpl; [exact Hm|].
    apply IH. now apply add_NoDup. }
  apply H. constructor.
Qed.

Lemma toAggregate_theme y e : theme (toAggregate y e) = fst e.
Proof. now destruct e. Qed.

Lemma aggregateThemes_themes todayItems yesterdayItems :
  map theme (aggregateThemes todayItems yesterdayItems) =
  map fst (todayThemeMap todayItems).
Proof.
  unfold aggregateThemes. rewrite map_map.
  apply map_ext. intros e. apply toAggregate_theme.
Qed.

Lemma withRisk_agg a : agg (withRisk a) = a.
Proof. unfold withRisk. now destruct (computeRiskScore a). Qed.

Lemma aggregatedWithRisk_NoDup todayItems yesterdayItems :
  NoDup (map themeOf (aggregatedWithRisk todayItems yesterdayItems)).
Proof.
  unfold aggregatedWithRisk. rewrite map_map.
  rewrite (map_ext _ theme) by (intros a; unfold themeOf; now rewrite withRisk_agg).
  rewrite aggregateThemes_themes. apply todayThemeMap_NoDup.
Qed.

(** ** Headline selection *)

Lemma candidate3_In scored x : In x (candidate3 scored) -> In x scored.
Proof.
  unfold candidate3, byRiskDesc. intros H. apply In_firstn in H.
  now apply sort_desc_In in H.
Qed.

Lemma candidate3_NoDup scored :
  NoDup (map themeOf scored) -> NoDup (map themeOf (candidate3 scored)).
Proof.
  intros Hnd. unfold candidate3, byRiskDesc. rewrite <- firstn_map.
  apply NoDup_firstn.
  eapply Permutation_NoDup; [|exact Hnd].
  apply Permutation_map. symmetry. apply sort_desc_perm.
Qed.

Lemma bestLow_spec scored b :
  bestLow scored = Some b ->
  In b scored /\ risk_level b = LowImpact /\
  forall x, In x scored -> risk_level x = LowImpact ->
            risk_score x <= risk_score b.
Proof.
  unfold bestLow. intros H. apply sort_desc_head_max in H.
  destruct H as [Hin Hmax]. apply filter_In in Hin. destruct Hin as [Hin Hlow].
  repeat split; [exact Hin | |].
  - unfold isLow in Hlow. now destruct (risk_level b).
  - intros x Hx Hl. apply Hmax. apply filter_In. split; [exact Hx|].
    unfold isLow. now rewrite Hl.
Qed.

Lemma bestLow_exists scored x :
  In x scored -> risk_level x = LowImpact -> exists b, bestLow scored = Some b.
Proof.
  intros Hx Hl. unfold bestLow. apply sort_desc_nonempty.
  intros E. assert (Hin : In x (filter isLow scored)).
  { apply filter_In. split; [exact Hx|]. unfold isLow. now rewrite Hl. }
  rewrite E in Hin. exact Hin.
Qed.

Lemma isLow_true x : isLow x = true <-> risk_level x = LowImpact.
Proof. unfold isLow. destruct (risk_level x); simpl; split; congruence. Qed.

Lemma hasLowInTop3_false scored :
  hasLowInTop3 scored = false <->
  forall c, In c (candidate3 scored) -> risk_level c <> LowImpact.
Proof.
  unfold hasLowInTop3. split.
  - intros H c Hc Hl.
    assert (Ht : existsb isLow (candidate3 scored) = true).
    { apply existsb_exists. exists c. now rewrite isLow_true. }
    congruence.
  - intros H. destruct (existsb isLow (candidate3 scored)) eqn:E; [|reflexivity].
    apply existsb_exists in E. destruct E as [c [Hc Hl]].
    apply isLow_true in Hl. now destruct (H c Hc).
Qed.

Lemma candidate3_short scored :
  (List.length (candidate3 scored) < 3)%nat -> candidate3 scored = byRiskDesc scored.
Proof.
  unfold candidate3. intros H. rewrite length_firstn in H.
  apply firstn_all2. lia.
Qed.

(** The shape of [top3]: the candidates, or the first two candidates and
    the best Low Impact theme. *)
Lemma top3_cases scored :
  top3 scored = candidate3 scored \/
  exists b c0 c1 c2,
    bestLow scored = Some b /\ candidate3 scored = [c0; c1; c2] /\
    hasLowInTop3 scored = false /\ top3 scored = [c0; c1; b].
Proof.
  unfold top3. destruct (bestLow scored) as [b|]; [|now left].
  assert (Hlen : (List.length (candidate3 scored) <= 3)%nat)
    by (unfold candidate3; apply firstn_le_length).
  destruct (candidate3 scored) as [|c0 [|c1 [|c2 [|c3 r]]]] eqn:E;
    try (now left); [|simpl in Hlen; lia].
  destruct (hasLowInTop3 scored) eqn:Hh; simpl; [now left|].
  right. now exists b, c0, c1, c2.
Qed.

Lemma top3_NoDup scored :
  NoDup (map themeOf scored) -> NoDup (map themeOf (top3 scored)).
Proof.
  intros Hnd. pose proof (candidate3_NoDup scored Hnd) as Hc.
  destruct (top3_cases scored) as [->|(b & c0 & c1 & c2 & Hb & Hcand & Hh & ->)];
    [exact Hc|].
  apply bestLow_spec in Hb. destruct Hb as (Hbin & Hbl & _).
  rewrite hasLowInTop3_false in Hh. rewrite Hcand in Hc, Hh.
  assert (H0 : In c0 scored) by (apply candidate3_In; rewrite Hcand; simpl; auto).
  assert (H1 : In c1 scored) by (apply candidate3_In; rewrite Hcand; simpl; auto).
  simpl in *. inversion Hc as [|? ? Hn0 Hc']; subst.
  inversion Hc' as [|? ? Hn1 _]; subst.
  constructor; [|constructor; [|constructor; [simpl; tauto | constructor]]].
  - simpl in *. intros [E|[E|[]]]; [tauto|].
    apply (NoDup_map_inj themeOf scored b c0 Hnd Hbin H0) in E. subst b.
    apply (Hh c0); auto.
  - simpl. intros [E|[]].
    apply (NoDup_map_inj themeOf scored b c1 Hnd Hbin H1) in E. subst b.
    apply (Hh c1); auto.
Qed.

(** The candidates are the three highest risk scores: the first three of
    an arrangement of the scored themes in descending order of score. *)
Lemma candidate3_highest scored :
  exists rest,
    Permutation scored (candidate3 scored ++ rest) /\
    StronglySorted (desc risk_score) (candidate3 scored ++ rest) /\
    List.length (candidate3 scored) = Nat.min 3 (List.length scored).
Proof.
  exists (skipn 3 (byRiskDesc scored)). unfold candidate3.
  rewrite firstn_skipn. unfold byRiskDesc. repeat split.
  - symmetry. apply sort_desc_perm.
  - apply sort_desc_sorted.
  - now rewrite length_firstn, sort_desc_length.
Qed.

(** C1. The candidates of the headline selection are the three scored
    themes of highest risk score, in descending order (all of them when
    there are fewer).  The selection returns at most 3 entries; their
    theme labels are pairwise distinct whenever those of the scored
    themes are, which holds for every list the aggregator produces; a Low
    Impact theme of positive score among the scored themes puts a Low
    Impact entry into the result; when none of the three candidates is
    Low Impact, at least 3 themes exist and a Low Impact theme exists,
    the result is the two highest-scoring themes followed by the
    highest-scoring Low Impact theme, in place of the third highest; and
    in every other case the result is the candidates. *)
Theorem headline_selection :
  (forall scored : list ScoredTheme,
     (exists rest,
        Permutation scored (candidate3 scored ++ rest) /\
        StronglySorted (desc risk_score) (candidate3 scored ++ rest) /\
        List.length (candidate3 scored) = Nat.min 3 (List.length scored)) /\
     (List.length (top3 scored) <= 3)%nat /\
     (NoDup (map themeOf scored) -> NoDup (map themeOf (top3 scored))) /\
     ((exists x, In x scored /\ risk_level x = LowImpact /\ 0 < risk_score x) ->
      exists y, In y (top3 scored) /\ risk_level y = LowImpact) /\
     ((forall c, In c (candidate3 scored) -> risk_level c <> LowImpact) ->
      (3 <= List.length scored)%nat ->
      (exists x, In x scored /\ risk_level x = LowImpact) ->
      exists c0 c1 c2 b rest,
        candidate3 scored = [c0; c1; c2] /\ top3 scored = [c0; c1; b] /\
        Permutation scored (c0 :: c1 :: c2 :: rest) /\
        risk_score c1 <= risk_score c0 /\ risk_score c2 <= risk_score c1 /\
        (forall x, In x rest -> risk_score x <= risk_score c2) /\
        In b scored /\ risk_level b = LowImpact /\
        forall x, In x scored -> risk_level x = LowImpact ->
                  risk_score x <= risk_score b) /\
     ((exists c, In c (candidate3 scored) /\ risk_level c = LowImpact) \/
      (List.length scored < 3)%nat \/
      (forall x, In x scored -> risk_level x <> LowImpact) ->
      top3 scored = candidate3 scored)) /\
  (forall todayItems yesterdayItems,
     NoDup (map themeOf (top3 (aggregatedWithRisk todayItems yesterdayItems)))).
Proof.
  split.
  - intros scored. split; [apply candidate3_highest|]. repeat split.
    + assert (Hlen : (List.length (candidate3 scored) <= 3)%nat)
        by (unfold candidate3; apply firstn_le_length).
      destruct (top3_cases scored)
        as [->|(b & c0 & c1 & c2 & _ & _ & _ & ->)]; [exact Hlen | simpl; lia].
    + apply top3_NoDup.
    + intros (x & Hx & Hl & _).
      destruct (hasLowInTop3 scored) eqn:Hh.
      * unfold hasLowInTop3 in Hh. apply existsb_exists in Hh.
        destruct Hh as (c & Hc & Hcl). apply isLow_true in Hcl.
        destruct (top3_cases scored)
          as [E|(b & c0 & c1 & c2 & _ & _ & Hh' & _)].
        -- exists c. rewrite E. now split.
        -- unfold hasLowInTop3 in Hh'.
           assert (Ht : existsb isLow (candidate3 scored) = true).
           { apply existsb_exists. exists c. now rewrite isLow_true. }
           congruence.
      * destruct (top3_cases scored)
          as [E|(b & c0 & c1 & c2 & Hb & _ & _ & ->)].
        -- exfalso. destruct (bestLow_exists scored x Hx Hl) as [b Hb].
           rewrite hasLowInTop3_false in Hh.
           destruct (Nat.lt_ge_cases (List.length (candidate3 scored)) 3)
             as [Hshort|Hlong].
           ++ apply (Hh x); [|exact Hl].
              rewrite (candidate3_short scored Hshort).
              now apply sort_desc_In.
           ++ unfold top3 in E. rewrite Hb in E.
              destruct (candidate3 scored) as [|c0 [|c1 [|c2 r]]] eqn:Ec;
                simpl in Hlong; try lia.
              assert (Hh' : hasLowInTop3 scored = false).
              { rewrite hasLowInTop3_false. rewrite Ec. exact Hh. }
              rewrite Hh' in E. simpl in E.
              injection E as E1 E2. subst c2.
              apply bestLow_spec in Hb. destruct Hb as (_ & Hbl & _).
              apply (Hh b); [simpl; auto | exact Hbl].
        -- exists b. apply bestLow_spec in Hb. destruct Hb as (_ & Hbl & _).
           split; [simpl; auto | exact Hbl].
    + intros Hnone Hlen (x & Hx & Hl).
      destruct (bestLow_exists scored x Hx Hl) as [b Hb].
      assert (Hh : hasLowInTop3 scored = false)
        by (now apply hasLowInTop3_false).
      destruct (candidate3_highest scored) as (rest & Hperm & Hsort & Hl3).
      rewrite Nat.min_l in Hl3 by exact Hlen.
      destruct (candidate3 scored) as [|c0 [|c1 [|c2 [|c3 r]]]] eqn:Ec;
        simpl in Hl3; try discriminate.
      exists c0, c1, c2, b, rest. split; [reflexivity|].
      split; [unfold top3; rewrite Hb, Ec, Hh; reflexivity|].
      split; [exact Hperm|].
      cbn [app] in Hsort.
      inversion Hsort as [|? ? Hs0 H0]; subst.
      inversion Hs0 as [|? ? Hs1 H1]; subst.
      inversion Hs1 as [|? ? _ H2]; subst.
      rewrite Forall_forall in H0, H1, H2.
      split; [apply H0; now left|].
      split; [apply H1; now left|].
      split; [exact H2|].
      apply bestLow_spec in Hb. exact Hb.
    + intros Hcase.
      destruct (top3_cases scored)
        as [E|(b & c0 & c1 & c2 & Hb & Hc & Hh & _)]; [exact E|].
      exfalso. destruct Hcase as [(c & Hcin & Hcl)|[Hshort|Hnolow]].
      * rewrite hasLowInTop3_false in Hh. exact (Hh c Hcin Hcl).
      * destruct (candidate3_highest scored) as (_ & _ & _ & Hl3).
        rewrite Hc in Hl3. cbn [List.length] in Hl3. lia.
      * apply bestLow_spec in Hb. destruct Hb as (Hbin & Hbl & _).
        exact (Hnolow b Hbin Hbl).
  - intros todayItems yesterdayItems. apply top3_NoDup.
    apply aggregatedWithRisk_NoDup.
Qed.

(** ** Order of the headline candidates *)

(** C8 (as amended). The candidates are the scored themes sorted by
    risk score descending, and themes of equal risk score keep the order
    in which the aggregator listed them: no tie-break on labels. *)
Theorem byRiskDesc_sorted_stable (scored : list ScoredTheme) :
  Permutation (byRiskDesc scored) scored /\
  StronglySorted (desc risk_score) (byRiskDesc scored) /\
  forall k, filter (fun x => risk_score x =? k) (byRiskDesc scored) =
            filter (fun x => risk_score x =? k) scored.
Proof.
  unfold byRiskDesc. split; [apply sort_desc_perm|].
  split; [apply sort_desc_sorted | intros k; apply sort_desc_stable].
Qed.

(** Two themes of score 1: 'Documentation Confusion', listed first by the
    aggregator, stays before 'API Timeout Errors'. *)
Lemma byRiskDesc_ties_not_lexical :
  ~ ties_lexical (byRiskDesc (aggregatedWithRisk sample_tie [])).
Proof.
  intros H.
  remember (byRiskDesc (aggregatedWithRisk sample_tie [])) as l eqn:El.
  vm_compute in El.
  destruct l as [|a [|b r]]; try discriminate.
  injection El as Ea Eb _.
  specialize (H 0%nat 1%nat a b (Nat.lt_0_succ 0) eq_refl eq_refl).
  subst a b. vm_compute in H. specialize (H eq_refl). discriminate.
Qed.

(** The aggregator lists the scores 12, 13, 3, 26, 30; the candidates are
    30, 26 and 13, and 13 gives way to the Low Impact theme of score 3. *)
Lemma headline_selection_witness :
  exists c0 c1 c2 b,
    candidate3 (aggregatedWithRisk sample_unsorted []) = [c0; c1; c2] /\
    top3 (aggregatedWithRisk sample_unsorted []) = [c0; c1; b] /\
    map risk_score (aggregatedWithRisk sample_unsorted []) = [12; 13; 3; 26; 30] /\
    map risk_score [c0; c1; c2; b] = [30; 26; 13; 3] /\
    risk_level b = LowImpact.
Proof.
  destruct (proj1 (proj2 (proj2 (proj2 (proj2
              (proj1 headline_selection
                     (aggregatedWithRisk sample_unsorted [])))))))
    as (c0 & c1 & c2 & b & rest & Hc & Ht & _ & _ & _ & _ & _ & Hbl & _).
  - intros c Hc. vm_compute in Hc.
    destruct Hc as [<-|[<-|[<-|[]]]]; discriminate.
  - vm_compute. lia.
  - eexists. split.
    + vm_compute. right. right. left. reflexivity.
    + reflexivity.
  - exists c0, c1, c2, b.
    assert (Ec : map risk_score (candidate3 (aggregatedWithRisk sample_unsorted []))
                 = [30; 26; 13]) by (vm_compute; reflexivity).
    assert (Et : map risk_score (top3 (aggregatedWithRisk sample_unsorted []))
                 = [30; 26; 3]) by (vm_compute; reflexivity).
    rewrite Hc in Ec. rewrite Ht in Et.
    split; [exact Hc|]. split; [exact Ht|].
    split; [vm_compute; reflexivity|].
    split; [|exact Hbl].
    cbn [map] in *. injection Ec as E0 E1 E2. injection Et as _ _ E3.
    now rewrite E0, E1, E2, E3.
Defined.

(** ** The bucket resolver *)

Lemma groupByTheme_skips excludeThemes items :
  (forall r, In r items ->
     getThemeForCommentBackend (comment r) = "Other" \/
     set_has excludeThemes (getThemeForCommentBackend (comment r)) = true) ->
  groupByTheme excludeThemes items = [].
Proof.
  unfold groupByTheme. generalize (@nil (string * list FeedbackRow)) as acc.
  induction items as [|r items IH]; intros acc Hall; simpl; [reflexivity|].
  assert (Hr : (String.eqb (getThemeForCommentBackend (comment r)) "Other"
                || set_has excludeThemes
                     (getThemeForCommentBackend (comment r)))%bool = true).
  { destruct (Hall r (or_introl eq_refl)) as [H|H]; rewrite H;
      [reflexivity | apply orb_true_r]. }
  rewrite Hr. apply IH. intros r' Hr'. apply Hall. now right.
Qed.

(** C10. A non-empty bucket resolves to [null] whenever each of its
    records classifies to 'Other' or to an excluded theme; so the critical
    field, and the monitor field, of the KPI response can be [null] while
    the bucket of that sentiment holds records. *)
Theorem fallback_null_on_nonempty_bucket :
  (forall items excludeThemes preferTheme,
     (forall r, In r items ->
        getThemeForCommentBackend (comment r) = "Other" \/
        set_has excludeThemes (getThemeForCommentBackend (comment r)) = true) ->
     fallbackThemeAndCount items excludeThemes preferTheme = None) /\
  (exists items,
     filter (hasSentiment "negative") items <> [] /\
     critical (kpiThemes items) = None) /\
  (exists items,
     filter (hasSentiment "neutral") items <> [] /\
     monitor (kpiThemes items) = None).
Proof.
  split; [|split].
  - intros items excludeThemes preferTheme Hall.
    unfold fallbackThemeAndCount. destruct items as [|r items]; [reflexivity|].
    rewrite (groupByTheme_skips _ _ Hall). simpl.
    destruct preferTheme as [p|]; [destruct (truthy p)|]; reflexivity.
  - exists sample_unclassified. split; [discriminate | reflexivity].
  - exists sample_excluded_monitor. split; [discriminate | reflexivity].
Qed.

(** A bucket of one unclassified record. *)
Lemma fallback_null_on_nonempty_bucket_witness :
  sample_unclassified <> [] /\
  fallbackThemeAndCount sample_unclassified [] None = None.
Proof.
  split; [discriminate|].
  apply (proj1 fallback_null_on_nonempty_bucket).
  intros r [<-|[]]. left. reflexivity.
Defined.

(** C5 (the code at the failing input). The bucket of positive records is
    not empty, each of the three calls of the relaxation returns no issue,
    and the low field of the response is [null]: the only positive record
    has the theme the Critical bucket resolved to, which all three calls
    exclude. *)
Theorem low_bucket_null_despite_records :
  filter (hasSentiment "positive") sample_same_theme <> [] /\
  critical (kpiThemes sample_same_theme)
    = Some (mkThemeCount "Authentication / Login Issues" 1 1) /\
  getTopThemesForLowBucket (filter (hasSentiment "positive") sample_same_theme)
    ["Authentication / Login Issues"] true = [] /\
  low (kpiThemes sample_same_theme) = None.
Proof. repeat split; try discriminate; vm_compute; reflexivity. Qed.

(** ** The aggregator and yesterday's themes *)

Lemma add_keys row isToday m k :
  In k (map fst (add row isToday m)) -> In k (map fst m) \/ k = themeKey row.
Proof.
  unfold add. cbv zeta.
  assert (Hset : forall (m' : jsmap ThemeRec) v,
            In k (map fst (map_set m' (themeKey row) v)) ->
            In k (map fst m') \/ k = themeKey row).
  { intros m' v. rewrite map_set_keys. destruct (map_has m' (themeKey row)).
    - now left.
    - rewrite in_app_iff. simpl. intuition. }
  destruct (map_has m (themeKey row));
    match goal with |- context [map_get ?x ?q] => destruct (map_get x q) end;
    destruct isToday; intros H; auto;
    repeat (apply Hset in H; destruct H as [H|H]; auto).
Qed.

Lemma todayThemeMap_keys todayItems k :
  In k (map fst (todayThemeMap todayItems)) ->
  exists r, In r todayItems /\ themeKey r = k.
Proof.
  unfold todayThemeMap.
  assert (H : forall m,
            In k (map fst (fold_left (fun m r => add r true m) todayItems m)) ->
            In k (map fst m) \/ exists r, In r todayItems /\ themeKey r = k).
  { induction todayItems as [|r l IH]; intros m Hk; simpl in *; [now left|].
    apply IH in Hk. destruct Hk as [Hk|(r' & Hr' & Hk)].
    - apply add_keys in Hk. destruct Hk as [Hk|Hk]; [now left|].
      right. exists r. split; [now left | now symmetry].
    - right. exists r'. split; [now right | exact Hk]. }
  intros Hk. apply H in Hk. destruct Hk as [[]|Hk]. exact Hk.
Qed.

(** C7 (the code at the failing input). Every aggregate is of a theme of
    one of today's records, whatever yesterday's records are; three
    records of yesterday and none of today give no aggregate at all. *)
Theorem aggregateThemes_today_only :
  (forall todayItems yesterdayItems a,
     In a (aggregateThemes todayItems yesterdayItems) ->
     exists r, In r todayItems /\ themeKey r = theme a) /\
  map themeKey sample_yesterday_only
    = ["API Timeout Errors"; "API Timeout Errors"; "API Timeout Errors"] /\
  aggregateThemes [] sample_yesterday_only = [].
Proof.
  split; [|split; reflexivity].
  intros todayItems yesterdayItems a Ha.
  apply todayThemeMap_keys. rewrite <- (aggregateThemes_themes _ yesterdayItems).
  now apply in_map.
Qed.

(** ** The three keyword rulesets *)

(** 'password reset' matches the password-reset pattern, and the keyword
    table of [toAbstractLabel] answers 'Authentication / Login Issues'. *)
Lemma password_reset_not_first_everywhere : ~ password_reset_first_everywhere.
Proof.
  intros H. destruct (H "password reset" eq_refl) as (_ & _ & H3).
  vm_compute in H3. discriminate.
Qed.

Lemma keyword_theme_in_range rules lower t :
  keyword_theme_in rules lower = Some t -> In t (map snd rules).
Proof.
  induction rules as [|[kws th] rules IH]; simpl; [discriminate|].
  destruct (existsb _ kws); [intros [= <-]; now left | right; auto].
Qed.

(** C4 (as amended). In the oracle-label canonicalizer the
    password-reset rule is the first one: a label whose lower-cased text
    matches a password-reset pattern becomes 'Password Reset Issues'.
    The keyword table of [toAbstractLabel] has no password-reset theme:
    it never answers 'Password Reset Issues', and a text that contains
    'password' gets 'Authentication / Login Issues'. *)
Theorem password_reset_first_in_canonicalizer :
  (forall aiLabel,
     test_words RE_PASSWORD_RESET (toLowerCase aiLabel) = true ->
     normalizeToCanonicalCluster aiLabel = PASSWORD_RESET) /\
  (forall lower, keyword_theme lower <> Some PASSWORD_RESET) /\
  (forall lower,
     includes lower "password" = true ->
     keyword_theme lower = Some "Authentication / Login Issues").
Proof.
  split; [|split].
  - intros aiLabel H. unfold normalizeToCanonicalCluster. cbv zeta.
    rewrite H. reflexivity.
  - intros lower H. apply keyword_theme_in_range in H.
    vm_compute in H. repeat (destruct H as [H|H]; [discriminate|]). exact H.
  - intros lower H. unfold keyword_theme, KEYWORD_TO_THEME.
    unfold keyword_theme_in at 1.
    cbn [existsb]. rewrite H.
    rewrite !orb_true_r. reflexivity.
Qed.

(** The label 'Forgot Password' in the canonicalizer and in the keyword
    table. *)
Lemma password_reset_first_in_canonicalizer_witness :
  normalizeToCanonicalCluster "Forgot Password" = PASSWORD_RESET /\
  keyword_theme "forgot password" = Some "Authentication / Login Issues".
Proof.
  split.
  - apply (proj1 password_reset_first_in_canonicalizer). reflexivity.
  - apply (proj2 (proj2 password_reset_first_in_canonicalizer)). reflexivity.
Defined.

(** ** The oracle is no hard dependency *)

Lemma fallback_nil excludeThemes preferTheme :
  fallbackThemeAndCount [] excludeThemes preferTheme = None.
Proof. reflexivity. Qed.

Lemma try_catch_returns {A : Type} (body : outcome A) (a : A) :
  exists v, try_catch body (Returned a) = Returned v.
Proof. destruct body as [v|msg]; simpl; eauto. Qed.

(** C6. [generateThemeWithCount] never throws; and when the oracle call
    throws, its output does not parse, the issue label is missing or
    empty, the list of matching indices is empty, the processed label has
    more than 5 words, the canonical cluster is excluded, or the cluster's
    count is below the minimum share of the bucket, it returns what
    [fallbackThemeAndCount] returns for the same items, exclusions and
    preference. *)
Theorem oracle_failure_falls_back
    (JSON_parse AI_run : string -> outcome json)
    (items : list FeedbackRow) (excludeThemes : list string)
    (preferTheme : option string) :
  (exists v,
     generateThemeWithCount JSON_parse AI_run items excludeThemes preferTheme
     = Returned v) /\
  (oracle_rejected JSON_parse AI_run items excludeThemes ->
   generateThemeWithCount JSON_parse AI_run items excludeThemes preferTheme
   = Returned (fallbackThemeAndCount items excludeThemes preferTheme)).
Proof.
  split.
  - unfold generateThemeWithCount. destruct items as [|r items]; [eauto|].
    apply try_catch_returns.
  - unfold generateThemeWithCount, oracle_rejected.
    destruct items as [|r0 items0]; [reflexivity|].
    set (items := r0 :: items0).
    unfold generateThemeBody. cbv zeta.
    destruct (AI_run (themePrompt items)) as [result|msg]; [|reflexivity].
    cbn [bind].
    destruct (parseAiJson JSON_parse (answerText result (JStr EmptyString)))
      as [parsed|msg]; [|reflexivity].
    cbn [bind].
    destruct (rawLabelOf parsed) as [rawLabel|]; [|reflexivity].
    destruct (indicesOf parsed) as [|i0 idx]; [reflexivity|].
    intros [H|[H|[H|[H|H]]]].
    + subst rawLabel. reflexivity.
    + discriminate.
    + destruct (truthy rawLabel); [|reflexivity]. cbn [negb try_catch].
      apply Z.ltb_lt in H. rewrite H. reflexivity.
    + destruct (truthy rawLabel); [|reflexivity]. cbn [negb].
      destruct (5 <? split_count (postProcessThemeLabel rawLabel));
        [reflexivity|].
      rewrite H. reflexivity.
    + destruct (truthy rawLabel); [|reflexivity]. cbn [negb].
      destruct (5 <? split_count (postProcessThemeLabel rawLabel));
        [reflexivity|].
      destruct (set_has excludeThemes _); [reflexivity|].
      destruct (countForCluster items _) as [cnt ent]. cbn [fst] in H.
      rewrite H. reflexivity.
Qed.

(** An answer with a label and an empty list of indices. *)
Lemma oracle_failure_falls_back_witness :
  oracle_rejected JSON_parse_sample sample_oracle sample_five_today [] /\
  generateThemeWithCount JSON_parse_sample sample_oracle sample_five_today [] None
  = Returned (fallbackThemeAndCount sample_five_today [] None).
Proof.
  assert (H : oracle_rejected JSON_parse_sample sample_oracle sample_five_today [])
    by (vm_compute; right; left; reflexivity).
  split; [exact H|].
  exact (proj2 (oracle_failure_falls_back JSON_parse_sample sample_oracle
                  sample_five_today [] None) H).
Defined.

(** ** The summary route and its cache cells *)

(** C9 (the code at the failing input). The [/api/summary] route never
    writes the cache cells and its response does not depend on them; a
    second request right after the first, with one more record stored,
    gets a summary computed anew, different from the first, and
    [cachedSummary] is still empty. *)
Theorem summary_route_never_caches :
  (forall JSON_parse JSON_stringify st env,
     snd (api_summary JSON_parse JSON_stringify st env) = st) /\
  (forall JSON_parse JSON_stringify st st' env,
     fst (api_summary JSON_parse JSON_stringify st env)
     = fst (api_summary JSON_parse JSON_stringify st' env)) /\
  (let first :=
     api_summary JSON_parse_sample (fun _ => Returned JNull) initialCaches
                 sample_request_1 in
   let second :=
     api_summary JSON_parse_sample (fun _ => Returned JNull) (snd first)
                 sample_request_2 in
   status (fst first) = 200 /\ status (fst second) = 200 /\
   fst second <> fst first /\ cachedSummary (snd second) = None).
Proof.
  split; [|split].
  - intros P S st [db ai]. unfold api_summary. simpl.
    destruct db as [[[|r l]|msg]|], ai as [run|]; try reflexivity.
    destruct (run _) as [aiResult|msg]; [|reflexivity].
    destruct (summaryText S aiResult) as [text|msg]; [|reflexivity].
    destruct (try_catch _ _); reflexivity.
  - intros P S st st' [db ai]. unfold api_summary. simpl.
    destruct db as [[[|r l]|msg]|], ai as [run|]; try reflexivity.
    destruct (run _) as [aiResult|msg]; [|reflexivity].
    destruct (summaryText S aiResult) as [text|msg]; [|reflexivity].
    destruct (try_catch _ _); reflexivity.
  - cbv zeta. repeat split; try (vm_compute; reflexivity).
    vm_compute. intros H. discriminate H.
Qed.

(** ** Binary64: digits, shifts and rounding *)

Lemma digits2_pos_size p : digits2_pos p = Pos.size p.
Proof. induction p; simpl; congruence. Qed.

Lemma Zdigits2_pos p : Zdigits2 (Zpos p) = Zpos (Pos.size p).
Proof. unfold Zdigits2. now rewrite digits2_pos_size. Qed.

Lemma Zdigits2_bounds p :
  2 ^ (Zdigits2 (Zpos p) - 1) <= Zpos p < 2 ^ Zdigits2 (Zpos p).
Proof.
  rewrite Zdigits2_pos.
  pose proof (Pos.size_gt p) as Hgt. pose proof (Pos.size_le p) as Hle.
  split.
  - assert (H : 2 ^ Zpos (Pos.size p) <= 2 * Zpos p).
    { change (2 * Zpos p) with (Zpos p~0). rewrite <- Pos2Z.inj_pow.
      apply Pos2Z.pos_le_pos. exact Hle. }
    replace (Zpos (Pos.size p)) with (Z.succ (Zpos (Pos.size p) - 1)) in H by lia.
    rewrite Z.pow_succ_r in H by lia. lia.
  - rewrite <- Pos2Z.inj_pow. apply Pos2Z.pos_lt_pos. exact Hgt.
Qed.

(** A mantissa below [2 ^ d] has at most [d] digits. *)
Lemma Zdigits2_le m d : 0 <= m < 2 ^ d -> 0 <= d -> Zdigits2 m <= d.
Proof.
  intros [H0 Hm] Hd. destruct m as [|p|p]; [simpl; lia | | lia].
  pose proof (Zdigits2_bounds p) as [Hlo _].
  destruct (Z.le_gt_cases (Zdigits2 (Zpos p)) d) as [|Hgt]; [assumption|].
  exfalso. assert (2 ^ d <= 2 ^ (Zdigits2 (Zpos p) - 1))
    by (apply Z.pow_le_mono_r; lia). lia.
Qed.

Lemma Zdigits2_nonneg m : 0 <= Zdigits2 m.
Proof. destruct m; simpl; lia. Qed.

(** *** Shifting a mantissa to the right *)


Lemma shr_1_m mrs : 0 <= shr_m mrs -> shr_m (shr_1 mrs) = shr_m mrs / 2.
Proof.
  destruct mrs as [m r s]. simpl. intros Hm.
  destruct m as [|[p|p|]|p]; simpl; try reflexivity; try lia.
  - change (Zpos p~1) with (2 * Zpos p + 1).
    apply Z.div_unique with 1; lia.
  - change (Zpos p~0) with (2 * Zpos p).
    apply Z.div_unique with 0; lia.
Qed.

Lemma shr_1_ceil mrs :
  0 <= shr_m mrs -> ceil_m (shr_1 mrs) = (ceil_m mrs + 1) / 2.
Proof.
  destruct mrs as [m r s]. unfold ceil_m. simpl. intros Hm.
  destruct m as [|[p|p|]|p]; simpl shr_m; simpl shr_r; simpl shr_s; try lia.
  - destruct (r || s)%bool; reflexivity.
  - change (Zpos p~1) with (2 * Zpos p + 1).
    destruct (r || s)%bool; simpl.
    + apply Z.div_unique with 1; lia.
    + apply Z.div_unique with 0; lia.
  - change (Zpos p~0) with (2 * Zpos p).
    destruct (r || s)%bool; simpl.
    + apply Z.div_unique with 0; lia.
    + apply Z.div_unique with 1; lia.
  - destruct (r || s)%bool; reflexivity.
Qed.


Lemma shifted_0 mrs : 0 <= shr_m mrs -> shifted mrs 0 mrs.
Proof. intros H. repeat split; simpl; intros; lia. Qed.

Lemma shifted_step mrs0 n mrs :
  shifted mrs0 n mrs -> shifted mrs0 (S n) (shr_1 mrs).
Proof.
  intros (Hm & Hle & Hc). unfold shifted.
  rewrite Nat2Z.inj_succ, Z.pow_succ_r by lia.
  assert (Hp : 0 < 2 ^ Z.of_nat n) by (apply Z.pow_pos_nonneg; lia).
  rewrite shr_1_m, shr_1_ceil by assumption.
  repeat split.
  - apply Z.div_pos; lia.
  - pose proof (Z.mul_div_le (shr_m mrs) 2 ltac:(lia)). nia.
  - intros K HK. specialize (Hc (2 * K) ltac:(lia)).
    apply Z.lt_succ_r. apply Z.div_lt_upper_bound; lia.
Qed.

Lemma iter_pos_shifted mrs0 p : forall n mrs,
  shifted mrs0 n mrs ->
  shifted mrs0 (n + Pos.to_nat p) (iter_pos shr_1 p mrs).
Proof.
  induction p as [p IH|p IH|]; intros n mrs H; simpl iter_pos.
  - replace (n + Pos.to_nat p~1)%nat
      with (S n + Pos.to_nat p + Pos.to_nat p)%nat
      by (rewrite Pos2Nat.inj_xI; lia).
    apply IH, IH. now apply shifted_step.
  - replace (n + Pos.to_nat p~0)%nat
      with (n + Pos.to_nat p + Pos.to_nat p)%nat
      by (rewrite Pos2Nat.inj_xO; lia).
    now apply IH, IH.
  - replace (n + Pos.to_nat 1)%nat with (S n) by (simpl; lia).
    now apply shifted_step.
Qed.

Lemma ceil_of_loc m l :
  ceil_m (shr_record_of_loc m l) =
  m + match l with loc_Exact => 0 | loc_Inexact _ => 1 end.
Proof. destruct l as [|[| |]]; reflexivity. Qed.

Lemma shr_m_of_loc m l : shr_m (shr_record_of_loc m l) = m.
Proof. destruct l as [|[| |]]; reflexivity. Qed.

Lemma round_le_ceil mrs :
  shr_m mrs <= round_nearest_even (shr_m mrs) (loc_of_shr_record mrs) <= ceil_m mrs.
Proof.
  destruct mrs as [m [|] [|]]; unfold ceil_m; simpl; try lia.
  destruct (Z.even m); lia.
Qed.

(** *** Rounding stays below a representable bound *)


Lemma fexp_le m e kB eB :
  0 <= m -> e <= eB -> -1074 <= eB -> 0 < kB < 2 ^ 53 ->
  m <= kB * 2 ^ (eB - e) ->
  fexp prec emax (Zdigits2 m + e) <= eB.
Proof.
  intros Hm He HeB HkB Hle.
  assert (Hp : 0 < 2 ^ (eB - e)) by (apply Z.pow_pos_nonneg; lia).
  assert (Hd : Zdigits2 m <= 53 + (eB - e)).
  { apply Zdigits2_le; [|lia]. split; [exact Hm|].
    rewrite Z.pow_add_r by lia. nia. }
  unfold fexp, emin, prec, emax. lia.
Qed.

Lemma shr_fexp_bound m e l kB eB :
  0 <= m -> e <= eB -> -1074 <= eB -> 0 < kB < 2 ^ 53 ->
  ceil_m (shr_record_of_loc m l) <= kB * 2 ^ (eB - e) ->
  let '(mrs, e') := shr_fexp prec emax m e l in
  0 <= shr_m mrs /\ e <= e' <= eB /\
  ceil_m mrs <= kB * 2 ^ (eB - e') /\
  shr_m mrs * 2 ^ (e' - e) <= m.
Proof.
  intros Hm He HeB HkB Hc.
  assert (Hle : m <= kB * 2 ^ (eB - e)).
  { rewrite ceil_of_loc in Hc. destruct l; lia. }
  pose proof (fexp_le m e kB eB Hm He HeB HkB Hle) as Hf.
  unfold shr_fexp, shr.
  destruct (fexp prec emax (Zdigits2 m + e) - e) as [|p|p] eqn:En.
  - rewrite shr_m_of_loc, Z.sub_diag. simpl. repeat split; lia.
  - pose proof (iter_pos_shifted (shr_record_of_loc m l) p 0
                  (shr_record_of_loc m l)
                  (shifted_0 _ ltac:(rewrite shr_m_of_loc; exact Hm)))
      as (H0 & H1 & H2).
    simpl Nat.add in *. rewrite positive_nat_Z in *.
    rewrite shr_m_of_loc in H1.
    replace (e + Zpos p - e) with (Zpos p) by lia.
    repeat split; try lia.
    apply H2.
    replace (eB - e) with ((eB - (e + Zpos p)) + Zpos p) in Hc by lia.
    rewrite Z.pow_add_r in Hc by lia. lia.
  - rewrite shr_m_of_loc, Z.sub_diag. simpl. repeat split; lia.
Qed.

(** Rounding a positive value that is at most [kB * 2 ^ eB], given by a
    mantissa, its exponent and what was cut off, gives a number that is
    at most [kB * 2 ^ eB]. *)
Lemma binary_round_aux_below m e l kB eB :
  0 <= m -> e <= eB -> -1074 <= eB <= 971 -> 0 < kB < 2 ^ 53 ->
  ceil_m (shr_record_of_loc m l) <= kB * 2 ^ (eB - e) ->
  below kB eB (binary_round_aux prec emax false m e l).
Proof.
  intros Hm He HeB HkB Hc. unfold binary_round_aux.
  pose proof (shr_fexp_bound m e l kB eB Hm He ltac:(lia) HkB Hc) as H1.
  destruct (shr_fexp prec emax m e l) as [mrs1 e1].
  destruct H1 as (H1m & H1e & H1c & _).
  pose proof (round_le_ceil mrs1) as Hr.
  set (mr := round_nearest_even (shr_m mrs1) (loc_of_shr_record mrs1)) in *.
  pose proof (shr_fexp_bound mr e1 loc_Exact kB eB ltac:(lia) ltac:(lia)
                ltac:(lia) HkB
                ltac:(rewrite ceil_of_loc; lia)) as H2.
  destruct (shr_fexp prec emax mr e1 loc_Exact) as [mrs2 e2].
  destruct H2 as (H2m & H2e & H2c & H2v).
  destruct (shr_m mrs2) as [|p|p] eqn:Em; [exact I| |lia].
  assert (Hleb : (e2 <=? emax - prec) = true)
    by (apply Z.leb_le; unfold emax, prec; lia).
  rewrite Hleb. simpl. split; [lia|].
  unfold ceil_m in H2c. rewrite Em in H2c.
  destruct (shr_r mrs2 || shr_s mrs2)%bool; lia.
Qed.

(** *** The Number of a count *)

Lemma iter_xO_value p k : Zpos (Pos.iter xO p k) = Zpos p * 2 ^ Zpos k.
Proof.
  induction k as [|k IH] using Pos.peano_ind.
  - simpl. lia.
  - rewrite Pos.iter_succ, Pos2Z.inj_succ, Z.pow_succ_r by lia.
    change (Zpos (Pos.iter xO p k)~0) with (2 * Zpos (Pos.iter xO p k)).
    rewrite IH. lia.
Qed.

Lemma iter_xO_digits p k :
  Zdigits2 (Zpos (Pos.iter xO p k)) = Zdigits2 (Zpos p) + Zpos k.
Proof.
  induction k as [|k IH] using Pos.peano_ind.
  - simpl. lia.
  - rewrite Pos.iter_succ, Pos2Z.inj_succ.
    change (Zdigits2 (Zpos (Pos.iter xO p k)~0))
      with (Zpos (Pos.succ (digits2_pos (Pos.iter xO p k)))).
    rewrite Pos2Z.inj_succ.
    change (Zpos (digits2_pos (Pos.iter xO p k)))
      with (Zdigits2 (Zpos (Pos.iter xO p k))).
    rewrite IH. lia.
Qed.

Lemma binary_round_aux_exact mz ez :
  Zdigits2 (Zpos mz) = 53 -> -1074 <= ez <= 971 ->
  binary_round_aux prec emax false (Zpos mz) ez loc_Exact
  = S754_finite false mz ez.
Proof.
  intros Hd He. unfold binary_round_aux, shr_fexp.
  assert (Hf : fexp prec emax (Zdigits2 (Zpos mz) + ez) - ez = 0).
  { rewrite Hd. unfold fexp, emin, prec, emax. lia. }
  rewrite Hf. simpl shr. cbn [shr_m loc_of_shr_record round_nearest_even].
  rewrite Hf. simpl shr. cbn [shr_m].
  assert (Hleb : (ez <=? emax - prec) = true)
    by (apply Z.leb_le; unfold emax, prec; lia).
  now rewrite Hleb.
Qed.

(** The Number of a positive count below [2 ^ 53] is that count: a
    mantissa of 53 digits and the exponent that goes with it. *)
Lemma js_of_Z_exact n :
  0 < n < 2 ^ 53 ->
  exists mx ex,
    js_of_Z n = S754_finite false mx ex /\
    ex = Zdigits2 n - 53 /\ ex <= 0 /\
    Zpos mx = n * 2 ^ (- ex) /\ Zdigits2 (Zpos mx) = 53.
Proof.
  intros [Hn0 Hn]. destruct n as [|p|p]; try lia.
  assert (Hd : 1 <= Zdigits2 (Zpos p) <= 53).
  { split; [simpl; lia | apply Zdigits2_le; lia]. }
  unfold js_of_Z, binary_normalize, binary_round.
  change (Zpos (digits2_pos p)) with (Zdigits2 (Zpos p)).
  assert (Hf : fexp prec emax (Zdigits2 (Zpos p) + 0) = Zdigits2 (Zpos p) - 53).
  { unfold fexp, emin, prec, emax. lia. }
  rewrite Hf. unfold shl_align.
  destruct (Zdigits2 (Zpos p) - 53 - 0) as [|k|k] eqn:Ek; try lia.
  - exists p, 0. rewrite binary_round_aux_exact by lia.
    repeat split; try lia.
  - exists (Pos.iter xO p k), (Zdigits2 (Zpos p) - 53).
    assert (Hdk : Zdigits2 (Zpos (Pos.iter xO p k)) = 53)
      by (rewrite iter_xO_digits; lia).
    rewrite binary_round_aux_exact by lia.
    repeat split; try lia.
    rewrite iter_xO_value. f_equal. f_equal. lia.
Qed.

Lemma Zdigits2_mono a b : 0 < a <= b -> Zdigits2 a <= Zdigits2 b.
Proof.
  intros [Ha Hab]. destruct b as [|q|q]; try lia.
  apply Zdigits2_le; [|apply Zdigits2_nonneg].
  pose proof (Zdigits2_bounds q). lia.
Qed.

Lemma new_location_cases nb k :
  new_location nb k = loc_Exact /\ k = 0 \/
  (exists c, new_location nb k = loc_Inexact c) /\ k <> 0.
Proof.
  unfold new_location, new_location_even, new_location_odd.
  destruct (Z.even nb); destruct (Z.eqb_spec k 0); eauto.
Qed.

(** *** The quotient of two counts, times 100, rounded *)

Lemma js_div_below_one a b :
  0 < a <= b -> b < 2 ^ 53 ->
  below (2 ^ 52) (-52) (js_div (js_of_Z a) (js_of_Z b)).
Proof.
  intros [Ha Hab] Hb.
  destruct (js_of_Z_exact a ltac:(lia)) as (mx & ex & -> & Hex & Hex0 & Hmx & Hdx).
  destruct (js_of_Z_exact b ltac:(lia)) as (my & ey & -> & Hey & Hey0 & Hmy & Hdy).
  assert (Hxy : ex <= ey).
  { pose proof (Zdigits2_mono a b ltac:(lia)). lia. }
  unfold js_div, SFdiv, SFdiv_core_binary. rewrite Hdx, Hdy.
  set (e' := Z.min (fexp prec emax (53 + ex - (53 + ey))) (ex - ey)).
  assert (Hda : 1 <= Zdigits2 a) by (destruct a; simpl; lia).
  assert (He' : e' <= -52 /\ -1074 <= e' /\ e' <= ex - ey).
  { unfold e', fexp, emin, prec, emax. lia. }
  set (s := ex - ey - e').
  assert (Hs : 0 <= s) by (unfold s; lia).
  set (m' := match s with
             | 0 => Zpos mx
             | Zpos _ => Z.shiftl (Zpos mx) s
             | Zneg _ => 0
             end).
  assert (Hm' : m' = Zpos mx * 2 ^ s).
  { unfold m'. destruct s as [|p|p] eqn:Es; try lia.
    now rewrite Z.shiftl_mul_pow2 by lia. }
  pose proof (Z.div_eucl_eq m' (Zpos my) ltac:(lia)) as Heq.
  pose proof (Z.mod_pos_bound m' (Zpos my) ltac:(lia)) as Hr.
  unfold Z.modulo, Z.div in *.
  destruct (Z.div_eucl m' (Zpos my)) as [q r]. cbn [fst snd] in Heq, Hr.
  simpl xorb.
  assert (HT : 0 < 2 ^ (- e')) by (apply Z.pow_pos_nonneg; lia).
  assert (Hbound : m' <= Zpos my * 2 ^ (- e')).
  { rewrite Hm', Hmx, Hmy. unfold s.
    rewrite <- !Z.mul_assoc, <- !Z.pow_add_r by lia.
    replace (- ex + (ex - ey - e')) with (- ey + - e') by lia.
    apply Z.mul_le_mono_nonneg_r; [apply Z.pow_nonneg; lia | lia]. }
  assert (Hq : 0 <= q) by nia.
  apply binary_round_aux_below; try lia.
  rewrite ceil_of_loc.
  replace (2 ^ 52 * 2 ^ (-52 - e')) with (2 ^ (- e'))
    by (rewrite <- Z.pow_add_r by lia; f_equal; lia).
  destruct (new_location_cases (Zpos my) r) as [[-> Hr0]|[[c ->] Hr0]]; nia.
Qed.

Lemma js_mul_below_100 x :
  below (2 ^ 52) (-52) x ->
  below (100 * 2 ^ 46) (-46) (js_mul x (js_of_Z 100)).
Proof.
  change (js_of_Z 100) with (S754_finite false 7036874417766400 (-46)).
  destruct x as [[|]|[|]| |[|] m e]; intros H;
    try (exact (False_ind _ H)); [exact I|].
  destruct H as [He Hm]. unfold js_mul, SFmul. cbn [xorb].
  apply binary_round_aux_below; try lia.
  rewrite ceil_of_loc.
  assert (HT : 0 < 2 ^ (- e)) by (apply Z.pow_pos_nonneg; lia).
  replace (2 ^ 52 * 2 ^ (-52 - e)) with (2 ^ (- e)) in Hm
    by (rewrite <- Z.pow_add_r by lia; f_equal; lia).
  replace (-46 - (e + -46)) with (- e) by lia.
  rewrite Pos2Z.inj_mul.
  change (Zpos 7036874417766400) with (100 * 2 ^ 46). nia.
Qed.

Lemma Math_round_below_100 x :
  below (100 * 2 ^ 46) (-46) x ->
  exists k, Math_round x = js_of_Z k /\ 0 <= k <= 100.
Proof.
  destruct x as [[|]|[|]| |[|] m e]; intros H;
    try (exact (False_ind _ H)).
  - exists 0. split; [reflexivity | lia].
  - destruct H as [He Hm]. unfold Math_round.
    assert (H0 : (0 <=? e) = false) by (apply Z.leb_gt; lia).
    rewrite H0. cbn [cond_Zopp].
    assert (HT : 0 < 2 ^ (- e)) by (apply Z.pow_pos_nonneg; lia).
    replace (100 * 2 ^ 46 * 2 ^ (-46 - e)) with (100 * 2 ^ (- e)) in Hm
      by (rewrite <- Z.mul_assoc, <- Z.pow_add_r by lia; do 2 f_equal; lia).
    replace (1 - e) with (Z.succ (- e)) by lia.
    rewrite Z.pow_succ_r by lia.
    set (r := (2 * Zpos m + 2 ^ (- e)) / (2 * 2 ^ (- e))).
    assert (Hr : 0 <= r <= 100).
    { unfold r. split.
      - apply Z.div_pos; lia.
      - apply Z.lt_succ_r. apply Z.div_lt_upper_bound; lia. }
    destruct (Z.eqb_spec r 0) as [E|E].
    + exists 0. split; [reflexivity | lia].
    + exists r. split; [reflexivity | lia].
Qed.

(** [Math.round((n / t) * 100)] is an integer between 0 and 100 when
    [0 <= n <= t] and [t] is a positive count. *)
Lemma percent_range n t :
  0 <= n <= t -> 0 < t < 2 ^ 53 ->
  exists k, percent n t = js_of_Z k /\ 0 <= k <= 100.
Proof.
  intros [Hn Hnt] Ht. unfold percent.
  apply Math_round_below_100, js_mul_below_100.
  destruct (Z.eq_dec n 0) as [->|Hn0].
  - destruct (js_of_Z_exact t Ht) as (my & ey & -> & _). exact I.
  - apply js_div_below_one; lia.
Qed.

(** ** Invariants of the aggregates *)

Lemma rec_ok_mono n n' rec : n <= n' -> rec_ok n rec -> rec_ok n' rec.
Proof. unfold rec_ok. intros Hn (H1 & H2 & H3). repeat split; lia. Qed.

Lemma bump_ok row n rec : rec_ok n rec -> rec_ok (n + 1) (bump row rec).
Proof.
  unfold rec_ok, bump. intros (H1 & H2 & H3). simpl.
  destruct (isEnterprise row), (isNegative row); repeat split; lia.
Qed.

Lemma add_ok row n m :
  0 <= n ->
  Forall (fun e => rec_ok n (snd e)) m ->
  Forall (fun e => rec_ok (n + 1) (snd e)) (add row true m).
Proof.
  intros Hn Hm.
  assert (Hm' : Forall (fun e => rec_ok (n + 1) (snd e)) m).
  { eapply Forall_impl; [|exact Hm]. intros e. apply rec_ok_mono. lia. }
  assert (Hz : rec_ok n (mkRec 0 0 0 0)) by (unfold rec_ok; simpl; lia).
  unfold add. cbv zeta.
  destruct (map_has m (themeKey row)).
  - destruct (map_get m (themeKey row)) as [rec|] eqn:Eg; [|exact Hm'].
    apply (map_set_Forall (rec_ok (n + 1))); [exact Hm'|].
    apply bump_ok. exact (map_get_Forall (rec_ok n) _ _ _ Hm Eg).
  - rewrite map_get_set_same.
    apply (map_set_Forall (rec_ok (n + 1))).
    + apply (map_set_Forall (rec_ok (n + 1))); [exact Hm'|].
      apply (rec_ok_mono n); [lia | exact Hz].
    + now apply bump_ok.
Qed.

Lemma todayThemeMap_ok todayItems :
  Forall (fun e => rec_ok (count_of todayItems) (snd e))
         (todayThemeMap todayItems).
Proof.
  unfold todayThemeMap, count_of.
  assert (H : forall m n, 0 <= n ->
            Forall (fun e => rec_ok n (snd e)) m ->
            Forall (fun e => rec_ok (n + Z.of_nat (List.length todayItems)) (snd e))
                   (fold_left (fun m r => add r true m) todayItems m)).
  { induction todayItems as [|r l IH]; intros m n Hn Hm.
    - simpl. now rewrite Z.add_0_r.
    - cbn [fold_left List.length]. rewrite Nat2Z.inj_succ.
      replace (n + Z.succ (Z.of_nat (List.length l)))
        with ((n + 1) + Z.of_nat (List.length l)) by lia.
      apply IH; [lia | now apply add_ok]. }
  apply (H [] 0); [lia | constructor].
Qed.

Lemma aggregateThemes_In todayItems yesterdayItems a :
  In a (aggregateThemes todayItems yesterdayItems) ->
  exists th rec,
    In (th, rec) (todayThemeMap todayItems) /\
    a = toAggregate (yesterdayCounts yesterdayItems) (th, rec).
Proof.
  unfold aggregateThemes. intros H. apply in_map_iff in H.
  destruct H as ([th rec] & <- & Hin). now exists th, rec.
Qed.

(** The Numbers of the integers from 0 to 100 compare as the integers do. *)
Lemma js_of_Z_between k :
  0 <= k <= 100 ->
  js_ge (js_of_Z k) (js_of_Z 0) = true /\
  js_ge (js_of_Z 100) (js_of_Z k) = true.
Proof.
  intros Hk.
  pose (f := fun k => (js_ge (js_of_Z k) (js_of_Z 0)
                       && js_ge (js_of_Z 100) (js_of_Z k))%bool).
  assert (Hall : forallb f (map Z.of_nat (seq 0 101)) = true)
    by (vm_compute; reflexivity).
  rewrite forallb_forall in Hall. specialize (Hall k).
  apply andb_true_iff. apply Hall.
  apply in_map_iff. exists (Z.to_nat k). split; [lia|].
  apply in_seq. lia.
Qed.

(** C2. In every aggregate the enterprise and the self-serve mentions add
    up to the total mentions, and (for a number of today's records that a
    Number holds exactly, as every array length is) percent_negative is
    the Number of an integer between 0 and 100: it compares as at least 0
    and at most 100. *)
Theorem aggregate_invariants todayItems yesterdayItems a :
  In a (aggregateThemes todayItems yesterdayItems) ->
  enterprise_mentions a + self_serve_mentions a = total_mentions a /\
  (count_of todayItems < 2 ^ 53 ->
   (exists k, percent_negative a = js_of_Z k /\ 0 <= k <= 100) /\
   js_ge (percent_negative a) (js_of_Z 0) = true /\
   js_ge (js_of_Z 100) (percent_negative a) = true).
Proof.
  intros Ha. apply aggregateThemes_In in Ha.
  destruct Ha as (th & rec & Hin & ->).
  pose proof (todayThemeMap_ok todayItems) as Hok.
  rewrite Forall_forall in Hok. specialize (Hok _ Hin).
  destruct Hok as (H1 & H2 & H3). cbn [snd] in *.
  unfold toAggregate. cbn [enterprise_mentions self_serve_mentions
                            total_mentions percent_negative].
  split; [exact H1|].
  intros Hlen.
  assert (Hk : exists k,
            (if 0 <? total rec then percent (negative rec) (total rec)
             else js_of_Z 0) = js_of_Z k /\ 0 <= k <= 100).
  { destruct (Z.ltb_spec 0 (total rec)) as [Ht|Ht].
    - apply percent_range; lia.
    - exists 0. split; [reflexivity | lia]. }
  split; [exact Hk|].
  destruct Hk as (k & -> & Hk). now apply js_of_Z_between.
Qed.

(** The first aggregate of the sample of four themes. *)
Lemma aggregate_invariants_witness :
  exists a,
    In a (aggregateThemes sample_four_themes []) /\
    enterprise_mentions a + self_serve_mentions a = total_mentions a /\
    (exists k, percent_negative a = js_of_Z k /\ 0 <= k <= 100) /\
    js_ge (percent_negative a) (js_of_Z 0) = true /\
    js_ge (js_of_Z 100) (percent_negative a) = true.
Proof.
  exists (mkAgg "Authentication / Login Issues" 7 7 0 (js_of_Z 100) 0
                (js_of_Z 100)).
  assert (Hin : In (mkAgg "Authentication / Login Issues" 7 7 0 (js_of_Z 100)
                          0 (js_of_Z 100))
                   (aggregateThemes sample_four_themes []))
    by (vm_compute; left; reflexivity).
  split; [exact Hin|].
  destruct (aggregate_invariants sample_four_themes [] _ Hin) as [H1 H2].
  split; [exact H1|]. apply H2. reflexivity.
Defined.

(** ** What the counters count *)

Lemma In_map_get {V : Type} (m : jsmap V) k v :
  NoDup (map fst m) -> In (k, v) m -> map_get m k = Some v.
Proof.
  induction m as [|[k' v'] m IH]; simpl; [tauto|].
  intros Hnd [[= -> ->]|Hin].
  - now rewrite String.eqb_refl.
  - inversion Hnd as [|? ? Hnin Hnd']; subst.
    destruct (String.eqb_spec k k') as [->|Hne]; [|auto].
    exfalso. apply Hnin. change k' with (fst (k', v)). now apply in_map.
Qed.

Lemma mentions_cons k r l :
  mentions k (r :: l) =
  (if String.eqb (themeKey r) k then 1 else 0) + mentions k l.
Proof.
  unfold mentions, count_of. simpl.
  destruct (String.eqb (themeKey r) k); [|lia].
  cbn [List.length]. lia.
Qed.

Lemma add_total row m k :
  total_of (add row true m) k =
  total_of m k + (if String.eqb (themeKey row) k then 1 else 0).
Proof.
  unfold add, total_of. cbv zeta.
  destruct (map_has m (themeKey row)) eqn:Hh.
  - unfold map_has in Hh.
    destruct (map_get m (themeKey row)) as [rec|] eqn:Eg; [|discriminate].
    destruct (String.eqb_spec (themeKey row) k) as [<-|Hne].
    + rewrite map_get_set_same, Eg. reflexivity.
    + rewrite map_get_set_other by assumption. lia.
  - rewrite map_get_set_same.
    apply map_get_None in Hh.
    destruct (String.eqb_spec (themeKey row) k) as [<-|Hne].
    + rewrite map_get_set_same, Hh. reflexivity.
    + rewrite !map_get_set_other by assumption. lia.
Qed.

Lemma todayThemeMap_total todayItems k :
  total_of (todayThemeMap todayItems) k = mentions k todayItems.
Proof.
  unfold todayThemeMap.
  assert (H : forall m,
            total_of (fold_left (fun m r => add r true m) todayItems m) k
            = total_of m k + mentions k todayItems).
  { induction todayItems as [|r l IH]; intros m; simpl.
    - unfold mentions, count_of. simpl. lia.
    - rewrite IH, add_total, mentions_cons. lia. }
  rewrite H. reflexivity.
Qed.

Lemma countYesterday_count m r k :
  count_in (countYesterday m r) k =
  count_in m k + (if String.eqb (themeKey r) k then 1 else 0).
Proof.
  unfold countYesterday, count_in. cbv zeta.
  destruct (String.eqb_spec (themeKey r) k) as [<-|Hne].
  - rewrite map_get_set_same. reflexivity.
  - rewrite map_get_set_other by assumption. lia.
Qed.

Lemma yesterdayCounts_count yesterdayItems k :
  count_in (yesterdayCounts yesterdayItems) k = mentions k yesterdayItems.
Proof.
  unfold yesterdayCounts.
  assert (H : forall m,
            count_in (fold_left countYesterday yesterdayItems m) k
            = count_in m k + mentions k yesterdayItems).
  { induction yesterdayItems as [|r l IH]; intros m; simpl.
    - unfold mentions, count_of. simpl. lia.
    - rewrite IH, countYesterday_count, mentions_cons. lia. }
  rewrite H. reflexivity.
Qed.

Lemma mentions_pos k items r :
  In r items -> themeKey r = k -> 0 < mentions k items.
Proof.
  intros Hin Hk. unfold mentions, count_of.
  assert (Hf : In r (filter (fun r => String.eqb (themeKey r) k) items)).
  { apply filter_In. split; [exact Hin|]. rewrite Hk. apply String.eqb_refl. }
  destruct (filter _ items); [destruct Hf | simpl; lia].
Qed.

(** The fields of an aggregate are the counts of its theme: the records
    of today, which are one at least, and the records of yesterday. *)
Lemma aggregate_counts todayItems yesterdayItems a :
  In a (aggregateThemes todayItems yesterdayItems) ->
  total_mentions a = mentions (theme a) todayItems /\
  yesterday_mentions a = mentions (theme a) yesterdayItems /\
  0 < total_mentions a.
Proof.
  intros Ha. pose proof Ha as Ha'. apply aggregateThemes_In in Ha.
  destruct Ha as (th & rec & Hin & ->).
  pose proof (In_map_get _ _ _ (todayThemeMap_NoDup todayItems) Hin) as Hg.
  pose proof (todayThemeMap_total todayItems th) as Ht.
  unfold total_of in Ht. rewrite Hg in Ht.
  pose proof (yesterdayCounts_count yesterdayItems th) as Hy.
  unfold toAggregate. cbn [theme total_mentions yesterday_mentions].
  split; [exact Ht|]. split; [exact Hy|].
  rewrite Ht.
  destruct (todayThemeMap_keys todayItems th) as (r & Hr & Hk).
  { change th with (fst (th, rec)). now apply in_map. }
  now apply (mentions_pos th todayItems r).
Qed.

(** Two quotients whose exact percentage ends in one half: the product
    of Numbers falls just below it. *)
Example percent_201_of_200 : percent (401 - 200) 200 = js_of_Z 100.
Proof. reflexivity. Qed.

Example percent_29_of_200 : percent 29 200 = js_of_Z 14.
Proof. reflexivity. Qed.

(** [0.05] is the quotient of 5 by 100, and one record in twenty is no
    less than the minimum share. *)
Example KPI_MIN_SHARE_value :
  KPI_MIN_SHARE = js_div (js_of_Z 5) (js_of_Z 100) /\
  belowMinShare 1 20 = false /\ belowMinShare 1 21 = true.
Proof. repeat split. Qed.

(** In the bucket resolver the login rule takes 'password' before the
    password-reset rule is tried. *)
Example backend_password_reset :
  getThemeForCommentBackend "password reset" = "Authentication / Login Issues" /\
  getThemeForCommentBackend "forgot password" = "Authentication / Login Issues" /\
  getThemeForCommentBackend "reset link" = PASSWORD_RESET /\
  getThemeForCommentBackend "link expired" = PASSWORD_RESET.
Proof. repeat split. Qed.

Example keyword_matcher_password_reset :
  toAbstractLabel "password reset" = Some "Authentication / Login Issues" /\
  toAbstractLabel "reset link" = Some "Link / Validation Errors".
Proof. repeat split. Qed.

(** ** When the Low Impact bucket does surface *)

Lemma map_set_nonempty {V : Type} (m : jsmap V) k v : map_set m k v <> [].
Proof. destruct m as [|[k' v'] m]; simpl; [|destruct (String.eqb k k')]; discriminate. Qed.

Lemma push_row_nonempty byTheme key r : push_row byTheme key r <> [].
Proof.
  unfold push_row. destruct (map_get byTheme key); apply map_set_nonempty.
Qed.

Lemma groupForLow_nonempty excludeThemes items r :
  In r items ->
  set_has excludeThemes (getThemeForCommentBackend (comment r)) = false ->
  groupForLow excludeThemes true items <> [].
Proof.
  intros Hin Hr. unfold groupForLow.
  assert (H : forall acc,
            acc <> [] \/ In r items ->
            fold_left
              (fun byTheme r0 =>
                 let th := getThemeForCommentBackend (comment r0) in
                 if ((negb true && String.eqb th "Other")
                     || set_has excludeThemes th)%bool
                 then byTheme
                 else push_row byTheme
                        (if (String.eqb th "Other" && true)%bool
                         then "Various feedback" else th) r0)
              items acc <> []).
  { clear Hin. induction items as [|r0 l IH]; intros acc Hacc; simpl.
    - destruct Hacc as [Hacc|[]]. exact Hacc.
    - apply IH. destruct Hacc as [Hacc|[->|Hin]].
      + left.
        destruct (set_has excludeThemes (getThemeForCommentBackend (comment r0)));
          [exact Hacc | apply push_row_nonempty].
      + left. rewrite Hr. apply push_row_nonempty.
      + now right. }
  apply H. now right.
Qed.

Lemma getTopThemesForLowBucket_nonempty items excludeThemes r :
  In r items ->
  set_has excludeThemes (getThemeForCommentBackend (comment r)) = false ->
  getTopThemesForLowBucket items excludeThemes true <> [].
Proof.
  intros Hin Hr. unfold getTopThemesForLowBucket.
  destruct items as [|r0 l] eqn:E; [destruct Hin|]. rewrite <- E in *.
  pose proof (groupForLow_nonempty excludeThemes items r Hin Hr) as Hg.
  destruct (sort_desc rowsCount (groupForLow excludeThemes true items))
    as [|e rest] eqn:Es.
  - apply (f_equal (@List.length _)) in Es. rewrite sort_desc_length in Es.
    destruct (groupForLow excludeThemes true items); [congruence|discriminate].
  - discriminate.
Qed.

Lemma retryWhenEmpty_nonempty {A B : Type} (l : list A) (items : list B) next :
  next <> [] -> items <> [] -> retryWhenEmpty l items next <> [].
Proof. intros Hn Hi. destruct l, items; simpl; congruence. Qed.

(** The low field is not [null] as soon as one positive record has a
    theme other than the labels the Critical and the Monitor bucket
    resolved to (an unclassified record counts: it is folded into
    'Various feedback'). *)
Lemma low_bucket_surfaces items r :
  In r (filter (hasSentiment "positive") items) ->
  set_has (resolvedLabels (kpiThemes items))
          (getThemeForCommentBackend (comment r)) = false ->
  low (kpiThemes items) <> None.
Proof.
  intros Hin Hr.
  pose proof (getTopThemesForLowBucket_nonempty _ _ r Hin Hr) as H3.
  unfold resolvedLabels, kpiThemes in *. cbv zeta in *.
  cbn [critical monitor low] in *.
  set (lowItems := filter (hasSentiment "positive") items) in *.
  set (c := criticalOf items) in *. set (m := monitorOf items c) in *.
  assert (He : lowIssuesOf lowItems c m <> []).
  { unfold lowIssuesOf. cbv zeta.
    apply retryWhenEmpty_nonempty; [exact H3|].
    intros E. rewrite E in Hin. destruct Hin. }
  destruct (lowIssuesOf lowItems c m); [congruence | discriminate].
Qed.

(* ================================================================== *)
(** * Further properties of the worker *)
(* ================================================================== *)

(** ** The aggregator: which themes, in which order, with which counts *)

Lemma set_has_keys {V : Type} (m : jsmap V) k :
  set_has (map fst m) k = map_has m k.
Proof.
  unfold set_has, map_has. induction m as [|[k' v'] m IH]; simpl; [reflexivity|].
  destruct (String.eqb k k'); [reflexivity | exact IH].
Qed.

Lemma map_set_keys_add {V : Type} (m : jsmap V) k v :
  map fst (map_set m k v) = set_add (map fst m) k.
Proof. unfold set_add. now rewrite map_set_keys, set_has_keys. Qed.

Lemma set_add_idem s k : set_add (set_add s k) k = set_add s k.
Proof.
  assert (H : set_has (set_add s k) k = true).
  { unfold set_add. destruct (set_has s k) eqn:E; [exact E|].
    unfold set_has. rewrite existsb_app. simpl.
    now rewrite String.eqb_refl, orb_true_r. }
  unfold set_add at 1. now rewrite H.
Qed.

Lemma add_keys_eq row m :
  map fst (add row true m) = set_add (map fst m) (themeKey row).
Proof.
  unfold add. cbv zeta.
  destruct (map_has m (themeKey row)) eqn:Hh.
  - unfold map_has in Hh.
    destruct (map_get m (themeKey row)) eqn:Eg; [|discriminate].
    now rewrite map_set_keys_add.
  - rewrite map_get_set_same, !map_set_keys_add. apply set_add_idem.
Qed.

(** X2. The aggregates come one per distinct theme of today's records, in
    the order in which the themes first appear among those records. *)
Theorem aggregateThemes_order todayItems yesterdayItems :
  map theme (aggregateThemes todayItems yesterdayItems)
  = distinct (map themeKey todayItems).
Proof.
  rewrite aggregateThemes_themes. unfold todayThemeMap, distinct.
  change (@nil string) with (map fst (@nil (string * ThemeRec))).
  generalize (@nil (string * ThemeRec)) as m.
  induction todayItems as [|r l IH]; intros m; simpl; [reflexivity|].
  rewrite IH, add_keys_eq. reflexivity.
Qed.

(** X1. The fields of an aggregate are the counts of its theme: as many
    total mentions as today's records of that theme, which are one at
    least, and as many yesterday mentions as yesterday's records of it. *)
Theorem aggregate_fields_count todayItems yesterdayItems a :
  In a (aggregateThemes todayItems yesterdayItems) ->
  total_mentions a = mentions (theme a) todayItems /\
  yesterday_mentions a = mentions (theme a) yesterdayItems /\
  1 <= total_mentions a.
Proof.
  intros Ha. destruct (aggregate_counts _ _ _ Ha) as (H1 & H2 & H3).
  repeat split; [exact H1 | exact H2 | lia].
Qed.

Lemma aggregate_fields_count_witness :
  exists a,
    In a (aggregateThemes sample_four_themes sample_yesterday_only) /\
    theme a = "API Timeout Errors" /\
    total_mentions a = 7 /\ yesterday_mentions a = 3.
Proof.
  exists (mkAgg "API Timeout Errors" 7 7 0 (js_of_Z 100) 3 (js_of_Z 133)).
  assert (Hin : In (mkAgg "API Timeout Errors" 7 7 0 (js_of_Z 100) 3
                          (js_of_Z 133))
                   (aggregateThemes sample_four_themes sample_yesterday_only))
    by (vm_compute; right; left; reflexivity).
  destruct (aggregate_fields_count _ _ _ Hin) as (H1 & H2 & _).
  split; [exact Hin|]. split; [reflexivity|].
  split; [rewrite H1 | rewrite H2]; vm_compute; reflexivity.
Defined.

Lemma sum_total_set_new (m : jsmap ThemeRec) k v :
  map_get m k = None ->
  sum_by (fun e => total (snd e)) (map_set m k v)
  = sum_by (fun e => total (snd e)) m + total v.
Proof.
  induction m as [|[k' v'] m IH]; simpl; intros Hg; [lia|].
  destruct (String.eqb k k'); [discriminate|]. simpl. rewrite IH by assumption.
  lia.
Qed.

Lemma sum_total_set_old (m : jsmap ThemeRec) k rec v :
  map_get m k = Some rec ->
  sum_by (fun e => total (snd e)) (map_set m k v)
  = sum_by (fun e => total (snd e)) m - total rec + total v.
Proof.
  induction m as [|[k' v'] m IH]; simpl; intros Hg; [discriminate|].
  destruct (String.eqb k k').
  - injection Hg as ->. simpl. lia.
  - simpl. rewrite (IH Hg). lia.
Qed.

Lemma add_sum row m :
  sum_by (fun e => total (snd e)) (add row true m)
  = sum_by (fun e => total (snd e)) m + 1.
Proof.
  unfold add. cbv zeta.
  destruct (map_has m (themeKey row)) eqn:Hh.
  - unfold map_has in Hh.
    destruct (map_get m (themeKey row)) as [rec|] eqn:Eg; [|discriminate].
    rewrite (sum_total_set_old _ _ rec) by assumption. simpl. lia.
  - apply map_get_None in Hh. rewrite map_get_set_same.
    rewrite (sum_total_set_old _ _ (mkRec 0 0 0 0))
      by apply map_get_set_same.
    rewrite sum_total_set_new by assumption. simpl. lia.
Qed.

(** X3. Every record of today is counted once: the total mentions of all
    aggregates add up to the number of today's records. *)
Theorem aggregateThemes_conserves todayItems yesterdayItems :
  sum_by total_mentions (aggregateThemes todayItems yesterdayItems)
  = count_of todayItems.
Proof.
  unfold aggregateThemes.
  assert (Hmap : forall y (m : jsmap ThemeRec),
            sum_by total_mentions (map (toAggregate y) m)
            = sum_by (fun e => total (snd e)) m).
  { intros y m. induction m as [|[k rec] m IH]; simpl; [reflexivity|].
    now rewrite IH. }
  rewrite Hmap. unfold todayThemeMap, count_of.
  assert (H : forall m,
            sum_by (fun e => total (snd e))
                   (fold_left (fun m r => add r true m) todayItems m)
            = sum_by (fun e => total (snd e)) m
              + Z.of_nat (List.length todayItems)).
  { induction todayItems as [|r l IH]; intros m.
    - simpl. lia.
    - cbn [fold_left List.length]. rewrite IH, add_sum. lia. }
  rewrite H. reflexivity.
Qed.

(** ** The risk score *)

(** X4. More enterprise or self-serve mentions, at the same share of
    negative ones, never lower the risk score nor the tier. *)
Theorem computeRiskScore_monotone a a' :
  percent_negative a = percent_negative a' ->
  enterprise_mentions a <= enterprise_mentions a' ->
  self_serve_mentions a <= self_serve_mentions a' ->
  fst (computeRiskScore a) <= fst (computeRiskScore a') /\
  tierRank (snd (computeRiskScore a)) <= tierRank (snd (computeRiskScore a')).
Proof.
  intros Hp He Hs. unfold computeRiskScore. cbv zeta. rewrite Hp.
  destruct (js_ge (percent_negative a') (js_of_Z 50));
    repeat match goal with
           | |- context [if ?c <=? ?d then _ else _] =>
               destruct (Z.leb_spec c d)
           end; simpl; lia.
Qed.

Lemma computeRiskScore_monotone_witness :
  fst (computeRiskScore (mkAgg "Email Delivery Issues" 3 1 2 (js_of_Z 0) 0
                               (js_of_Z 100)))
  <= fst (computeRiskScore (mkAgg "Email Delivery Issues" 9 6 3 (js_of_Z 0) 0
                                  (js_of_Z 100))) /\
  tierRank (snd (computeRiskScore (mkAgg "Email Delivery Issues" 3 1 2
                                         (js_of_Z 0) 0 (js_of_Z 100))))
  <= tierRank (snd (computeRiskScore (mkAgg "Email Delivery Issues" 9 6 3
                                            (js_of_Z 0) 0 (js_of_Z 100)))).
Proof.
  apply computeRiskScore_monotone; simpl; [reflexivity | lia | lia].
Defined.

Lemma todayThemeMap_nonneg todayItems th rec :
  In (th, rec) (todayThemeMap todayItems) ->
  0 <= enterprise rec /\ 0 <= selfServe rec.
Proof.
  unfold todayThemeMap.
  assert (H : forall m,
            Forall (fun e => 0 <= enterprise (snd e) /\ 0 <= selfServe (snd e)) m ->
            Forall (fun e => 0 <= enterprise (snd e) /\ 0 <= selfServe (snd e))
                   (fold_left (fun m r => add r true m) todayItems m)).
  { induction todayItems as [|r l IH]; intros m Hm; simpl; [exact Hm|].
    apply IH. unfold add. cbv zeta.
    assert (Hb : forall rec0, 0 <= enterprise rec0 /\ 0 <= selfServe rec0 ->
                 0 <= enterprise (bump r rec0) /\ 0 <= selfServe (bump r rec0)).
    { intros rec0 [H1 H2]. unfold bump. simpl.
      destruct (isEnterprise r); lia. }
    destruct (map_has m (themeKey r)).
    - destruct (map_get m (themeKey r)) as [rec0|] eqn:Eg; [|exact Hm].
      apply (map_set_Forall (fun v => 0 <= enterprise v /\ 0 <= selfServe v));
        [exact Hm|].
      apply Hb.
      exact (map_get_Forall (fun v => 0 <= enterprise v /\ 0 <= selfServe v)
               _ _ _ Hm Eg).
    - rewrite map_get_set_same.
      apply (map_set_Forall (fun v => 0 <= enterprise v /\ 0 <= selfServe v)).
      + apply (map_set_Forall (fun v => 0 <= enterprise v /\ 0 <= selfServe v));
          [exact Hm | simpl; lia].
      + apply Hb. simpl. lia. }
  intros Hin. specialize (H [] (Forall_nil _)).
  rewrite Forall_forall in H. exact (H _ Hin).
Qed.

(** X5. Every theme that reaches the scorer has been mentioned today: its
    risk score is at least its total mentions, so at least 1, at most
    three times the total mentions plus 2, and its tier is the one of
    the thresholds 20 and 10. *)
Theorem scored_themes_bounds todayItems yesterdayItems x :
  In x (aggregatedWithRisk todayItems yesterdayItems) ->
  1 <= total_mentions (agg x) <= risk_score x /\
  risk_score x <= 3 * total_mentions (agg x) + 2 /\
  (risk_level x = Critical <-> 20 <= risk_score x) /\
  (risk_level x = LowImpact <-> risk_score x < 10).
Proof.
  unfold aggregatedWithRisk. intros Hx. apply in_map_iff in Hx.
  destruct Hx as (a & <- & Ha).
  destruct (aggregate_counts _ _ _ Ha) as (_ & _ & Hpos).
  apply aggregateThemes_In in Ha. destruct Ha as (th & rec & Hin & ->).
  destruct (todayThemeMap_nonneg _ _ _ Hin) as [He Hs].
  pose proof (todayThemeMap_ok todayItems) as Hok.
  rewrite Forall_forall in Hok. destruct (Hok _ Hin) as (Hsum & _).
  cbn [snd] in Hsum.
  revert Hpos. unfold withRisk, computeRiskScore, toAggregate. cbv zeta.
  cbn [enterprise_mentions self_serve_mentions total_mentions percent_negative].
  intros Hpos.
  destruct (js_ge _ (js_of_Z 50));
    repeat match goal with
           | |- context [if ?c <=? ?d then _ else _] =>
               destruct (Z.leb_spec c d)
           end; cbn [agg risk_score risk_level total_mentions];
    repeat split; try lia; try discriminate; intros; try lia; try discriminate.
Qed.

Lemma scored_themes_bounds_witness :
  exists x,
    In x (aggregatedWithRisk sample_four_themes sample_yesterday_only) /\
    themeOf x = "API Timeout Errors" /\
    1 <= total_mentions (agg x) <= risk_score x /\
    risk_score x <= 3 * total_mentions (agg x) + 2.
Proof.
  exists (withRisk (mkAgg "API Timeout Errors" 7 7 0 (js_of_Z 100) 3
                          (js_of_Z 133))).
  assert (Hin : In (withRisk (mkAgg "API Timeout Errors" 7 7 0 (js_of_Z 100) 3
                                    (js_of_Z 133)))
                   (aggregatedWithRisk sample_four_themes sample_yesterday_only))
    by (vm_compute; right; left; reflexivity).
  destruct (scored_themes_bounds _ _ _ Hin) as (H1 & H2 & _).
  split; [exact Hin|]. split; [reflexivity|]. split; [exact H1 | exact H2].
Defined.

(** ** The headlines among the scored themes *)

Lemma hd_error_firstn {A : Type} n (l : list A) :
  hd_error (firstn (S n) l) = hd_error l.
Proof. destruct l; reflexivity. Qed.

(** X6. The headlines are scored themes, as many as there are up to 3,
    and the first headline has the highest risk score of all. *)
Theorem top3_from_scored scored :
  (forall x, In x (top3 scored) -> In x scored) /\
  List.length (top3 scored) = Nat.min 3 (List.length scored) /\
  (forall h, hd_error (top3 scored) = Some h ->
             forall x, In x scored -> risk_score x <= risk_score h).
Proof.
  assert (Hlen : List.length (candidate3 scored) = Nat.min 3 (List.length scored)).
  { unfold candidate3, byRiskDesc. now rewrite length_firstn, sort_desc_length. }
  assert (Hhd : forall h, hd_error (candidate3 scored) = Some h ->
                forall x, In x scored -> risk_score x <= risk_score h).
  { unfold candidate3, byRiskDesc. intros h Hh. rewrite hd_error_firstn in Hh.
    apply sort_desc_head_max in Hh. apply Hh. }
  destruct (top3_cases scored)
    as [->|(b & c0 & c1 & c2 & Hb & Hc & _ & ->)].
  - split; [apply candidate3_In | split; assumption].
  - apply bestLow_spec in Hb. destruct Hb as (Hbin & _).
    rewrite Hc in Hlen, Hhd. split; [|split].
    + intros x [<-|[<-|[<-|[]]]]; [| |exact Hbin];
        apply candidate3_In; rewrite Hc; simpl; auto.
    + exact Hlen.
    + exact Hhd.
Qed.

(** ** The keyword grouping of a bucket *)

Lemma getThemeForCommentBackend_values c :
  In (getThemeForCommentBackend c) BACKEND_THEMES.
Proof.
  unfold getThemeForCommentBackend. cbv zeta.
  repeat match goal with
         | |- context [if ?b then _ else _] => destruct b
         end; simpl; tauto.
Qed.

Lemma push_row_get_same m k r : rows_in (push_row m k r) k = (rows_in m k ++ [r])%list.
Proof.
  unfold rows_in, push_row. destruct (map_get m k) eqn:E;
    now rewrite map_get_set_same.
Qed.

Lemma push_row_get_other m k k' r :
  k <> k' -> map_get (push_row m k r) k' = map_get m k'.
Proof.
  intros Hne. unfold push_row.
  destruct (map_get m k); now apply map_get_set_other.
Qed.

Lemma push_row_NoDup m k r :
  NoDup (map fst m) -> NoDup (map fst (push_row m k r)).
Proof. unfold push_row. destruct (map_get m k); apply map_set_NoDup. Qed.

Lemma push_row_Forall (P : string -> list FeedbackRow -> Prop) m k r :
  Forall (fun e => P (fst e) (snd e)) m ->
  (forall rows, P k rows -> P k (rows ++ [r])%list) -> P k [r] ->
  Forall (fun e => P (fst e) (snd e)) (push_row m k r).
Proof.
  intros Hm Hstep Hnew. unfold push_row.
  destruct (map_get m k) as [rows|] eqn:Eg.
  - apply map_get_In in Eg. rewrite Forall_forall in Hm.
    pose proof (Hm _ Eg) as Hrows. cbn [fst snd] in Hrows.
    clear Eg. induction m as [|[k' v'] m IH]; simpl.
    + constructor; [now apply Hstep | constructor].
    + destruct (String.eqb_spec k k') as [<-|Hne].
      * constructor; [cbn [fst snd]; now apply Hstep|].
        apply Forall_forall. intros e He. apply Hm. now right.
      * constructor; [apply Hm; now left|].
        apply IH. intros e He. apply Hm. now right.
  - clear Eg. induction m as [|[k' v'] m IH]; simpl.
    + constructor; [exact Hnew | constructor].
    + inversion Hm; subst.
      destruct (String.eqb_spec k k') as [<-|Hne].
      * constructor; [cbn [fst snd]; exact Hnew | assumption].
      * constructor; [assumption | now apply IH].
Qed.

(** What the grouping loops keep, for a choice [key] of the key of a row
    and [keep] of the rows that are grouped: keys are distinct, and under
    each key stand, in order, the kept rows of that key, one at least. *)
Section Grouping.
Variable keep : FeedbackRow -> bool.
Variable key : FeedbackRow -> string.

Lemma group_rows items : forall acc k,
  rows_in (fold_left (group_step keep key) items acc) k
  = (rows_in acc k ++ kept keep key k items)%list.
Proof.
  induction items as [|r l IH]; intros acc k; simpl.
  - now rewrite app_nil_r.
  - rewrite IH. unfold group_step. destruct (keep r); simpl; [|reflexivity].
    destruct (String.eqb_spec (key r) k) as [<-|Hne].
    + rewrite push_row_get_same, <- app_assoc. reflexivity.
    + unfold rows_in. now rewrite push_row_get_other.
Qed.

Lemma group_NoDup items : forall acc,
  NoDup (map fst acc) -> NoDup (map fst (fold_left (group_step keep key) items acc)).
Proof.
  induction items as [|r l IH]; intros acc Hacc; simpl; [exact Hacc|].
  apply IH. unfold group_step. destruct (keep r); [|exact Hacc].
  now apply push_row_NoDup.
Qed.

Lemma group_nonempty items : forall acc,
  Forall (fun e => snd e <> []) acc ->
  Forall (fun e => snd e <> []) (fold_left (group_step keep key) items acc).
Proof.
  induction items as [|r l IH]; intros acc Hacc; simpl; [exact Hacc|].
  apply IH. unfold group_step. destruct (keep r); [|exact Hacc].
  apply (push_row_Forall (fun _ rows => rows <> [])); [exact Hacc| |discriminate].
  intros rows _ E. now destruct rows.
Qed.

(** An entry of the grouping of [items]: the kept rows of its key. *)
Lemma group_entry items k rows :
  In (k, rows) (fold_left (group_step keep key) items []) ->
  rows = kept keep key k items /\ rows <> [].
Proof.
  intros Hin.
  pose proof (group_NoDup items [] (NoDup_nil _)) as Hnd.
  pose proof (group_nonempty items [] (Forall_nil _)) as Hne.
  rewrite Forall_forall in Hne. split; [|exact (Hne _ Hin)].
  pose proof (In_map_get _ _ _ Hnd Hin) as Hg.
  pose proof (group_rows items [] k) as Hr. unfold rows_in in Hr at 1.
  rewrite Hg in Hr. exact Hr.
Qed.

(** A key with a kept row has an entry. *)
Lemma group_has items k :
  kept keep key k items <> [] ->
  exists rows, In (k, rows) (fold_left (group_step keep key) items []).
Proof.
  intros Hk. pose proof (group_rows items [] k) as Hr.
  unfold rows_in in Hr at 1.
  destruct (map_get (fold_left (group_step keep key) items []) k) as [rows|] eqn:Eg.
  - exists rows. now apply map_get_In.
  - simpl in Hr. congruence.
Qed.
End Grouping.

Lemma fold_left_ext {A B : Type} (f g : A -> B -> A) (l : list B) (a : A) :
  (forall x y, f x y = g x y) -> fold_left f l a = fold_left g l a.
Proof.
  intros H. revert a. induction l as [|b l IH]; intros a; simpl; [reflexivity|].
  now rewrite H, IH.
Qed.

Lemma groupByTheme_group excludeThemes items :
  groupByTheme excludeThemes items
  = fold_left (group_step (fun r => allowedTheme excludeThemes (themeOfRow r))
                          themeOfRow) items [].
Proof.
  unfold groupByTheme. apply fold_left_ext. intros m r.
  unfold group_step, allowedTheme, themeOfRow. cbv zeta.
  destruct (_ || _)%bool; reflexivity.
Qed.

Lemma groupForLow_group excludeThemes includeOther items :
  groupForLow excludeThemes includeOther items
  = fold_left (group_step (lowKeep excludeThemes includeOther)
                          (lowKey includeOther)) items [].
Proof.
  unfold groupForLow. apply fold_left_ext. intros m r.
  unfold group_step, lowKeep, lowKey, themeOfRow. cbv zeta.
  destruct (_ || _)%bool; reflexivity.
Qed.

Lemma kept_theme excludeThemes k items :
  allowedTheme excludeThemes k = true ->
  kept (fun r => allowedTheme excludeThemes (themeOfRow r)) themeOfRow k items
  = rowsOfTheme k items.
Proof.
  intros Hk. unfold kept, rowsOfTheme. apply filter_ext. intros r.
  fold (themeOfRow r).
  destruct (String.eqb_spec (themeOfRow r) k) as [->|Hne].
  - now rewrite Hk.
  - apply andb_false_r.
Qed.

Lemma kept_nonempty_key keep key k items :
  kept keep key k items <> [] ->
  exists r, In r items /\ keep r = true /\ key r = k.
Proof.
  unfold kept. intros H.
  destruct (filter _ items) as [|r rest] eqn:E; [congruence|].
  assert (Hr : In r (filter (fun r => (keep r && String.eqb (key r) k)%bool) items))
    by (rewrite E; now left).
  apply filter_In in Hr. destruct Hr as [Hin Hb].
  apply andb_true_iff in Hb. destruct Hb as [Hk He].
  apply String.eqb_eq in He. now exists r.
Qed.

Lemma count_filter_le {A : Type} (f : A -> bool) (l : list A) :
  count_of (filter f l) <= count_of l.
Proof.
  unfold count_of. induction l as [|x l IH]; simpl; [lia|].
  destruct (f x); cbn [List.length]; lia.
Qed.

Lemma count_of_pos {A : Type} (l : list A) : l <> [] -> 1 <= count_of l.
Proof. unfold count_of. destruct l; [congruence | simpl; lia]. Qed.

Lemma count_of_nonneg {A : Type} (l : list A) : 0 <= count_of l.
Proof. unfold count_of. lia. Qed.

(** An entry of the keyword grouping: an allowed theme and its rows. *)
Lemma groupByTheme_entry excludeThemes items k rows :
  In (k, rows) (groupByTheme excludeThemes items) ->
  allowedTheme excludeThemes k = true /\
  rows = rowsOfTheme k items /\ rows <> [].
Proof.
  rewrite groupByTheme_group. intros Hin.
  destruct (group_entry _ _ _ _ _ Hin) as [Hrows Hne].
  assert (Hk : allowedTheme excludeThemes k = true).
  { rewrite Hrows in Hne. apply kept_nonempty_key in Hne.
    destruct Hne as (r & _ & Hr & <-). exact Hr. }
  repeat split; [exact Hk | | exact Hne].
  rewrite Hrows. now apply kept_theme.
Qed.

(** ** What the fallback resolves a bucket to *)

(** What [fallbackThemeAndCount] answers is an entry of the grouping. *)
Lemma fallback_entry items excludeThemes preferTheme t :
  fallbackThemeAndCount items excludeThemes preferTheme = Some t ->
  exists rows,
    In (label t, rows) (groupByTheme excludeThemes items) /\
    t = themeCountOf (label t) rows.
Proof.
  unfold fallbackThemeAndCount. destruct items as [|r0 l0]; [discriminate|].
  set (items := r0 :: l0). set (byTheme := groupByTheme excludeThemes items).
  destruct preferTheme as [p|].
  - destruct (truthy p).
    + destruct (map_get byTheme p) as [rows|] eqn:Eg.
      * simpl. intros [= <-]. exists rows. split; [|reflexivity].
        now apply map_get_In.
      * simpl. destruct (sort_desc rowsCount byTheme) as [|[lbl rows] rest] eqn:Es;
          [discriminate|].
        intros [= <-]. exists rows. split; [|reflexivity].
        apply (sort_desc_In rowsCount). rewrite Es. now left.
    + destruct (sort_desc rowsCount byTheme) as [|[lbl rows] rest] eqn:Es;
        [discriminate|].
      intros [= <-]. exists rows. split; [|reflexivity].
      apply (sort_desc_In rowsCount). rewrite Es. now left.
  - destruct (sort_desc rowsCount byTheme) as [|[lbl rows] rest] eqn:Es;
      [discriminate|].
    intros [= <-]. exists rows. split; [|reflexivity].
    apply (sort_desc_In rowsCount). rewrite Es. now left.
Qed.

Lemma fallback_props items excludeThemes preferTheme t :
  fallbackThemeAndCount items excludeThemes preferTheme = Some t ->
  label t <> "Other" /\ set_has excludeThemes (label t) = false /\
  (count t, enterpriseCount t) = countForCluster items (label t) /\
  1 <= count t <= count_of items /\
  0 <= enterpriseCount t <= count t.
Proof.
  intros H. destruct (fallback_entry _ _ _ _ H) as (rows & Hin & Ht).
  destruct (groupByTheme_entry _ _ _ _ Hin) as (Hk & Hrows & Hne).
  unfold allowedTheme in Hk. apply negb_true_iff, orb_false_iff in Hk.
  destruct Hk as [Ho He].
  rewrite Ht. cbn [label count enterpriseCount themeCountOf].
  split; [now apply String.eqb_neq|]. split; [exact He|].
  split; [unfold countForCluster; now rewrite Hrows|].
  split; [split; [now apply count_of_pos | rewrite Hrows; apply count_filter_le]|].
  split; [apply count_of_nonneg | apply count_filter_le].
Qed.

(** X7. The theme a bucket falls back to is classified and not excluded;
    its count and enterprise count are those [countForCluster] gives for
    it, at least one record and no more enterprise records than records,
    nor more records than the bucket holds. *)
Theorem fallback_sound items excludeThemes preferTheme t :
  fallbackThemeAndCount items excludeThemes preferTheme = Some t ->
  label t <> "Other" /\ set_has excludeThemes (label t) = false /\
  (count t, enterpriseCount t) = countForCluster items (label t) /\
  1 <= count t <= count_of items /\
  0 <= enterpriseCount t <= count t.
Proof. apply fallback_props. Qed.

Lemma fallback_sound_witness :
  set_has ["Notifications / Alerts"] "Authentication / Login Issues" = false /\
  (5, 0) = countForCluster sample_five_today "Authentication / Login Issues".
Proof.
  assert (H : fallbackThemeAndCount sample_five_today ["Notifications / Alerts"]
                None
              = Some (mkThemeCount "Authentication / Login Issues" 5 0))
    by (vm_compute; reflexivity).
  destruct (fallback_sound _ _ _ _ H) as (_ & H2 & H3 & _).
  split; [exact H2 | exact H3].
Defined.

(** X8. Without a preferred theme the fallback is a majority vote: no
    classified theme that is not excluded has more records in the bucket
    than the theme it answers. *)
Theorem fallback_majority items excludeThemes t th :
  fallbackThemeAndCount items excludeThemes None = Some t ->
  allowedTheme excludeThemes th = true ->
  fst (countForCluster items th) <= count t.
Proof.
  intros H Hth. unfold fallbackThemeAndCount in H.
  destruct items as [|r0 l0]; [discriminate|]. set (items := r0 :: l0) in *.
  destruct (sort_desc rowsCount (groupByTheme excludeThemes items))
    as [|[lbl rows] rest] eqn:Es; [discriminate|].
  injection H as <-. cbn [count themeCountOf].
  assert (Hhd : hd_error (sort_desc rowsCount (groupByTheme excludeThemes items))
                = Some (lbl, rows)) by now rewrite Es.
  apply sort_desc_head_max in Hhd. destruct Hhd as [_ Hmax].
  unfold countForCluster. cbn [fst]. fold (rowsOfTheme th items).
  destruct (rowsOfTheme th items) as [|r rs] eqn:Er.
  - apply count_of_nonneg.
  - rewrite <- Er.
    destruct (group_has (fun r => allowedTheme excludeThemes (themeOfRow r))
                themeOfRow items th) as [rows' Hin'].
    { rewrite kept_theme by assumption. congruence. }
    rewrite <- groupByTheme_group in Hin'.
    pose proof (Hmax _ Hin') as Hle. unfold rowsCount in Hle. cbn [snd] in Hle.
    destruct (groupByTheme_entry _ _ _ _ Hin') as (_ & -> & _). exact Hle.
Qed.

Lemma fallback_majority_witness :
  fst (countForCluster sample_four_themes "Documentation Confusion") <= 7.
Proof.
  apply (fallback_majority sample_four_themes []
           (mkThemeCount "Authentication / Login Issues" 7 7)
           "Documentation Confusion"); vm_compute; reflexivity.
Defined.

(** X9. A preferred theme wins over the majority as soon as the bucket
    holds one record of it and it is not excluded: the fallback then
    answers the preferred theme with its own counts. *)
Theorem fallback_prefers items excludeThemes p r :
  In r items -> themeOfRow r = p ->
  allowedTheme excludeThemes p = true ->
  fallbackThemeAndCount items excludeThemes (Some p)
  = Some (themeCountOf p (rowsOfTheme p items)).
Proof.
  intros Hin Hp Hk. unfold fallbackThemeAndCount.
  destruct items as [|r0 l0]; [destruct Hin|]. set (items := r0 :: l0) in *.
  assert (Ht : truthy p = true).
  { destruct p; [|reflexivity]. exfalso.
    pose proof (getThemeForCommentBackend_values (comment r)) as Hv.
    fold (themeOfRow r) in Hv. rewrite Hp in Hv. simpl in Hv.
    repeat (destruct Hv as [Hv|Hv]; [discriminate|]). exact Hv. }
  rewrite Ht.
  destruct (group_has (fun r => allowedTheme excludeThemes (themeOfRow r))
              themeOfRow items p) as [rows Hrows].
  { rewrite kept_theme by assumption. unfold rowsOfTheme. intros E.
    assert (Hf : In r (filter (fun r => String.eqb
                       (getThemeForCommentBackend (comment r)) p) items)).
    { apply filter_In. split; [exact Hin|]. fold (themeOfRow r).
      rewrite Hp. apply String.eqb_refl. }
    rewrite E in Hf. exact Hf. }
  rewrite <- groupByTheme_group in Hrows.
  destruct (groupByTheme_entry _ _ _ _ Hrows) as (_ & Hr & _).
  assert (Hnd : NoDup (map fst (groupByTheme excludeThemes items))).
  { rewrite groupByTheme_group. apply group_NoDup. constructor. }
  rewrite (In_map_get _ _ _ Hnd Hrows). simpl. now rewrite Hr.
Qed.

Lemma fallback_prefers_witness :
  fallbackThemeAndCount sample_four_themes KPI_EXCLUDED_THEMES
    (Some "Documentation Confusion")
  = Some (themeCountOf "Documentation Confusion"
            (rowsOfTheme "Documentation Confusion" sample_four_themes)).
Proof.
  apply (fallback_prefers sample_four_themes KPI_EXCLUDED_THEMES
           "Documentation Confusion"
           (mkRow 15 "Email" "neutral" "docs scattered" "2026-01-15T09:00:00Z")).
  - vm_compute. do 14 right. left. reflexivity.
  - reflexivity.
  - reflexivity.
Defined.

(** X10. The fallback answers [null] only when every record of the bucket
    is unclassified or of an excluded theme: a record of an allowed theme
    always gives an answer. *)
Theorem fallback_answers items excludeThemes preferTheme r :
  In r items -> allowedTheme excludeThemes (themeOfRow r) = true ->
  fallbackThemeAndCount items excludeThemes preferTheme <> None.
Proof.
  intros Hin Hk. unfold fallbackThemeAndCount.
  destruct items as [|r0 l0]; [destruct Hin|]. set (items := r0 :: l0) in *.
  destruct (group_has (fun r => allowedTheme excludeThemes (themeOfRow r))
              themeOfRow items (themeOfRow r)) as [rows Hrows].
  { unfold kept. intros E.
    assert (Hf : In r (filter (fun r0 =>
                   (allowedTheme excludeThemes (themeOfRow r0)
                    && String.eqb (themeOfRow r0) (themeOfRow r))%bool) items)).
    { apply filter_In. split; [exact Hin|]. rewrite Hk. apply String.eqb_refl. }
    rewrite E in Hf. exact Hf. }
  rewrite <- groupByTheme_group in Hrows.
  assert (Hs : sort_desc rowsCount (groupByTheme excludeThemes items) <> []).
  { intros E. apply (sort_desc_In rowsCount) in Hrows. rewrite E in Hrows.
    exact Hrows. }
  destruct (match preferTheme with
            | Some p => if truthy p
                        then option_map (fun rows => themeCountOf p rows)
                               (map_get (groupByTheme excludeThemes items) p)
                        else None
            | None => None
            end); [discriminate|].
  destruct (sort_desc rowsCount (groupByTheme excludeThemes items))
    as [|[lbl rws] rest]; [congruence | discriminate].
Qed.

Lemma fallback_answers_witness :
  fallbackThemeAndCount sample_same_theme [] None <> None.
Proof.
  apply (fallback_answers sample_same_theme [] None
           (mkRow 1 "Email" "negative" "login fails" "2026-01-15T09:00:00Z")).
  - left. reflexivity.
  - reflexivity.
Defined.

(** ** The issues of the Low Impact bucket *)

Lemma StronglySorted_firstn {A : Type} (R : A -> A -> Prop) n (l : list A) :
  StronglySorted R l -> StronglySorted R (firstn n l).
Proof.
  revert n. induction l as [|x l IH]; intros [|n] Hs; simpl; try constructor.
  - apply IH. now inversion Hs.
  - inversion Hs as [|? ? _ Hall]; subst. rewrite Forall_forall in *.
    intros y Hy. apply Hall. now apply In_firstn in Hy.
Qed.

Lemma StronglySorted_map {A B : Type} (R : A -> A -> Prop) (S : B -> B -> Prop)
    (f : A -> B) (l : list A) :
  (forall a b, R a b -> S (f a) (f b)) ->
  StronglySorted R l -> StronglySorted S (map f l).
Proof.
  intros HRS. induction 1 as [|x l Hs IH Hall]; simpl; constructor; auto.
  rewrite Forall_forall in *. intros y Hy. apply in_map_iff in Hy.
  destruct Hy as (a & <- & Ha). auto.
Qed.

Lemma lowEntries_props items excludeThemes includeOther :
  let entries :=
    firstn LOW_IMPACT_MAX_ISSUES
      (sort_desc rowsCount (groupForLow excludeThemes includeOther items)) in
  (List.length entries <= 3)%nat /\
  NoDup (map fst entries) /\
  StronglySorted (desc rowsCount) entries /\
  forall k rows, In (k, rows) entries ->
    rows <> [] /\
    exists r, In r items /\ lowKey includeOther r = k /\
              lowKeep excludeThemes includeOther r = true.
Proof.
  cbv zeta. rewrite groupForLow_group.
  set (g := fold_left (group_step (lowKeep excludeThemes includeOther)
                                  (lowKey includeOther)) items []).
  split; [apply firstn_le_length|].
  split.
  { rewrite <- firstn_map. apply NoDup_firstn.
    eapply Permutation_NoDup;
      [apply Permutation_map; symmetry; apply sort_desc_perm|].
    apply group_NoDup. constructor. }
  split; [apply StronglySorted_firstn, sort_desc_sorted|].
  intros k rows Hin. apply In_firstn in Hin. apply sort_desc_In in Hin.
  destruct (group_entry _ _ _ _ _ Hin) as [Hrows Hne].
  split; [exact Hne|]. rewrite Hrows in Hne.
  apply kept_nonempty_key in Hne. destruct Hne as (r & H1 & H2 & H3).
  now exists r.
Qed.

Lemma lowIssues_props items excludeThemes includeOther :
  let l := getTopThemesForLowBucket items excludeThemes includeOther in
  (List.length l <= 3)%nat /\
  NoDup (map label l) /\
  countsDescending l /\
  forall t, In t l ->
    1 <= count t <= count_of items /\
    0 <= enterpriseCount t <= count t /\
    exists r, In r items /\ lowKey includeOther r = label t /\
              lowKeep excludeThemes includeOther r = true.
Proof.
  cbv zeta. unfold getTopThemesForLowBucket.
  destruct items as [|r0 l0].
  { split; [simpl; lia|]. split; [constructor|]. split; [constructor|].
    intros t []. }
  set (items := r0 :: l0).
  destruct (lowEntries_props items excludeThemes includeOther)
    as (Hlen & Hnd & Hs & Hent).
  set (entries := firstn LOW_IMPACT_MAX_ISSUES
                    (sort_desc rowsCount
                       (groupForLow excludeThemes includeOther items))) in *.
  split; [now rewrite length_map|].
  split.
  { rewrite map_map. cbn [label themeCountOf]. exact Hnd. }
  split.
  { unfold countsDescending.
    apply (StronglySorted_map (desc rowsCount)); [|exact Hs].
    intros a b Hab. exact Hab. }
  intros t Ht. apply in_map_iff in Ht. destruct Ht as ([k rows] & <- & Hin).
  destruct (Hent _ _ Hin) as (Hne & r & Hr).
  cbn [fst snd label count enterpriseCount themeCountOf].
  split; [split; [now apply count_of_pos|]|].
  - apply In_firstn in Hin. apply sort_desc_In in Hin.
    rewrite groupForLow_group in Hin.
    destruct (group_entry _ _ _ _ _ Hin) as [-> _]. apply count_filter_le.
  - split; [split; [apply count_of_nonneg | apply count_filter_le]|].
    now exists r.
Qed.

(** X11. The Low Impact bucket shows at most 3 issues, no label twice, in
    descending order of their counts; each issue counts at least one
    record, and is the theme of a record that is not excluded (or
    'Various feedback', for an unclassified record that is folded in). *)
Theorem low_bucket_issues items excludeThemes includeOther :
  let l := getTopThemesForLowBucket items excludeThemes includeOther in
  (List.length l <= 3)%nat /\
  NoDup (map label l) /\
  countsDescending l /\
  forall t, In t l ->
    1 <= count t <= count_of items /\
    0 <= enterpriseCount t <= count t /\
    exists r, In r items /\ lowKey includeOther r = label t /\
              lowKeep excludeThemes includeOther r = true.
Proof. apply lowIssues_props. Qed.

(** ** No theme on two KPI cards *)

Lemma set_has_set_add s x y :
  set_has (set_add s x) y = (set_has s y || String.eqb y x)%bool.
Proof.
  unfold set_add. destruct (set_has s x) eqn:E.
  - destruct (String.eqb_spec y x) as [->|Hne]; [|now rewrite orb_false_r].
    now rewrite E.
  - unfold set_has. rewrite existsb_app. simpl. now rewrite orb_false_r.
Qed.

Lemma set_has_add_label_mono s o y :
  set_has s y = true -> set_has (add_label s o) y = true.
Proof.
  intros H. unfold add_label. destruct o as [t|]; [|exact H].
  destruct (truthy (label t)); [|exact H].
  rewrite set_has_set_add, H. reflexivity.
Qed.

Lemma set_has_add_label_self s t :
  truthy (label t) = true -> set_has (add_label s (Some t)) (label t) = true.
Proof.
  intros H. unfold add_label. rewrite H, set_has_set_add, String.eqb_refl.
  apply orb_true_r.
Qed.

Lemma backend_theme_truthy th : In th BACKEND_THEMES -> truthy th = true.
Proof.
  simpl. intros H.
  repeat (destruct H as [<-|H]; [reflexivity|]). destruct H.
Qed.

Lemma backend_theme_not_various th :
  In th BACKEND_THEMES -> th <> "Various feedback".
Proof.
  simpl. intros H.
  repeat (destruct H as [<-|H]; [discriminate|]). destruct H.
Qed.

(** The label the fallback answers is the theme of a record. *)
Lemma fallback_label_theme items excludeThemes preferTheme t :
  fallbackThemeAndCount items excludeThemes preferTheme = Some t ->
  In (label t) BACKEND_THEMES.
Proof.
  intros H. destruct (fallback_entry _ _ _ _ H) as (rows & Hin & _).
  rewrite groupByTheme_group in Hin.
  destruct (group_entry _ _ _ _ _ Hin) as [Hrows Hne]. rewrite Hrows in Hne.
  apply kept_nonempty_key in Hne. destruct Hne as (r & _ & _ & <-).
  apply getThemeForCommentBackend_values.
Qed.

(** An issue of the Low Impact bucket never has a label that is a keyword
    theme among the excluded ones. *)
Lemma lowIssues_not_excluded items excludeThemes includeOther t x :
  In t (getTopThemesForLowBucket items excludeThemes includeOther) ->
  In x BACKEND_THEMES -> set_has excludeThemes x = true ->
  label t <> x.
Proof.
  intros Ht Hx Hex E.
  destruct (lowIssues_props items excludeThemes includeOther) as (_ & _ & _ & H).
  destruct (H t Ht) as (_ & _ & r & _ & Hkey & Hkeep).
  unfold lowKey in Hkey. unfold lowKeep in Hkeep.
  destruct (String.eqb (themeOfRow r) "Other" && includeOther)%bool.
  - apply (backend_theme_not_various x Hx). congruence.
  - rewrite Hkey, E, Hex, orb_true_r in Hkeep. discriminate.
Qed.

Lemma retryWhenEmpty_cases {A B : Type} (l : list A) (items : list B) next :
  retryWhenEmpty l items next = l \/ retryWhenEmpty l items next = next.
Proof. destruct l, items; simpl; auto. Qed.

(** X12. One resolution of the KPI cards never shows a theme twice: the
    Monitor label differs from the Critical label and is none of the
    themes that are never surfaced, no Low Impact issue has the label of
    the Critical or of the Monitor card, and the Low Impact issues, at
    least one and at most 3 when the field is not [null], have distinct
    labels. *)
Theorem kpi_cards_distinct items :
  (forall c m, critical (kpiThemes items) = Some c ->
               monitor (kpiThemes items) = Some m -> label m <> label c) /\
  (forall m, monitor (kpiThemes items) = Some m ->
             ~ In (label m) KPI_EXCLUDED_THEMES) /\
  (forall l t, low (kpiThemes items) = Some l -> In t l ->
     (forall c, critical (kpiThemes items) = Some c -> label t <> label c) /\
     (forall m, monitor (kpiThemes items) = Some m -> label t <> label m)) /\
  (forall l, low (kpiThemes items) = Some l ->
     NoDup (map label l) /\ l <> [] /\ (List.length l <= 3)%nat).
Proof.
  unfold kpiThemes. cbv zeta. cbn [critical monitor low].
  set (lowItems := filter (hasSentiment "positive") items).
  set (c0 := criticalOf items). set (m0 := monitorOf items c0).
  assert (Hc : forall c, c0 = Some c -> In (label c) BACKEND_THEMES).
  { intros c E. unfold c0, criticalOf in E. cbv zeta in E.
    destruct (filter (hasSentiment "negative") items); [discriminate|].
    now apply fallback_label_theme in E. }
  assert (Hm : forall m, m0 = Some m ->
               In (label m) BACKEND_THEMES /\
               set_has (monitorExcludeOf c0) (label m) = false).
  { intros m E. unfold m0, monitorOf in E. cbv zeta in E.
    destruct (filter (hasSentiment "neutral") items); [discriminate|].
    split; [now apply fallback_label_theme in E|].
    now apply fallback_props in E. }
  assert (Hlow : forall t x,
            In t (lowIssuesOf lowItems c0 m0) ->
            set_has (minimalExcludeOf c0 m0) x = true ->
            In x BACKEND_THEMES -> label t <> x).
  { intros t x Ht Hx Hbx. unfold lowIssuesOf in Ht. cbv zeta in Ht.
    assert (Hx1 : set_has (add_label (monitorExcludeOf c0) m0) x = true).
    { unfold minimalExcludeOf, monitorExcludeOf in *.
      destruct c0 as [c|], m0 as [m|]; unfold add_label in *;
        repeat match goal with
               | |- context [truthy ?s] => destruct (truthy s)
               | H : context [truthy ?s] |- _ => destruct (truthy s)
               end;
        rewrite ?set_has_set_add in *; simpl in Hx;
        repeat match goal with
               | H : (_ || _)%bool = true |- _ => apply orb_true_iff in H; destruct H
               end; try discriminate;
        repeat match goal with
               | H : String.eqb _ _ = true |- _ => rewrite H
               end; rewrite ?orb_true_r; reflexivity. }
    match type of Ht with
    | In t (retryWhenEmpty ?a _ ?b) =>
        destruct (retryWhenEmpty_cases a lowItems b) as [E|E]; rewrite E in Ht
    end.
    - match type of Ht with
      | In t (retryWhenEmpty ?a _ ?b) =>
          destruct (retryWhenEmpty_cases a lowItems b) as [E'|E'];
            rewrite E' in Ht
      end.
      + exact (lowIssues_not_excluded _ _ _ _ _ Ht Hbx Hx1).
      + exact (lowIssues_not_excluded _ _ _ _ _ Ht Hbx Hx).
    - exact (lowIssues_not_excluded _ _ _ _ _ Ht Hbx Hx). }
  split; [|split; [|split]].
  - intros c m Ec Em E. destruct (Hm m Em) as [_ Hex].
    unfold monitorExcludeOf in Hex. rewrite Ec in Hex.
    rewrite E, set_has_add_label_self in Hex; [discriminate|].
    apply backend_theme_truthy. now apply Hc.
  - intros m Em Hin. destruct (Hm m Em) as [_ Hex].
    assert (Ht : set_has (monitorExcludeOf c0) (label m) = true).
    { unfold monitorExcludeOf. apply set_has_add_label_mono.
      unfold set_has. apply existsb_exists. exists (label m).
      split; [exact Hin | apply String.eqb_refl]. }
    congruence.
  - intros l t El Ht.
    assert (Hl : l = lowIssuesOf lowItems c0 m0).
    { destruct (lowIssuesOf lowItems c0 m0); [discriminate | congruence]. }
    subst l. split.
    + intros c Ec. apply (Hlow t (label c) Ht); [|now apply Hc].
      unfold minimalExcludeOf. apply set_has_add_label_mono.
      rewrite Ec. apply set_has_add_label_self.
      apply backend_theme_truthy. now apply Hc.
    + intros m Em. apply (Hlow t (label m) Ht); [|now apply Hm].
      unfold minimalExcludeOf. rewrite Em. apply set_has_add_label_self.
      apply backend_theme_truthy. now apply Hm.
  - intros l El.
    assert (Hl : l = lowIssuesOf lowItems c0 m0 /\ l <> []).
    { destruct (lowIssuesOf lowItems c0 m0); [discriminate|].
      injection El as <-. split; [reflexivity | discriminate]. }
    destruct Hl as [-> Hne]. split; [|split; [exact Hne|]].
    + unfold lowIssuesOf. cbv zeta.
      repeat match goal with
             | |- context [retryWhenEmpty ?a lowItems ?b] =>
                 destruct (retryWhenEmpty_cases a lowItems b) as [E|E];
                   rewrite E; clear E
             end; apply lowIssues_props.
    + unfold lowIssuesOf. cbv zeta.
      repeat match goal with
             | |- context [retryWhenEmpty ?a lowItems ?b] =>
                 destruct (retryWhenEmpty_cases a lowItems b) as [E|E];
                   rewrite E; clear E
             end; apply lowIssues_props.
Qed.

(** ** The oracle names the theme, never the numbers *)

(** X13. Whatever the oracle answers, a theme that
    [generateThemeWithCount] returns is not excluded, and its count and
    enterprise count are those [countForCluster] gives for its label:
    the indices the oracle lists are never counted. *)
Theorem generate_label_and_counts
    (JSON_parse AI_run : string -> outcome json)
    (items : list FeedbackRow) (excludeThemes : list string)
    (preferTheme : option string) (t : ThemeCount) :
  generateThemeWithCount JSON_parse AI_run items excludeThemes preferTheme
  = Returned (Some t) ->
  set_has excludeThemes (label t) = false /\
  (count t, enterpriseCount t) = countForCluster items (label t).
Proof.
  assert (Hf : forall v,
            Returned (fallbackThemeAndCount items excludeThemes preferTheme)
            = Returned (Some v) ->
            set_has excludeThemes (label v) = false /\
            (count v, enterpriseCount v) = countForCluster items (label v)).
  { intros v [= E]. apply fallback_props in E. tauto. }
  unfold generateThemeWithCount. destruct items as [|r0 l0]; [discriminate|].
  set (items := r0 :: l0) in *.
  unfold generateThemeBody. cbv zeta.
  destruct (AI_run (themePrompt items)) as [result|msg]; [|apply Hf].
  cbn [bind].
  destruct (parseAiJson JSON_parse (answerText result (JStr EmptyString)))
    as [parsed|msg]; [|apply Hf].
  cbn [bind].
  destruct (rawLabelOf parsed) as [rawLabel|]; [|apply Hf].
  destruct (indicesOf parsed) as [|i0 idx]; [apply Hf|].
  destruct (truthy rawLabel); [|apply Hf]. cbn [negb].
  destruct (5 <? split_count (postProcessThemeLabel rawLabel)); [apply Hf|].
  destruct (set_has excludeThemes
              (normalizeToCanonicalCluster (postProcessThemeLabel rawLabel)))
    eqn:Hex; [apply Hf|].
  destruct (countForCluster items
              (normalizeToCanonicalCluster (postProcessThemeLabel rawLabel)))
    as [cnt ent] eqn:Ecc.
  destruct (belowMinShare cnt (count_of items)); [apply Hf|].
  destruct preferTheme as [p|].
  - destruct (truthy p); cbn [andb].
    + destruct (set_has excludeThemes p) eqn:Hp; cbn [negb].
      * intros [= <-]. cbn [label count enterpriseCount]. now rewrite Ecc.
      * destruct (countForCluster items p) as [pc pe] eqn:Ep.
        destruct (1 <=? pc); intros [= <-]; cbn [label count enterpriseCount].
        -- now rewrite Ep.
        -- now rewrite Ecc.
    + intros [= <-]. cbn [label count enterpriseCount]. now rewrite Ecc.
  - intros [= <-]. cbn [label count enterpriseCount]. now rewrite Ecc.
Qed.

Lemma generate_label_and_counts_witness :
  set_has [] "Authentication / Login Issues" = false /\
  (5, 0) = countForCluster sample_five_today "Authentication / Login Issues".
Proof.
  assert (H : generateThemeWithCount
                (fun _ => Returned (JObj [ ("issue", JStr "Login Problems");
                                           ("matching_indices",
                                            JArr [JNum (js_of_Z 1)]) ]))
                prose_oracle sample_five_today [] None
              = Returned (Some (mkThemeCount "Authentication / Login Issues"
                                             5 0)))
    by (vm_compute; reflexivity).
  apply (generate_label_and_counts _ _ _ _ _ _ H).
Defined.

(** ** Labels are short *)

Lemma is_space_upper c : is_space (upper_char c) = is_space c.
Proof. destruct c as [[] [] [] [] [] [] [] []]; reflexivity. Qed.

Lemma is_space_lower c : is_space (lower_char c) = is_space c.
Proof. destruct c as [[] [] [] [] [] [] [] []]; reflexivity. Qed.

Lemma append_nil_right (s : string) : s ++ EmptyString = s.
Proof. induction s; simpl; congruence. Qed.

Lemma append_assoc_s (a b c : string) : (a ++ b) ++ c = a ++ (b ++ c).
Proof. induction a; simpl; congruence. Qed.


Lemma no_space_app a b : no_space (a ++ b) = (no_space a && no_space b)%bool.
Proof.
  induction a as [|c a IH]; simpl; [reflexivity|].
  now rewrite IH, andb_assoc.
Qed.

Lemma no_space_map_chars f s :
  (forall c, is_space (f c) = is_space c) ->
  no_space (map_chars f s) = no_space s.
Proof. intros Hf. induction s as [|c s IH]; simpl; [|rewrite Hf, IH]; reflexivity. Qed.

Lemma words_aux_ok s : forall cur,
  cur = EmptyString \/ a_word cur -> Forall a_word (words_aux cur s).
Proof.
  induction s as [|c s IH]; intros cur Hcur; simpl.
  - destruct cur; [constructor|].
    destruct Hcur as [|Hw]; [discriminate|].
    constructor; [exact Hw | constructor].
  - destruct (is_space c) eqn:Hc.
    + destruct cur.
      * apply IH. now left.
      * destruct Hcur as [|Hw]; [discriminate|].
        constructor; [exact Hw | apply IH; now left].
    + apply IH. right. split.
      * destruct cur; discriminate.
      * rewrite no_space_app. simpl. rewrite Hc. simpl.
        destruct Hcur as [->|[_ ->]]; reflexivity.
Qed.

Lemma words_ok s : Forall a_word (words s).
Proof. apply words_aux_ok. now left. Qed.

Lemma Forall_firstn_s {A : Type} (P : A -> Prop) n (l : list A) :
  Forall P l -> Forall P (firstn n l).
Proof.
  rewrite !Forall_forall. intros H x Hx. apply H. now apply In_firstn in Hx.
Qed.

Lemma titleWord_ok w : a_word w -> a_word (titleWord w).
Proof.
  intros [Hne Hns]. unfold titleWord.
  destruct (_ && _)%bool; [now split|].
  destruct w as [|c rest]; [contradiction|].
  simpl in Hns. apply andb_true_iff in Hns. destruct Hns as [Hc Hr].
  split; [discriminate|]. simpl. rewrite is_space_upper, Hc. simpl.
  unfold toLowerCase. rewrite no_space_map_chars; [exact Hr|].
  exact is_space_lower.
Qed.

Lemma split_aux_app w : forall b s,
  no_space w = true -> w <> EmptyString ->
  split_count_aux b (w ++ s) = split_count_aux false s.
Proof.
  induction w as [|c w IH]; intros b s Hns Hne; [contradiction|].
  simpl in Hns. apply andb_true_iff in Hns. destruct Hns as [Hc Hw].
  apply negb_true_iff in Hc. simpl. rewrite Hc.
  destruct w as [|d w']; [reflexivity|].
  apply IH; [exact Hw | discriminate].
Qed.

Lemma split_aux_word w b :
  a_word w -> split_count_aux b w = 1%nat.
Proof.
  intros [Hne Hns]. rewrite <- (append_nil_right w).
  now rewrite split_aux_app.
Qed.

Lemma split_aux_join ws : forall b,
  Forall a_word ws -> ws <> [] ->
  split_count_aux b (join_space ws) = List.length ws.
Proof.
  induction ws as [|w tl IH]; intros b Hall Hne; [contradiction|].
  inversion Hall as [|? ? Hw Htl]; subst.
  destruct tl as [|w2 rest].
  - simpl. now apply split_aux_word.
  - change (join_space (w :: w2 :: rest))
      with (w ++ String " "%char (join_space (w2 :: rest))).
    destruct Hw as [Hne' Hns]. rewrite split_aux_app by assumption.
    change (split_count_aux false (String " "%char (join_space (w2 :: rest))))
      with (S (split_count_aux true (join_space (w2 :: rest)))).
    rewrite IH; [reflexivity | exact Htl | discriminate].
Qed.

(** X14. A label that [postProcessThemeLabel] returns splits into at most
    5 pieces at white space (and at least 1, as every string does): the
    test for more than 5 words in [generateThemeWithCount] never
    fires. *)
Theorem postProcessThemeLabel_words raw :
  1 <= split_count (postProcessThemeLabel raw) <= 5.
Proof.
  unfold postProcessThemeLabel. cbv zeta.
  set (s := trim (strip_article (strip_filler
              (cut_at_newline (strip_quotes (trim raw)))))).
  assert (Hall : Forall a_word (map titleWord (firstn 5 (words s)))).
  { apply Forall_forall. intros w Hw. apply in_map_iff in Hw.
    destruct Hw as (v & <- & Hv). apply titleWord_ok.
    pose proof (Forall_firstn_s _ 5 _ (words_ok s)) as H.
    rewrite Forall_forall in H. now apply H. }
  assert (Hlen : (List.length (map titleWord (firstn 5 (words s))) <= 5)%nat).
  { rewrite length_map. apply firstn_le_length. }
  unfold split_count.
  destruct (map titleWord (firstn 5 (words s))) as [|w tl] eqn:E.
  - simpl. lia.
  - rewrite split_aux_join; [|exact Hall | discriminate].
    simpl List.length in *. lia.
Qed.

(** ** Splitting what was joined *)

Lemma words_aux_app w : forall cur s,
  no_space w = true ->
  words_aux cur (w ++ s) = words_aux (cur ++ w) s.
Proof.
  induction w as [|c w IH]; intros cur s Hns; simpl.
  - now rewrite append_nil_right.
  - simpl in Hns. apply andb_true_iff in Hns. destruct Hns as [Hc Hw].
    apply negb_true_iff in Hc. rewrite Hc, IH by exact Hw.
    now rewrite append_assoc_s.
Qed.

Lemma words_join_space ws :
  Forall a_word ws -> words (join_space ws) = ws.
Proof.
  unfold words. induction ws as [|w tl IH]; intros Hall; [reflexivity|].
  inversion Hall as [|? ? [Hne Hns] Htl]; subst.
  destruct tl as [|w2 rest].
  - simpl. rewrite <- (append_nil_right w) at 1.
    rewrite words_aux_app by exact Hns. simpl.
    destruct w; [contradiction | reflexivity].
  - change (join_space (w :: w2 :: rest))
      with (w ++ String " "%char (join_space (w2 :: rest))).
    rewrite words_aux_app by exact Hns.
    change (EmptyString ++ w) with w.
    change (words_aux w (String " "%char (join_space (w2 :: rest))))
      with (match w with
            | EmptyString => words_aux EmptyString (join_space (w2 :: rest))
            | _ => w :: words_aux EmptyString (join_space (w2 :: rest))
            end).
    rewrite IH by exact Htl. destruct w; [contradiction | reflexivity].
Qed.

(** X15. What [toAbstractLabel] returns is one of the canonical themes or
    a label of 2 to 5 words. *)
Theorem toAbstractLabel_shape raw l :
  toAbstractLabel raw = Some l ->
  In l CANONICAL_THEMES \/ 2 <= count_of (words l) <= 5.
Proof.
  unfold toAbstractLabel. cbv zeta.
  set (s := trim (strip_uuids (strip_numbers (strip_quotes raw)))).
  destruct (slen s <? 3); [discriminate|].
  destruct (keyword_theme (toLowerCase s)) as [th|] eqn:Ek.
  { intros [= <-]. left. apply keyword_theme_in_range in Ek. exact Ek. }
  assert (Hall : Forall a_word (firstn 5 (words s)))
    by apply Forall_firstn_s, words_ok.
  assert (Hlen : (List.length (firstn 5 (words s)) <= 5)%nat)
    by apply firstn_le_length.
  set (ws := firstn 5 (words s)) in *.
  destruct (count_of ws <? Z.of_nat 2) eqn:Hmin; [discriminate|].
  apply Z.ltb_ge in Hmin. unfold count_of in Hmin.
  destruct (_ || _)%bool.
  - destruct (join_space (firstn 2 ws)) as [|c l0] eqn:Ej; [discriminate|].
    intros [= <-]. right. rewrite <- Ej.
    rewrite words_join_space by now apply Forall_firstn_s.
    unfold count_of. rewrite length_firstn. lia.
  - intros [= <-]. right. rewrite words_join_space by exact Hall.
    unfold count_of. lia.
Qed.

Lemma toAbstractLabel_shape_witness :
  In "great product" CANONICAL_THEMES \/
  2 <= count_of (words "great product") <= 5.
Proof.
  apply (toAbstractLabel_shape "great product"). vm_compute. reflexivity.
Defined.

(** ** Answers inside a code fence *)

















(** ** Escaped text *)

Lemma replace_char_app c rep a b :
  replace_char c rep (a ++ b) = replace_char c rep a ++ replace_char c rep b.
Proof.
  induction a as [|d a IH]; simpl; [reflexivity|].
  now rewrite IH, append_assoc_s.
Qed.

Lemma escapeHtml_app a b : escapeHtml (a ++ b) = escapeHtml a ++ escapeHtml b.
Proof. unfold escapeHtml. now rewrite !replace_char_app. Qed.

Lemma escapeHtml_cons c s :
  escapeHtml (String c s) = escapeChar c ++ escapeHtml s.
Proof. apply (escapeHtml_app (String c EmptyString) s). Qed.

Lemma escapeChar_spec c :
  escapeChar c =
  if Ascii.eqb c "&"%char then "&amp;"
  else if Ascii.eqb c "<"%char then "&lt;"
  else if Ascii.eqb c ">"%char then "&gt;"
  else if Ascii.eqb c (ascii_of_nat 34) then "&quot;"
  else String c EmptyString.
Proof.
  unfold escapeChar, escapeHtml. cbn [replace_char].
  destruct (Ascii.eqb c "&"%char) eqn:E1; [reflexivity|].
  cbn [append replace_char].
  destruct (Ascii.eqb c "<"%char) eqn:E2; [reflexivity|].
  cbn [append replace_char].
  destruct (Ascii.eqb c ">"%char) eqn:E3; [reflexivity|].
  cbn [append replace_char].
  destruct (Ascii.eqb c (ascii_of_nat 34)) eqn:E4; reflexivity.
Qed.

Lemma occurs_app c a b : occurs c (a ++ b) = (occurs c a || occurs c b)%bool.
Proof.
  induction a as [|d a IH]; simpl; [reflexivity|].
  now rewrite IH, orb_assoc.
Qed.

Lemma escapeChar_safe c :
  occurs "<"%char (escapeChar c) = false /\
  occurs ">"%char (escapeChar c) = false /\
  occurs (ascii_of_nat 34) (escapeChar c) = false.
Proof.
  rewrite escapeChar_spec.
  destruct (Ascii.eqb c "&"%char); [now repeat split|].
  destruct (Ascii.eqb c "<"%char) eqn:E2; [now repeat split|].
  destruct (Ascii.eqb c ">"%char) eqn:E3; [now repeat split|].
  destruct (Ascii.eqb c (ascii_of_nat 34)) eqn:E4; [now repeat split|].
  cbn [occurs]. rewrite E2, E3, E4. now repeat split.
Qed.

(** X17. Escaped text holds none of the characters [<], [>] and the
    double quote, so it closes neither the element nor the attribute it
    is written into. *)
Theorem escapeHtml_safe s :
  occurs "<"%char (escapeHtml s) = false /\
  occurs ">"%char (escapeHtml s) = false /\
  occurs (ascii_of_nat 34) (escapeHtml s) = false.
Proof.
  induction s as [|c s (IH1 & IH2 & IH3)]; [now repeat split|].
  rewrite escapeHtml_cons, !occurs_app, IH1, IH2, IH3.
  destruct (escapeChar_safe c) as (-> & -> & ->). now repeat split.
Qed.

Lemma escapeChar_prefix c d x y :
  escapeChar c ++ x = escapeChar d ++ y -> c = d /\ x = y.
Proof.
  rewrite !escapeChar_spec.
  destruct (Ascii.eqb_spec c "&"%char) as [->|N1];
  destruct (Ascii.eqb_spec d "&"%char) as [->|M1];
  [|destruct (Ascii.eqb_spec d "<"%char) as [->|M2];
    [|destruct (Ascii.eqb_spec d ">"%char) as [->|M3];
      [|destruct (Ascii.eqb_spec d (ascii_of_nat 34)) as [->|M4]]]
   |destruct (Ascii.eqb_spec c "<"%char) as [->|N2];
    [|destruct (Ascii.eqb_spec c ">"%char) as [->|N3];
      [|destruct (Ascii.eqb_spec c (ascii_of_nat 34)) as [->|N4]]]
   |destruct (Ascii.eqb_spec c "<"%char) as [->|N2];
    [|destruct (Ascii.eqb_spec c ">"%char) as [->|N3];
      [|destruct (Ascii.eqb_spec c (ascii_of_nat 34)) as [->|N4]]];
    (destruct (Ascii.eqb_spec d "<"%char) as [->|M2];
     [|destruct (Ascii.eqb_spec d ">"%char) as [->|M3];
       [|destruct (Ascii.eqb_spec d (ascii_of_nat 34)) as [->|M4]]])];
  cbn [append]; intros H; try discriminate H;
  try (injection H; intros; subst; try contradiction; now split).
Qed.

(** X18. Escaping loses nothing: two texts with the same escaped form are
    the same text. *)
Theorem escapeHtml_injective a b :
  escapeHtml a = escapeHtml b -> a = b.
Proof.
  revert b. induction a as [|c a IH]; intros [|d b] H.
  - reflexivity.
  - rewrite escapeHtml_cons, escapeChar_spec in H.
    repeat match type of H with
           | context [if ?x then _ else _] => destruct x
           end; discriminate H.
  - rewrite escapeHtml_cons, escapeChar_spec in H.
    repeat match type of H with
           | context [if ?x then _ else _] => destruct x
           end; discriminate H.
  - rewrite !escapeHtml_cons in H. apply escapeChar_prefix in H.
    destruct H as [-> H]. f_equal. now apply IH.
Qed.

Lemma escapeHtml_injective_witness :
  "a<b & c" = "a<b" ++ " & c".
Proof.
  apply escapeHtml_injective. vm_compute. reflexivity.
Defined.

(** ** Source names *)

(** X19. [displaySourceName] changes the capitalization of a name at
    most, and a displayed name is displayed as it is. *)
Theorem displaySourceName_case_only source :
  toLowerCase (displaySourceName source) = toLowerCase source /\
  displaySourceName (displaySourceName source) = displaySourceName source.
Proof.
  unfold displaySourceName. cbv zeta.
  destruct (String.eqb (toLowerCase source) "email") eqn:E1.
  { apply String.eqb_eq in E1. rewrite E1. now split. }
  destruct (String.eqb (toLowerCase source) "community forums") eqn:E2.
  { apply String.eqb_eq in E2. rewrite E2. now split. }
  destruct (String.eqb (toLowerCase source) "github issues") eqn:E3.
  { apply String.eqb_eq in E3. rewrite E3. now split. }
  now rewrite E1, E2, E3.
Qed.

(** ** The summary built from the feedback *)

Lemma set_has_In s k : set_has s k = true <-> In k s.
Proof.
  unfold set_has. rewrite existsb_exists. split.
  - intros (x & Hx & E). apply String.eqb_eq in E. now subst.
  - intros H. exists k. split; [exact H | apply String.eqb_refl].
Qed.

Lemma set_add_In s k x : In x (set_add s k) <-> In x s \/ x = k.
Proof.
  unfold set_add. destruct (set_has s k) eqn:E.
  - apply set_has_In in E. split; [now left | intros [H| ->]; assumption].
  - rewrite in_app_iff. simpl. intuition.
Qed.

Lemma set_add_NoDup s k : NoDup s -> NoDup (set_add s k).
Proof.
  intros H. unfold set_add. destruct (set_has s k) eqn:E; [exact H|].
  assert (Hn : ~ In k s).
  { intros Hin. apply set_has_In in Hin. congruence. }
  apply NoDup_app; [exact H | repeat constructor; intros [] | ].
  intros x Hx [<-|[]]. contradiction.
Qed.

Lemma fold_set_add_In l : forall acc x,
  In x (fold_left set_add l acc) <-> In x acc \/ In x l.
Proof.
  induction l as [|k l IH]; intros acc x; simpl; [tauto|].
  rewrite IH, set_add_In. intuition.
Qed.

Lemma fold_set_add_NoDup l : forall acc,
  NoDup acc -> NoDup (fold_left set_add l acc).
Proof.
  induction l as [|k l IH]; intros acc H; simpl; [exact H|].
  apply IH, set_add_NoDup, H.
Qed.

Lemma distinct_In l x : In x (distinct l) <-> In x l.
Proof. unfold distinct. rewrite fold_set_add_In. simpl. tauto. Qed.

Lemma distinct_NoDup l : NoDup (distinct l).
Proof. apply fold_set_add_NoDup. constructor. Qed.

Lemma sum_by_add {A : Type} (f g : A -> Z) l :
  sum_by (fun a => f a + g a) l = sum_by f l + sum_by g l.
Proof. induction l as [|a l IH]; simpl; [reflexivity|]. rewrite IH. lia. Qed.

Lemma sum_by_zero {A : Type} (f : A -> Z) l :
  (forall a, In a l -> f a = 0) -> sum_by f l = 0.
Proof.
  induction l as [|a l IH]; intros H; simpl; [reflexivity|].
  rewrite IH, (H a); [reflexivity | now left | intros; apply H; now right].
Qed.

Lemma sum_by_ext {A : Type} (f g : A -> Z) l :
  (forall a, f a = g a) -> sum_by f l = sum_by g l.
Proof. intros H. induction l as [|a l IH]; simpl; congruence. Qed.

(** Among distinct names, exactly one is the name looked for. *)
Lemma sum_by_indicator (k : string) srcs :
  NoDup srcs -> In k srcs ->
  sum_by (fun src => if String.eqb k src then 1 else 0) srcs = 1.
Proof.
  induction srcs as [|s srcs IH]; intros Hnd Hin; [destruct Hin|].
  inversion Hnd as [|? ? Hn Hnd']; subst. simpl.
  destruct (String.eqb_spec k s) as [->|Hne].
  - rewrite sum_by_zero; [reflexivity|]. intros a Ha.
    destruct (String.eqb_spec s a) as [->|]; [contradiction | reflexivity].
  - destruct Hin as [->|Hin]; [contradiction|]. now rewrite IH.
Qed.

Lemma fromSource_partition items : forall srcs,
  NoDup srcs -> (forall i, In i items -> In (source i) srcs) ->
  sum_by (fun src => count_of (fromSource src items)) srcs = count_of items.
Proof.
  induction items as [|i items IH]; intros srcs Hnd Hall.
  - apply sum_by_zero. reflexivity.
  - rewrite (sum_by_ext _
      (fun src => (if String.eqb (source i) src then 1 else 0)
                  + count_of (fromSource src items))).
    + rewrite sum_by_add, sum_by_indicator, IH; auto.
      * unfold count_of. simpl List.length. lia.
      * intros j Hj. apply Hall. now right.
      * apply Hall. now left.
    + intros src. unfold fromSource, count_of. simpl.
      destruct (String.eqb (source i) src); simpl List.length; lia.
Qed.

(** X20. The summary built from the feedback lists every source once, and
    the [total_items] of the sources add up to the number of records. *)
Theorem summary_sources_partition items :
  let srcs := distinct (map source items) in
  NoDup srcs /\
  map (fun j => field j "source") (fallbackBySource items) = map JStr srcs /\
  map (fun j => field j "total_items") (fallbackBySource items)
  = map (fun src => JNum (js_of_Z (count_of (fromSource src items)))) srcs /\
  sum_by (fun src => count_of (fromSource src items)) srcs = count_of items.
Proof.
  cbv zeta. split; [apply distinct_NoDup|].
  unfold fallbackBySource. rewrite !map_map.
  split; [reflexivity|]. split; [reflexivity|].
  apply fromSource_partition; [apply distinct_NoDup|].
  intros i Hi. apply distinct_In, in_map, Hi.
Qed.

(** ** The summary route answers *)

Lemma truthy_nonempty s : truthy s = true -> s <> EmptyString.
Proof. destruct s; [discriminate | discriminate]. Qed.

Lemma overallSummary_nonempty items : overallSummary items <> EmptyString.
Proof.
  unfold overallSummary. destruct items as [|i items]; [discriminate|].
  destruct (decimal (List.length (i :: items))); discriminate.
Qed.

Lemma fallbackBySource_nonempty i items :
  fallbackBySource (i :: items) <> [].
Proof.
  unfold fallbackBySource.
  assert (H : In (source i) (distinct (map source (i :: items))))
    by (apply distinct_In; now left).
  destruct (distinct (map source (i :: items))); [destruct H | discriminate].
Qed.

Lemma mkSummary_populated o b u :
  o <> EmptyString -> b <> [] -> u <> [] -> populated (mkSummary o b u).
Proof.
  intros Ho Hb Hu. unfold populated. split; [|split].
  - exists o. now split.
  - destruct b as [|x l]; [contradiction|]. now exists x, l.
  - destruct u as [|x l]; [contradiction|]. now exists x, l.
Qed.

Lemma summaryFromFeedback_populated i items :
  populated (summaryFromFeedback (i :: items)).
Proof.
  apply mkSummary_populated.
  - apply overallSummary_nonempty.
  - apply fallbackBySource_nonempty.
  - discriminate.
Qed.

Lemma normalizeSummary_populated parsed i items s :
  normalizeSummary parsed (i :: items) = Returned s -> populated s.
Proof.
  unfold normalizeSummary.
  assert (H : forall o b u, o <> EmptyString -> b <> [] -> u <> [] ->
              Returned (mkSummary o b u) = Returned s -> populated s).
  { intros o b u Ho Hb Hu [= <-]. now apply mkSummary_populated. }
  assert (Ho : match field parsed "overall_summary" with
               | JStr t => if truthy t then t else overallSummary (i :: items)
               | _ => overallSummary (i :: items)
               end <> EmptyString).
  { destruct (field parsed "overall_summary");
      try apply overallSummary_nonempty.
    destruct (truthy s0) eqn:E;
      [now apply truthy_nonempty | apply overallSummary_nonempty]. }
  assert (Hb : match field parsed "by_source" with
               | JArr (x :: l) => x :: l
               | _ => fallbackBySource (i :: items)
               end <> []).
  { destruct (field parsed "by_source") as [| | | |[|x l]|];
      try apply fallbackBySource_nonempty. discriminate. }
  assert (Hu : match field parsed "top_urgent_issues" with
               | JArr (x :: l) => x :: l
               | _ => fallbackUrgent (i :: items)
               end <> []).
  { destruct (field parsed "top_urgent_issues") as [| | | |[|x l]|];
      discriminate. }
  destruct parsed; try discriminate; apply (H _ _ _ Ho Hb Hu).
Qed.

(** X21. Once the database returns records and the call of the model
    returns, the summary route answers by the text of the answer alone:
    when the text is there (the answer is a string, or has a [response]
    or a [result], or [JSON.stringify] returns) the response is 200 with
    a summary whose three fields are filled, whatever the text says; when
    [JSON.stringify] is called and throws, the response is 500 with the
    message thrown.  The cache cells are left as they were. *)
Theorem api_summary_answers
    (JSON_parse : string -> outcome json)
    (JSON_stringify : json -> outcome json)
    (st : Caches) (env : Env) (items : list FeedbackRow)
    (run : string -> outcome json) (aiResult : json) :
  FEEDBACK_DB env = Some (Returned items) -> items <> [] ->
  AI env = Some run -> run (summaryPrompt items) = Returned aiResult ->
  ((exists s, aiResult = JStr s) \/
   nullish (field aiResult "response") (field aiResult "result") <> JNull ->
   exists text, summaryText JSON_stringify aiResult = Returned text) /\
  match summaryText JSON_stringify aiResult with
  | Returned _ =>
      exists s,
        api_summary JSON_parse JSON_stringify st env
        = (mkResponse 200 (SummaryBody s), st) /\ populated s
  | Thrown msg =>
      api_summary JSON_parse JSON_stringify st env
      = (mkResponse 500
           (ErrorBody "Failed to generate summary from AI" (Some msg)), st)
  end.
Proof.
  intros Hdb Hne Hai Hrun. split.
  - intros [[s ->]|Hn]; [now exists (JStr s)|].
    unfold summaryText. destruct aiResult; try (eexists; reflexivity);
      destruct (nullish _ _); try contradiction; eexists; reflexivity.
  - unfold api_summary. rewrite Hdb, Hai.
    destruct items as [|i items]; [contradiction|]. rewrite Hrun.
    destruct (summaryText JSON_stringify aiResult) as [text|msg];
      [|reflexivity].
    cbv zeta.
    destruct (parseAiJson JSON_parse text) as [parsed|msg];
      cbn [bind try_catch].
    + destruct (normalizeSummary parsed (i :: items)) as [s|msg] eqn:En;
        cbn [try_catch].
      * exists s. split; [reflexivity|].
        eapply normalizeSummary_populated, En.
      * eexists. split; [reflexivity|]. apply summaryFromFeedback_populated.
    + eexists. split; [reflexivity|]. apply summaryFromFeedback_populated.
Qed.

(** An answer in prose gives the summary built from the feedback; an
    answer that [JSON.stringify] cannot serialize gives status 500. *)
Lemma api_summary_answers_witness :
  (exists s,
     api_summary JSON_parse_sample (fun _ => Thrown "cyclic object value")
                 initialCaches sample_request_1
     = (mkResponse 200 (SummaryBody s), initialCaches) /\ populated s) /\
  api_summary JSON_parse_sample (fun _ => Thrown "cyclic object value")
              initialCaches
              (mkEnv (Some (Returned (rows 1 1 "Email" "negative" "login fails")))
                     (Some (fun _ => Returned (JObj []))))
  = (mkResponse 500
       (ErrorBody "Failed to generate summary from AI"
                  (Some "cyclic object value")), initialCaches).
Proof.
  split.
  - exact (proj2 (api_summary_answers JSON_parse_sample
                    (fun _ => Thrown "cyclic object value") initialCaches
                    sample_request_1 (rows 1 1 "Email" "negative" "login fails")
                    prose_oracle (JStr "Sorry, I cannot summarize this feedback.")
                    eq_refl ltac:(discriminate) eq_refl eq_refl)).
  - exact (proj2 (api_summary_answers JSON_parse_sample
                    (fun _ => Thrown "cyclic object value") initialCaches
                    (mkEnv (Some (Returned (rows 1 1 "Email" "negative"
                                                 "login fails")))
                           (Some (fun _ => Returned (JObj []))))
                    (rows 1 1 "Email" "negative" "login fails")
                    (fun _ => Returned (JObj [])) (JObj [])
                    eq_refl ltac:(discriminate) eq_refl eq_refl)).
Defined.

(** ** No card without a record *)

Lemma iter_pos_shr_m p : forall mrs,
  0 <= shr_m mrs -> shr_m (iter_pos shr_1 p mrs) = shr_m mrs / 2 ^ Zpos p.
Proof.
  assert (Hpow : forall k, 0 < 2 ^ Zpos k)
    by (intros k; apply Z.pow_pos_nonneg; lia).
  induction p as [p IH|p IH|]; intros mrs H; simpl iter_pos.
  - assert (H1 : 0 <= shr_m (shr_1 mrs))
      by (rewrite shr_1_m by exact H; apply Z.div_pos; lia).
    assert (H2 : 0 <= shr_m (iter_pos shr_1 p (shr_1 mrs)))
      by (rewrite IH by exact H1; apply Z.div_pos; [exact H1 | apply Hpow]).
    rewrite IH by exact H2. rewrite IH by exact H1.
    rewrite shr_1_m by exact H.
    pose proof (Hpow p) as Hp.
    rewrite !Z.div_div by lia. f_equal.
    replace (Zpos p~1) with (1 + Zpos p + Zpos p) by lia.
    rewrite !Z.pow_add_r by lia. change (2 ^ 1) with 2. ring.
  - assert (H2 : 0 <= shr_m (iter_pos shr_1 p mrs))
      by (rewrite IH by exact H; apply Z.div_pos; [exact H | apply Hpow]).
    rewrite IH by exact H2. rewrite IH by exact H.
    pose proof (Hpow p) as Hp.
    rewrite Z.div_div by lia. f_equal.
    replace (Zpos p~0) with (Zpos p + Zpos p) by lia.
    now rewrite Z.pow_add_r by lia.
  - now apply shr_1_m.
Qed.

(** Outside the subnormal range a positive mantissa stays positive when
    it is cut to the precision, and the exponent does not go down. *)
Lemma shr_fexp_pos m e l :
  0 < m -> -1021 <= e ->
  let '(mrs, e') := shr_fexp prec emax m e l in
  0 < shr_m mrs /\ e <= e'.
Proof.
  intros Hm He. destruct m as [|p|p]; try lia.
  pose proof (Zdigits2_bounds p) as [Hlo _].
  assert (Hd : 1 <= Zdigits2 (Zpos p)) by (simpl; lia).
  unfold shr_fexp, shr.
  destruct (fexp prec emax (Zdigits2 (Zpos p) + e) - e) as [|k|k] eqn:Ek.
  - rewrite shr_m_of_loc. lia.
  - rewrite iter_pos_shr_m by (rewrite shr_m_of_loc; lia).
    rewrite shr_m_of_loc. split; [|lia].
    assert (Hk : Zpos k = Zdigits2 (Zpos p) - 53)
      by (unfold fexp, emin, prec, emax in Ek; lia).
    apply Z.div_str_pos. split; [apply Z.pow_pos_nonneg; lia|].
    rewrite Hk.
    assert (2 ^ (Zdigits2 (Zpos p) - 53) <= 2 ^ (Zdigits2 (Zpos p) - 1))
      by (apply Z.pow_le_mono_r; lia).
    lia.
  - rewrite shr_m_of_loc. lia.
Qed.

Lemma binary_round_aux_pos m e l :
  0 < m -> -1021 <= e ->
  (exists m' e', binary_round_aux prec emax false m e l
                 = S754_finite false m' e' /\ e <= e') \/
  binary_round_aux prec emax false m e l = S754_infinity false.
Proof.
  intros Hm He. unfold binary_round_aux.
  pose proof (shr_fexp_pos m e l Hm He) as H1.
  destruct (shr_fexp prec emax m e l) as [mrs1 e1]. destruct H1 as [H1m H1e].
  pose proof (round_le_ceil mrs1) as [Hr _].
  set (mr := round_nearest_even (shr_m mrs1) (loc_of_shr_record mrs1)) in *.
  pose proof (shr_fexp_pos mr e1 loc_Exact ltac:(lia) ltac:(lia)) as H2.
  destruct (shr_fexp prec emax mr e1 loc_Exact) as [mrs2 e2].
  destruct H2 as [H2m H2e].
  destruct (shr_m mrs2) as [|q|q]; try lia.
  destruct (e2 <=? emax - prec); [left | now right].
  exists q, e2. split; [reflexivity | lia].
Qed.

(** The Number of a positive count is positive. *)
Lemma js_of_Z_pos n :
  1 <= n ->
  (exists m e, js_of_Z n = S754_finite false m e /\ -52 <= e) \/
  js_of_Z n = S754_infinity false.
Proof.
  intros Hn. destruct n as [|p|p]; try lia.
  unfold js_of_Z, binary_normalize, binary_round.
  destruct (shl_align p 0 (fexp prec emax (Zpos (digits2_pos p) + 0)))
    as [mz ez] eqn:E.
  assert (Hez : -52 <= ez).
  { unfold shl_align in E.
    destruct (fexp prec emax (Zpos (digits2_pos p) + 0) - 0) eqn:Ef;
      injection E as <- <-; unfold fexp, emin, prec, emax in *; lia. }
  destruct (binary_round_aux_pos (Zpos mz) ez loc_Exact ltac:(lia) ltac:(lia))
    as [(m' & e' & -> & He') | ->]; [left | now right].
  exists m', e'. split; [reflexivity | lia].
Qed.

(** No record is always less than the minimum share of a bucket that
    holds a record. *)
Lemma belowMinShare_zero n : 1 <= n -> belowMinShare 0 n = true.
Proof.
  intros Hn. unfold belowMinShare, KPI_MIN_SHARE.
  change (js_of_Z 0) with (S754_zero false).
  destruct (js_of_Z_pos n Hn) as [(m & e & -> & He) | ->]; [|reflexivity].
  unfold js_mul, SFmul. cbn [xorb].
  destruct (binary_round_aux_pos (Zpos (7205759403792794 * m)) (-57 + e)
              loc_Exact ltac:(lia) ltac:(lia))
    as [(m' & e' & E & _)|E]; rewrite E; reflexivity.
Qed.

Lemma countForCluster_record items cluster :
  1 <= fst (countForCluster items cluster) ->
  exists r, In r items /\ themeOfRow r = cluster.
Proof.
  unfold countForCluster. cbv zeta. cbn [fst]. intros H.
  destruct (filter _ items) as [|r rest] eqn:E; [unfold count_of in H; simpl in H; lia|].
  assert (Hr : In r (filter
            (fun r => String.eqb (getThemeForCommentBackend (comment r)) cluster)
            items)) by (rewrite E; now left).
  apply filter_In in Hr. destruct Hr as [Hin Hb].
  apply String.eqb_eq in Hb. now exists r.
Qed.

(** X22. A theme that [generateThemeWithCount] returns counts at least
    one record, and it is the keyword theme of a record of the bucket:
    a label of the oracle that no record has is never returned. *)
Theorem generate_counts_a_record
    (JSON_parse AI_run : string -> outcome json)
    (items : list FeedbackRow) (excludeThemes : list string)
    (preferTheme : option string) (t : ThemeCount) :
  generateThemeWithCount JSON_parse AI_run items excludeThemes preferTheme
  = Returned (Some t) ->
  1 <= count t /\ exists r, In r items /\ themeOfRow r = label t.
Proof.
  assert (Hc : forall v, 1 <= count v ->
            (count v, enterpriseCount v) = countForCluster items (label v) ->
            1 <= count v /\ exists r, In r items /\ themeOfRow r = label v).
  { intros v H1 E. split; [exact H1|]. apply countForCluster_record.
    rewrite <- E. exact H1. }
  assert (Hf : forall v,
            Returned (fallbackThemeAndCount items excludeThemes preferTheme)
            = Returned (Some v) ->
            1 <= count v /\ exists r, In r items /\ themeOfRow r = label v).
  { intros v [= E]. apply fallback_props in E. apply Hc; tauto. }
  unfold generateThemeWithCount. destruct items as [|r0 l0]; [discriminate|].
  set (items := r0 :: l0) in *.
  unfold generateThemeBody. cbv zeta.
  destruct (AI_run (themePrompt items)) as [result|msg]; [|apply Hf].
  cbn [bind].
  destruct (parseAiJson JSON_parse (answerText result (JStr EmptyString)))
    as [parsed|msg]; [|apply Hf].
  cbn [bind].
  destruct (rawLabelOf parsed) as [rawLabel|]; [|apply Hf].
  destruct (indicesOf parsed) as [|i0 idx]; [apply Hf|].
  destruct (truthy rawLabel); [|apply Hf]. cbn [negb].
  destruct (5 <? split_count (postProcessThemeLabel rawLabel)); [apply Hf|].
  destruct (set_has excludeThemes
              (normalizeToCanonicalCluster (postProcessThemeLabel rawLabel)));
    [apply Hf|].
  destruct (countForCluster items
              (normalizeToCanonicalCluster (postProcessThemeLabel rawLabel)))
    as [cnt ent] eqn:Ecc.
  destruct (belowMinShare cnt (count_of items)) eqn:Eb; [apply Hf|].
  assert (Hcnt : 1 <= cnt).
  { assert (H0 : 0 <= cnt).
    { replace cnt with (fst (countForCluster items
        (normalizeToCanonicalCluster (postProcessThemeLabel rawLabel))))
        by now rewrite Ecc.
      apply count_of_nonneg. }
    destruct (Z.eq_dec cnt 0) as [->|]; [|lia].
    rewrite belowMinShare_zero in Eb; [discriminate|].
    unfold items, count_of. simpl List.length. lia. }
  assert (Hcan : forall v,
            v = mkThemeCount
                  (normalizeToCanonicalCluster (postProcessThemeLabel rawLabel))
                  cnt ent ->
            1 <= count v /\ exists r, In r items /\ themeOfRow r = label v).
  { intros v ->. apply Hc; cbn [label count enterpriseCount];
      [exact Hcnt | now rewrite Ecc]. }
  destruct preferTheme as [p|].
  - destruct (truthy p); cbn [andb].
    + destruct (set_has excludeThemes p); cbn [negb].
      * intros [= <-]. now apply Hcan.
      * destruct (countForCluster items p) as [pc pe] eqn:Ep.
        destruct (1 <=? pc) eqn:Epc; intros [= <-].
        -- apply Hc; cbn [label count enterpriseCount];
             [now apply Z.leb_le | now rewrite Ep].
        -- now apply Hcan.
    + intros [= <-]. now apply Hcan.
  - intros [= <-]. now apply Hcan.
Qed.

Lemma generate_counts_a_record_witness :
  exists t,
    generateThemeWithCount JSON_parse_sample sample_oracle
      sample_five_today [] None = Returned (Some t) /\
    1 <= count t /\
    exists r, In r sample_five_today /\ themeOfRow r = label t.
Proof.
  exists (mkThemeCount "Authentication / Login Issues" 5 0).
  split; [vm_compute; reflexivity|].
  apply (generate_counts_a_record JSON_parse_sample sample_oracle
           sample_five_today [] None).
  vm_compute. reflexivity.
Defined.

(** ** Clusters of clusters *)

Lemma normalize_cases l :
  In (normalizeToCanonicalCluster l) BACKEND_THEMES \/
  normalizeToCanonicalCluster l = l.
Proof.
  unfold normalizeToCanonicalCluster. cbv zeta.
  repeat match goal with
         | |- context [if test_words ?a ?b then _ else _] =>
             destruct (test_words a b); [left; simpl; tauto|]
         end.
  now right.
Qed.

(** X23. [normalizeToCanonicalCluster] returns one of the keyword themes
    or its argument unchanged.  Applied to its own result it changes
    nothing, with one exception: 'Documentation Confusion' has the word
    of an earlier rule in it and becomes 'Issue / Ticket Status'. *)
Theorem normalize_twice l :
  (In (normalizeToCanonicalCluster l) BACKEND_THEMES \/
   normalizeToCanonicalCluster l = l) /\
  (normalizeToCanonicalCluster (normalizeToCanonicalCluster l)
   = normalizeToCanonicalCluster l \/
   normalizeToCanonicalCluster l = "Documentation Confusion" /\
   normalizeToCanonicalCluster (normalizeToCanonicalCluster l)
   = "Issue / Ticket Status").
Proof.
  split; [apply normalize_cases|].
  destruct (normalize_cases l) as [H|H]; [|left; now rewrite H].
  simpl in H.
  repeat (destruct H as [<-|H];
          [first [left; vm_compute; reflexivity
                 |right; split; vm_compute; reflexivity]|]).
  destruct H.
Qed.

Example normalize_docs :
  normalizeToCanonicalCluster "Docs Scattered" = "Documentation Confusion".
Proof. vm_compute. reflexivity. Qed.

(** ** The source breakdown of the dashboard *)

Lemma sourceCounts_keys todayItems :
  map fst (sourceCounts todayItems) = distinct (map source todayItems).
Proof.
  unfold sourceCounts, distinct.
  change (@nil string) with (map fst (@nil (string * Z))).
  generalize (@nil (string * Z)) as m.
  induction todayItems as [|r l IH]; intros m; simpl; [reflexivity|].
  rewrite IH. unfold countSource. now rewrite map_set_keys_add.
Qed.

Lemma countSource_count m r k :
  count_in (countSource m r) k =
  count_in m k + (if String.eqb (source r) k then 1 else 0).
Proof.
  unfold countSource, count_in.
  destruct (String.eqb_spec (source r) k) as [<-|Hne].
  - rewrite map_get_set_same. reflexivity.
  - rewrite map_get_set_other by assumption. lia.
Qed.

Lemma fromSource_cons k r l :
  count_of (fromSource k (r :: l)) =
  (if String.eqb (source r) k then 1 else 0) + count_of (fromSource k l).
Proof.
  unfold fromSource, count_of. simpl.
  destruct (String.eqb (source r) k); simpl List.length; lia.
Qed.

Lemma sourceCounts_count todayItems k :
  count_in (sourceCounts todayItems) k = count_of (fromSource k todayItems).
Proof.
  unfold sourceCounts.
  assert (H : forall m,
            count_in (fold_left countSource todayItems m) k
            = count_in m k + count_of (fromSource k todayItems)).
  { induction todayItems as [|r l IH]; intros m.
    - unfold fromSource, count_of. simpl. lia.
    - cbn [fold_left]. rewrite IH, countSource_count, fromSource_cons. lia. }
  rewrite H. reflexivity.
Qed.

Lemma sourceCounts_entry todayItems src n :
  In (src, n) (sourceCounts todayItems) ->
  n = count_of (fromSource src todayItems) /\ 1 <= n.
Proof.
  intros Hin.
  assert (Hnd : NoDup (map fst (sourceCounts todayItems)))
    by (rewrite sourceCounts_keys; apply distinct_NoDup).
  pose proof (In_map_get _ _ _ Hnd Hin) as Hget.
  pose proof (sourceCounts_count todayItems src) as Hc.
  unfold count_in in Hc. rewrite Hget in Hc. split; [exact Hc|].
  assert (Hs : In src (map source todayItems)).
  { apply distinct_In. rewrite <- sourceCounts_keys.
    change src with (fst (src, n)). now apply in_map. }
  apply in_map_iff in Hs. destruct Hs as (r & Hr & Hin').
  rewrite Hc. apply count_of_pos. unfold fromSource.
  intros E.
  assert (Hf : In r (filter (fun i => String.eqb (source i) src) todayItems)).
  { apply filter_In. split; [exact Hin' | now apply String.eqb_eq]. }
  rewrite E in Hf. destruct Hf.
Qed.

Lemma sum_by_map {A B : Type} (f : B -> Z) (g : A -> B) l :
  sum_by f (map g l) = sum_by (fun a => f (g a)) l.
Proof. induction l as [|a l IH]; simpl; congruence. Qed.

Lemma sum_by_ext_in {A : Type} (f g : A -> Z) l :
  (forall a, In a l -> f a = g a) -> sum_by f l = sum_by g l.
Proof.
  induction l as [|a l IH]; intros H; simpl; [reflexivity|].
  rewrite IH, (H a); [reflexivity | now left | intros; apply H; now right].
Qed.

Lemma sum_by_perm {A : Type} (f : A -> Z) l l' :
  Permutation l l' -> sum_by f l = sum_by f l'.
Proof. induction 1; simpl; lia. Qed.

Lemma sourceCounts_sum todayItems :
  sum_by snd (sourceCounts todayItems) = count_of todayItems.
Proof.
  rewrite <- (fromSource_partition todayItems (distinct (map source todayItems))).
  - rewrite <- sourceCounts_keys, sum_by_map. apply sum_by_ext_in.
    intros [src n] Hin. cbn [fst snd].
    now destruct (sourceCounts_entry _ _ _ Hin).
  - apply distinct_NoDup.
  - intros i Hi. apply distinct_In, in_map, Hi.
Qed.

(** X24. The source breakdown has one row per source of today's records;
    the count of a row is the number of today's records of that source,
    one at least; the counts add up to the number of today's records,
    and the rows stand in descending order of their counts. *)
Theorem source_breakdown_partition todayItems :
  let l := sourceBreakdownSorted todayItems in
  NoDup (map fst l) /\
  (forall r, In r todayItems -> In (source r) (map fst l)) /\
  (forall src n, In (src, n) l ->
     n = count_of (fromSource src todayItems) /\ 1 <= n) /\
  sum_by snd l = count_of todayItems /\
  StronglySorted (desc snd) l.
Proof.
  cbv zeta. unfold sourceBreakdownSorted.
  pose proof (sort_desc_perm (@snd string Z) (sourceCounts todayItems)) as Hp.
  split; [|split; [|split; [|split]]].
  - eapply Permutation_NoDup; [apply Permutation_map; symmetry; exact Hp|].
    rewrite sourceCounts_keys. apply distinct_NoDup.
  - intros r Hr.
    eapply Permutation_in; [apply Permutation_map; symmetry; exact Hp|].
    rewrite sourceCounts_keys. apply distinct_In, in_map, Hr.
  - intros src n Hin. apply sort_desc_In in Hin.
    now apply sourceCounts_entry.
  - rewrite (sum_by_perm _ _ _ Hp). apply sourceCounts_sum.
  - apply sort_desc_sorted.
Qed.

(** ** The bars of the source breakdown *)

Lemma js_mul_below_200 x :
  below (2 ^ 52) (-52) x ->
  below (200 * 2 ^ 45) (-45) (js_mul x (js_of_Z 200)).
Proof.
  change (js_of_Z 200) with (S754_finite false 7036874417766400 (-45)).
  destruct x as [[|]|[|]| |[|] m e]; intros H;
    try (exact (False_ind _ H)); [exact I|].
  destruct H as [He Hm]. unfold js_mul, SFmul. cbn [xorb].
  apply binary_round_aux_below; try lia.
  rewrite ceil_of_loc.
  assert (HT : 0 < 2 ^ (- e)) by (apply Z.pow_pos_nonneg; lia).
  replace (2 ^ 52 * 2 ^ (-52 - e)) with (2 ^ (- e)) in Hm
    by (rewrite <- Z.pow_add_r by lia; f_equal; lia).
  replace (-45 - (e + -45)) with (- e) by lia.
  rewrite Pos2Z.inj_mul.
  change (Zpos 7036874417766400) with (200 * 2 ^ 45). nia.
Qed.

Lemma Math_round_below_200 x :
  below (200 * 2 ^ 45) (-45) x ->
  exists k, Math_round x = js_of_Z k /\ 0 <= k <= 200.
Proof.
  destruct x as [[|]|[|]| |[|] m e]; intros H;
    try (exact (False_ind _ H)).
  - exists 0. split; [reflexivity | lia].
  - destruct H as [He Hm]. unfold Math_round.
    assert (H0 : (0 <=? e) = false) by (apply Z.leb_gt; lia).
    rewrite H0. cbn [cond_Zopp].
    assert (HT : 0 < 2 ^ (- e)) by (apply Z.pow_pos_nonneg; lia).
    replace (200 * 2 ^ 45 * 2 ^ (-45 - e)) with (200 * 2 ^ (- e)) in Hm
      by (rewrite <- Z.mul_assoc, <- Z.pow_add_r by lia; do 2 f_equal; lia).
    replace (1 - e) with (Z.succ (- e)) by lia.
    rewrite Z.pow_succ_r by lia.
    set (r := (2 * Zpos m + 2 ^ (- e)) / (2 * 2 ^ (- e))).
    assert (Hr : 0 <= r <= 200).
    { unfold r. split.
      - apply Z.div_pos; lia.
      - apply Z.lt_succ_r. apply Z.div_lt_upper_bound; lia. }
    destruct (Z.eqb_spec r 0) as [E|E].
    + exists 0. split; [reflexivity | lia].
    + exists r. split; [reflexivity | lia].
Qed.

(** A count divided by itself is the Number 1. *)
Lemma js_div_self a :
  0 < a < 2 ^ 53 -> js_div (js_of_Z a) (js_of_Z a) = js_of_Z 1.
Proof.
  intros Ha.
  destruct (js_of_Z_exact a Ha) as (mx & ex & -> & Hex & Hex0 & Hmx & Hdx).
  unfold js_div, SFdiv, SFdiv_core_binary. rewrite Hdx.
  replace (53 + ex - (53 + ex)) with 0 by lia.
  replace (ex - ex) with 0 by lia.
  change (Z.min (fexp prec emax 0) 0) with (-53).
  change (0 - -53) with 53.
  cbv iota beta.
  rewrite Z.shiftl_mul_pow2 by lia.
  assert (Hq : Z.div_eucl (Zpos mx * 2 ^ 53) (Zpos mx) = (2 ^ 53, 0)).
  { assert (E : Z.div_eucl (Zpos mx * 2 ^ 53) (Zpos mx)
                = ((Zpos mx * 2 ^ 53) / Zpos mx, (Zpos mx * 2 ^ 53) mod Zpos mx))
      by (unfold Z.div, Z.modulo; now destruct (Z.div_eucl _ _)).
    rewrite E, (Z.mul_comm (Zpos mx)), Z.div_mul, Z.mod_mul by lia.
    reflexivity. }
  rewrite Hq. cbn [xorb].
  destruct (new_location_cases (Zpos mx) 0) as [[-> _]|[_ H]]; [|lia].
  vm_compute. reflexivity.
Qed.

Lemma fold_max_ge l : forall acc,
  acc <= fold_left Z.max l acc /\
  forall n, In n l -> n <= fold_left Z.max l acc.
Proof.
  induction l as [|x l IH]; intros acc; simpl.
  - split; [lia | intros n []].
  - destruct (IH (Z.max acc x)) as [H1 H2]. split; [lia|].
    intros n [<-|Hn]; [lia | auto].
Qed.

Lemma fold_max_in l : forall acc,
  fold_left Z.max l acc = acc \/ In (fold_left Z.max l acc) l.
Proof.
  induction l as [|x l IH]; intros acc; simpl; [now left|].
  destruct (IH (Z.max acc x)) as [H|H]; [|now right; right].
  rewrite H. destruct (Z.max_spec acc x) as [[_ ->]|[_ ->]]; auto.
Qed.

Lemma maxSourceCount_bounds todayItems :
  1 <= maxSourceCount todayItems <= Z.max 1 (count_of todayItems) /\
  forall src n, In (src, n) (sourceBreakdownSorted todayItems) ->
    1 <= n <= maxSourceCount todayItems.
Proof.
  unfold maxSourceCount.
  set (l := sourceBreakdownSorted todayItems).
  destruct (fold_max_ge (map snd l) 1) as [H1 H2].
  assert (Hent : forall src n, In (src, n) l -> 1 <= n <= count_of todayItems).
  { intros src n Hin. unfold l, sourceBreakdownSorted in Hin.
    apply sort_desc_In, sourceCounts_entry in Hin. destruct Hin as [-> Hn].
    split; [exact Hn | apply count_filter_le]. }
  split.
  - split; [exact H1|].
    destruct (fold_max_in (map snd l) 1) as [->|Hin]; [lia|].
    apply in_map_iff in Hin. destruct Hin as ([src n] & <- & Hin).
    cbn [snd]. destruct (Hent _ _ Hin). lia.
  - intros src n Hin. split; [now destruct (Hent _ _ Hin)|].
    apply H2. change n with (snd (src, n)). now apply in_map.
Qed.

(** X25. The bars of the source breakdown are scaled to the largest
    source: every bar is a whole number of pixels between 0 and 200, and
    the bar of the first row, the source with the most records, is 200
    pixels wide (for a number of records that a Number holds exactly). *)
Theorem source_bars_scaled todayItems :
  count_of todayItems < 2 ^ 53 ->
  (forall src n, In (src, n) (sourceBreakdownSorted todayItems) ->
     exists k, barWidth n (maxSourceCount todayItems) = js_of_Z k /\
               0 <= k <= 200) /\
  (forall src n, hd_error (sourceBreakdownSorted todayItems) = Some (src, n) ->
     barWidth n (maxSourceCount todayItems) = js_of_Z 200).
Proof.
  intros Hsize.
  destruct (maxSourceCount_bounds todayItems) as [[Hm1 Hm2] Hent].
  split.
  - intros src n Hin. destruct (Hent _ _ Hin) as [Hn1 Hn2].
    unfold barWidth.
    apply Math_round_below_200, js_mul_below_200, js_div_below_one; lia.
  - intros src n Hhd.
    assert (Hin : In (src, n) (sourceBreakdownSorted todayItems)).
    { destruct (sourceBreakdownSorted todayItems); [discriminate|].
      injection Hhd as ->. now left. }
    destruct (Hent _ _ Hin) as [Hn1 Hn2].
    assert (Hmax : maxSourceCount todayItems = n).
    { apply Z.le_antisymm; [|exact Hn2].
      unfold sourceBreakdownSorted in Hhd.
      apply sort_desc_head_max in Hhd. destruct Hhd as [_ Hall].
      unfold maxSourceCount.
      destruct (fold_max_in (map snd (sourceBreakdownSorted todayItems)) 1)
        as [->|Hmx]; [exact Hn1|].
      apply in_map_iff in Hmx. destruct Hmx as (e & <- & He).
      unfold sourceBreakdownSorted in He. apply sort_desc_In in He.
      apply (Hall e He). }
    rewrite Hmax. unfold barWidth. rewrite js_div_self by lia.
    vm_compute. reflexivity.
Qed.

Lemma source_bars_scaled_witness :
  barWidth 18 (maxSourceCount sample_four_themes) = js_of_Z 200.
Proof.
  assert (H : count_of sample_four_themes < 2 ^ 53) by (vm_compute; reflexivity).
  destruct (source_bars_scaled sample_four_themes H) as [_ H2].
  apply (H2 "Email"). vm_compute. reflexivity.
Defined.

(** ** The recurring themes of the dashboard *)

Lemma StronglySorted_app_le {A : Type} (R : A -> A -> Prop) (a b : list A) :
  StronglySorted R (a ++ b) ->
  forall x y, In x a -> In y b -> R x y.
Proof.
  induction a as [|h a IH]; intros Hs x y Hx Hy; [destruct Hx|].
  inversion Hs as [|? ? Hs' Hall]; subst.
  destruct Hx as [<-|Hx]; [|now apply IH].
  rewrite Forall_forall in Hall. apply Hall, in_or_app. now right.
Qed.

(** X26. The recurring themes are at most 5 of the scored themes, in
    descending order of their mentions; a scored theme that is left out
    has no more mentions than any theme listed, and the themes listed are
    distinct when the scored themes are. *)
Theorem recurring_themes scored :
  let l := recurringByMentions scored in
  List.length l = Nat.min 5 (List.length scored) /\
  (forall x, In x l -> In x scored) /\
  StronglySorted (desc (fun x => total_mentions (agg x))) l /\
  (forall x y, In x l -> In y scored -> ~ In y l ->
     total_mentions (agg y) <= total_mentions (agg x)) /\
  (NoDup (map themeOf scored) -> NoDup (map themeOf l)).
Proof.
  cbv zeta. unfold recurringByMentions.
  set (key := fun x : ScoredTheme => total_mentions (agg x)).
  pose proof (sort_desc_perm key scored) as Hp.
  pose proof (sort_desc_sorted key scored) as Hs.
  split; [|split; [|split; [|split]]].
  - rewrite length_firstn. now rewrite (Permutation_length Hp).
  - intros x Hx. apply In_firstn in Hx. now apply sort_desc_In in Hx.
  - now apply StronglySorted_firstn.
  - intros x y Hx Hy Hny.
    rewrite <- (firstn_skipn 5 (sort_desc key scored)) in Hs.
    apply (StronglySorted_app_le _ _ _ Hs x y Hx).
    apply (sort_desc_In key) in Hy.
    rewrite <- (firstn_skipn 5 (sort_desc key scored)) in Hy.
    apply in_app_or in Hy. destruct Hy as [Hy|Hy]; [contradiction | exact Hy].
  - intros Hnd. rewrite <- firstn_map. apply NoDup_firstn.
    eapply Permutation_NoDup; [apply Permutation_map; symmetry; exact Hp|].
    exact Hnd.
Qed.

(** ** Five themes *)

Lemma CANONICAL_THEMES_NoDup : NoDup CANONICAL_THEMES.
Proof.
  unfold CANONICAL_THEMES.
  repeat (constructor; [simpl; intuition discriminate|]). constructor.
Qed.

Lemma filter_split_length {A : Type} (f : A -> bool) (l : list A) :
  (List.length (filter f l) + List.length (filter (fun x => negb (f x)) l)
   = List.length l)%nat.
Proof.
  induction l as [|x l IH]; simpl; [reflexivity|].
  destruct (f x); simpl; lia.
Qed.

Lemma padThemes_spec themes : forall seen sorted,
  NoDup themes -> NoDup (map fst sorted) ->
  (forall th, set_has seen th = true <-> In th (map fst sorted)) ->
  (List.length sorted <= 5)%nat ->
  (5 <= List.length (filter (fun th => negb (set_has seen th)) themes)
        + List.length sorted)%nat ->
  List.length (padThemes themes seen sorted) = 5%nat /\
  NoDup (map fst (padThemes themes seen sorted)).
Proof.
  induction themes as [|th rest IH]; intros seen sorted Hnd Hs Hseen Hle Hm.
  - simpl in *. split; [lia | exact Hs].
  - cbn [padThemes].
    destruct (Nat.leb_spec 5 (List.length sorted)) as [H5|H5];
      [split; [lia | exact Hs]|].
    inversion Hnd as [|? ? Hnin Hnd']; subst.
    cbn [filter] in Hm.
    destruct (set_has seen th) eqn:Eth; cbn [negb] in Hm.
    + now apply IH.
    + assert (Hth : ~ In th (map fst sorted)).
      { intros Hin. apply Hseen in Hin. congruence. }
      apply IH.
      * exact Hnd'.
      * rewrite map_app. simpl.
        apply NoDup_app; [exact Hs | repeat constructor; intros [] |].
        intros x Hx [<-|[]]. contradiction.
      * intros x. rewrite set_has_set_add, map_app, in_app_iff. simpl.
        rewrite orb_true_iff, Hseen. rewrite String.eqb_eq. intuition.
      * rewrite length_app. simpl. lia.
      * rewrite length_app. simpl.
        rewrite (filter_ext_in (fun x => negb (set_has (set_add seen th) x))
                               (fun x => negb (set_has seen x))).
        -- simpl in Hm. lia.
        -- intros x Hx. rewrite set_has_set_add.
           destruct (String.eqb_spec x th) as [->|]; [contradiction|].
           now rewrite orb_false_r.
Qed.

Lemma addOccurrence_NoDup counts label :
  NoDup (map fst counts) -> NoDup (map fst (addOccurrence counts label)).
Proof.
  intros H. unfold addOccurrence. destruct label as [l|]; [|exact H].
  destruct (truthy l); [|exact H]. now apply map_set_NoDup.
Qed.

Lemma foldM_invariant {A B : Type} (P : A -> Prop) (f : A -> B -> outcome A) l :
  (forall a x a', P a -> f a x = Returned a' -> P a') ->
  forall a a', P a -> foldM f l a = Returned a' -> P a'.
Proof.
  intros Hf. induction l as [|x l IH]; intros a a' Ha; simpl.
  - now intros [= <-].
  - destruct (f a x) as [a1|msg] eqn:E; [|discriminate]. simpl.
    apply IH. eapply Hf; eauto.
Qed.

Lemma countUrgent_NoDup counts t counts' :
  NoDup (map fst counts) -> countUrgent counts t = Returned counts' ->
  NoDup (map fst counts').
Proof.
  intros H.
  assert (HA : forall lbl c',
             Returned (addOccurrence counts lbl) = Returned c' ->
             NoDup (map fst c'))
    by (intros lbl c' [= <-]; now apply addOccurrence_NoDup).
  unfold countUrgent. destruct t; try discriminate. cbv zeta.
  repeat match goal with
         | |- context [if ?c then _ else _] => destruct c
         end; first [apply HA | intros [= <-]; exact H].
Qed.

Lemma countIssue_NoDup counts t counts' :
  NoDup (map fst counts) -> countIssue counts t = Returned counts' ->
  NoDup (map fst counts').
Proof.
  intros H. unfold countIssue. destruct t; try discriminate.
  intros [= <-]. now apply addOccurrence_NoDup.
Qed.

(** What the padding makes of any counts. *)
Lemma padded_five (counts : jsmap Z) :
  NoDup (map fst counts) ->
  let sorted :=
    map (fun e : string * Z => (fst e, priority (snd e)))
        (firstn 5 (sort_desc (@snd string Z) counts)) in
  let res :=
    firstn 5 (padThemes CANONICAL_THEMES (distinct (map fst sorted)) sorted) in
  List.length res = 5%nat /\ NoDup (map fst res).
Proof.
  intros Hnd. cbv zeta.
  set (top := firstn 5 (sort_desc (@snd string Z) counts)).
  set (sorted := map (fun e : string * Z => (fst e, priority (snd e))) top).
  assert (Hkeys : map fst sorted = map fst top).
  { unfold sorted. rewrite map_map. reflexivity. }
  assert (Hs : NoDup (map fst sorted)).
  { rewrite Hkeys. unfold top. rewrite <- firstn_map. apply NoDup_firstn.
    eapply Permutation_NoDup;
      [apply Permutation_map; symmetry; apply sort_desc_perm | exact Hnd]. }
  assert (Hle : (List.length sorted <= 5)%nat).
  { unfold sorted, top. rewrite length_map. apply firstn_le_length. }
  assert (Hseen : forall th, set_has (distinct (map fst sorted)) th = true
                             <-> In th (map fst sorted)).
  { intros th. now rewrite set_has_In, distinct_In. }
  assert (Hm : (5 <= List.length
                       (filter (fun th => negb (set_has (distinct (map fst sorted)) th))
                               CANONICAL_THEMES)
                     + List.length sorted)%nat).
  { pose proof (filter_split_length (set_has (distinct (map fst sorted)))
                  CANONICAL_THEMES) as Hsplit.
    change (List.length CANONICAL_THEMES) with 8%nat in Hsplit.
    assert (Hin : (List.length (filter (set_has (distinct (map fst sorted)))
                                       CANONICAL_THEMES)
                   <= List.length (map fst sorted))%nat).
    { apply NoDup_incl_length.
      - apply NoDup_filter, CANONICAL_THEMES_NoDup.
      - intros x Hx. apply filter_In in Hx. destruct Hx as [_ Hx].
        now apply Hseen. }
    rewrite length_map in Hin. lia. }
  destruct (padThemes_spec CANONICAL_THEMES _ sorted CANONICAL_THEMES_NoDup
              Hs Hseen Hle Hm) as [Hlen Hnd'].
  rewrite firstn_all2 by lia. now split.
Qed.

(** X27. Whenever [deriveThemeLabelsWithPriority] returns, it returns
    exactly 5 entries with 5 different themes: the themes counted most
    often, padded with canonical themes up to 5, whatever the summary
    holds. *)
Theorem deriveThemeLabels_five summary l :
  deriveThemeLabelsWithPriority summary = Returned l ->
  List.length l = 5%nat /\ NoDup (map fst l).
Proof.
  unfold deriveThemeLabelsWithPriority. cbv zeta.
  assert (H : forall fromTop bySource,
            (counts <- foldM countUrgent fromTop [] ;;
             flattened <- flatMapM keyIssuesOf bySource ;;
             counts0 <- foldM countIssue flattened counts ;;
             Returned
               (firstn 5
                  (padThemes CANONICAL_THEMES
                     (distinct
                        (map fst
                           (map (fun e : string * Z => (fst e, priority (snd e)))
                              (firstn 5 (sort_desc (@snd string Z) counts0)))))
                     (map (fun e : string * Z => (fst e, priority (snd e)))
                        (firstn 5 (sort_desc (@snd string Z) counts0))))))
            = Returned l ->
            List.length l = 5%nat /\ NoDup (map fst l)).
  { intros fromTop bySource.
    destruct (foldM countUrgent fromTop []) as [counts|msg] eqn:E1;
      [|discriminate].
    cbn [bind].
    destruct (flatMapM keyIssuesOf bySource) as [flattened|msg];
      [|discriminate].
    cbn [bind].
    destruct (foldM countIssue flattened counts) as [counts0|msg] eqn:E2;
      [|discriminate].
    cbn [bind]. intros E.
    match type of E with
    | Returned ?t = _ => assert (El : t = l) by congruence
    end.
    rewrite <- El. apply padded_five.
    apply (foldM_invariant (fun c : jsmap Z => NoDup (map fst c)) countIssue
             flattened countIssue_NoDup counts counts0); [|exact E2].
    apply (foldM_invariant (fun c : jsmap Z => NoDup (map fst c)) countUrgent
             fromTop countUrgent_NoDup [] counts); [constructor | exact E1]. }
  destruct summary; try discriminate; apply H.
Qed.

Lemma deriveThemeLabels_five_witness :
  exists l,
    deriveThemeLabelsWithPriority (summaryFromFeedback sample_four_themes)
    = Returned l /\
    List.length l = 5%nat /\ NoDup (map fst l).
Proof.
  destruct (deriveThemeLabelsWithPriority (summaryFromFeedback sample_four_themes))
    as [l|msg] eqn:E; [|vm_compute in E; discriminate E].
  exists l. split; [reflexivity|].
  exact (deriveThemeLabels_five _ _ E).
Defined.

(** * The percent change against yesterday *)

(** ** Binary64 rounding from both sides *)

(** Outside the subnormal range the cut to the precision drops the digits
    beyond 53 and nothing else. *)
Lemma shr_fexp_floor m e l :
  0 < m -> -1021 <= e ->
  let '(mrs, e') := shr_fexp prec emax m e l in
  e' = e + Z.max 0 (Zdigits2 m - 53) /\
  shr_m mrs = m / 2 ^ Z.max 0 (Zdigits2 m - 53) /\
  (Zdigits2 m <= 53 -> mrs = shr_record_of_loc m l).
Proof.
  intros Hm He. destruct m as [|p|p]; try lia.
  assert (Hd : 1 <= Zdigits2 (Zpos p)) by (simpl; lia).
  unfold shr_fexp, shr.
  destruct (fexp prec emax (Zdigits2 (Zpos p) + e) - e) as [|k|k] eqn:Ek;
    unfold fexp, emin, prec, emax in Ek.
  - replace (Z.max 0 (Zdigits2 (Zpos p) - 53)) with 0 by lia.
    rewrite shr_m_of_loc, Z.div_1_r. repeat split; lia.
  - replace (Z.max 0 (Zdigits2 (Zpos p) - 53)) with (Zpos k) by lia.
    rewrite iter_pos_shr_m by (rewrite shr_m_of_loc; lia).
    rewrite shr_m_of_loc. repeat split; lia.
  - replace (Z.max 0 (Zdigits2 (Zpos p) - 53)) with 0 by lia.
    rewrite shr_m_of_loc, Z.div_1_r. repeat split; lia.
Qed.

Lemma Zdigits2_ge m d : 0 < d -> 2 ^ (d - 1) <= m -> d <= Zdigits2 m.
Proof.
  intros Hd Hm.
  assert (Hp : 0 < 2 ^ (d - 1)) by (apply Z.pow_pos_nonneg; lia).
  destruct m as [|p|p]; try lia.
  pose proof (Zdigits2_bounds p) as [_ Hhi].
  destruct (Z.le_gt_cases d (Zdigits2 (Zpos p))) as [|Hlt]; [assumption|].
  exfalso.
  assert (2 ^ Zdigits2 (Zpos p) <= 2 ^ (d - 1))
    by (apply Z.pow_le_mono_r; lia).
  lia.
Qed.

(** Rounding a mantissa of 53 digits or more, away from the subnormal
    range and from overflow: the result has 53 digits, its exponent went
    up by the digits dropped, and its value is within one unit of its
    last place of the value rounded. *)
Lemma binary_round_aux_near s m e l :
  2 ^ 52 <= m -> -1021 <= e -> e + Zdigits2 m <= 1023 ->
  exists m' e',
    binary_round_aux prec emax s m e l = S754_finite s m' e' /\
    e + (Zdigits2 m - 53) <= e' <= e + (Zdigits2 m - 52) /\
    2 ^ 52 <= Zpos m' < 2 ^ 53 /\
    Zpos m' * 2 ^ (e' - e) <= m + 2 ^ (e' - e) /\
    m < Zpos m' * 2 ^ (e' - e) + 2 ^ (e' - e).
Proof.
  intros Hm He Hov.
  assert (Hd : 53 <= Zdigits2 m) by (apply Zdigits2_ge; lia).
  assert (Hm0 : 0 < m) by lia.
  destruct m as [|p|p]; try lia.
  pose proof (Zdigits2_bounds p) as [Hlo Hhi].
  set (d := Zdigits2 (Zpos p)) in *.
  set (n1 := d - 53).
  assert (Hn1 : 0 <= n1) by (unfold n1; lia).
  assert (Hp1 : 0 < 2 ^ n1) by (apply Z.pow_pos_nonneg; lia).
  unfold binary_round_aux.
  pose proof (shr_fexp_floor (Zpos p) e l Hm0 He) as H1.
  destruct (shr_fexp prec emax (Zpos p) e l) as [mrs1 e1].
  fold d in H1. replace (Z.max 0 (d - 53)) with n1 in H1 by (unfold n1; lia).
  destruct H1 as (He1 & Hm1 & _).
  pose proof (round_le_ceil mrs1) as [Hr1 Hr2].
  set (mr := round_nearest_even (shr_m mrs1) (loc_of_shr_record mrs1)) in *.
  assert (Hc : ceil_m mrs1 <= shr_m mrs1 + 1)
    by (unfold ceil_m; destruct (_ || _)%bool; lia).
  set (m1 := shr_m mrs1) in *.
  (* the mantissa after the first cut has 53 digits *)
  assert (Hpow : 2 ^ d = 2 ^ n1 * 2 ^ 53)
    by (rewrite <- Z.pow_add_r by lia; f_equal; unfold n1; lia).
  assert (Hpow' : 2 ^ (d - 1) = 2 ^ n1 * 2 ^ 52)
    by (rewrite <- Z.pow_add_r by lia; f_equal; unfold n1; lia).
  assert (Hm1lo : 2 ^ 52 <= m1)
    by (rewrite Hm1; apply Z.div_le_lower_bound; lia).
  assert (Hm1hi : m1 < 2 ^ 53)
    by (rewrite Hm1; apply Z.div_lt_upper_bound; lia).
  assert (Hfl : 2 ^ n1 * m1 <= Zpos p)
    by (rewrite Hm1; apply Z.mul_div_le; lia).
  assert (Hfu : Zpos p < 2 ^ n1 * (m1 + 1))
    by (rewrite Hm1; apply Z.mul_succ_div_gt; lia).
  assert (Hmr : m1 <= mr <= m1 + 1) by lia.
  pose proof (shr_fexp_floor mr e1 loc_Exact ltac:(lia) ltac:(lia)) as H2.
  destruct (shr_fexp prec emax mr e1 loc_Exact) as [mrs2 e2].
  destruct H2 as (He2 & Hm2 & _).
  destruct (Z.eq_dec mr (2 ^ 53)) as [E|E].
  - (* rounded up to the next power of two *)
    rewrite E in He2, Hm2.
    change (Z.max 0 (Zdigits2 (2 ^ 53) - 53)) with 1 in He2, Hm2.
    change (2 ^ 53 / 2 ^ 1) with (2 ^ 52) in Hm2.
    rewrite Hm2. change (2 ^ 52) with (Zpos 4503599627370496).
    assert (Hleb : (e2 <=? emax - prec) = true)
      by (apply Z.leb_le; unfold emax, prec; lia).
    rewrite Hleb. exists 4503599627370496%positive, e2.
    split; [reflexivity|]. split; [unfold n1 in *; lia|].
    split; [lia|].
    replace (e2 - e) with (n1 + 1) by lia.
    rewrite Z.pow_add_r by lia. change (2 ^ 1) with 2.
    change (Zpos 4503599627370496) with (2 ^ 52).
    assert (m1 + 1 = 2 ^ 53) by lia. nia.
  - assert (Hmr53 : Zdigits2 mr = 53).
    { apply Z.le_antisymm; [apply Zdigits2_le; lia | apply Zdigits2_ge; lia]. }
    rewrite Hmr53 in He2, Hm2. change (Z.max 0 (53 - 53)) with 0 in He2, Hm2.
    rewrite Z.div_1_r in Hm2. rewrite Hm2.
    destruct mr as [|q|q]; try lia.
    assert (Hleb : (e2 <=? emax - prec) = true)
      by (apply Z.leb_le; unfold emax, prec; lia).
    rewrite Hleb. exists q, e2.
    split; [reflexivity|]. split; [unfold n1 in *; lia|].
    split; [lia|].
    replace (e2 - e) with n1 by lia. nia.
Qed.

(** The sign does not take part in the rounding. *)
Lemma binary_round_aux_sign s m e l :
  binary_round_aux prec emax s m e l
  = match binary_round_aux prec emax false m e l with
    | S754_zero _ => S754_zero s
    | S754_infinity _ => S754_infinity s
    | S754_nan => S754_nan
    | S754_finite _ m' e' => S754_finite s m' e'
    end.
Proof.
  unfold binary_round_aux.
  destruct (shr_fexp prec emax m e l) as [mrs1 e1].
  destruct (shr_fexp prec emax _ e1 loc_Exact) as [mrs2 e2].
  destruct (shr_m mrs2); [reflexivity | | reflexivity].
  destruct (e2 <=? emax - prec); reflexivity.
Qed.

(** The Number of a count or of a difference of counts, with its sign. *)
Lemma js_of_Z_signed n :
  n <> 0 -> Z.abs n < 2 ^ 53 ->
  exists mx ex,
    js_of_Z n = S754_finite (n <? 0) mx ex /\
    ex = Zdigits2 (Z.abs n) - 53 /\ ex <= 0 /\
    Zpos mx = Z.abs n * 2 ^ (- ex) /\ Zdigits2 (Zpos mx) = 53.
Proof.
  intros Hn0 Hn. destruct n as [|p|p]; [contradiction | |].
  - apply js_of_Z_exact. simpl in Hn. lia.
  - destruct (js_of_Z_exact (Zpos p)) as (mx & ex & E & H);
      [simpl in Hn; lia|].
    exists mx, ex. split; [|exact H].
    unfold js_of_Z, binary_normalize, binary_round in *.
    destruct (shl_align p 0 (fexp prec emax (Zpos (digits2_pos p) + 0)))
      as [mz ez].
    rewrite binary_round_aux_sign, E. reflexivity.
Qed.

(** The quotient of two Numbers of 53 digits: 53 digits again, within two
    units of the last place of the exact quotient. *)
Lemma SFdiv_near s mx ex my ey :
  Zdigits2 (Zpos mx) = 53 -> Zdigits2 (Zpos my) = 53 ->
  -52 <= ex <= 0 -> -52 <= ey <= 0 ->
  exists mq eq,
    SFdiv prec emax (S754_finite s mx ex) (S754_finite false my ey)
    = S754_finite s mq eq /\
    ex - ey - 53 <= eq <= ex - ey - 51 /\
    2 ^ 52 <= Zpos mq < 2 ^ 53 /\
    Zpos mq * 2 ^ (eq - (ex - ey - 53)) * Zpos my
    <= Zpos mx * 2 ^ 53 + 2 ^ (eq - (ex - ey - 53)) * Zpos my /\
    Zpos mx * 2 ^ 53
    < Zpos mq * 2 ^ (eq - (ex - ey - 53)) * Zpos my
      + (2 ^ (eq - (ex - ey - 53)) + 1) * Zpos my.
Proof.
  intros Hdx Hdy Hex Hey.
  pose proof (Zdigits2_bounds mx) as [Hxl Hxh]. rewrite Hdx in Hxl, Hxh.
  pose proof (Zdigits2_bounds my) as [Hyl Hyh]. rewrite Hdy in Hyl, Hyh.
  change (2 ^ (53 - 1)) with (2 ^ 52) in *.
  unfold SFdiv, SFdiv_core_binary. rewrite Hdx, Hdy.
  replace (Z.min (fexp prec emax (53 + ex - (53 + ey))) (ex - ey))
    with (ex - ey - 53) by (unfold fexp, emin, prec, emax; lia).
  replace (ex - ey - (ex - ey - 53)) with 53 by lia.
  cbv iota beta. rewrite Z.shiftl_mul_pow2 by lia.
  set (M := Zpos mx * 2 ^ 53).
  assert (E : Z.div_eucl M (Zpos my) = (M / Zpos my, M mod Zpos my))
    by (unfold Z.div, Z.modulo; now destruct (Z.div_eucl _ _)).
  rewrite E. clear E.
  pose proof (Z.div_mod M (Zpos my) ltac:(lia)) as Hdm.
  pose proof (Z.mod_pos_bound M (Zpos my) ltac:(lia)) as Hr.
  set (q := M / Zpos my) in *. set (r := M mod Zpos my) in *.
  assert (Hq1 : 2 ^ 52 <= q)
    by (apply Z.div_le_lower_bound; unfold M; nia).
  assert (Hq2 : q < 2 ^ 54)
    by (apply Z.div_lt_upper_bound; unfold M; nia).
  assert (Hdq : 53 <= Zdigits2 q <= 54).
  { split; [apply Zdigits2_ge; lia | apply Zdigits2_le; lia]. }
  rewrite xorb_false_r.
  destruct (binary_round_aux_near s q (ex - ey - 53)
              (new_location (Zpos my) r) Hq1 ltac:(lia) ltac:(lia))
    as (mq & eq & -> & Heq & Hmq & Hu & Hl).
  exists mq, eq. split; [reflexivity|]. split; [lia|]. split; [exact Hmq|].
  set (P := 2 ^ (eq - (ex - ey - 53))) in *.
  assert (HP : 0 < P) by (apply Z.pow_pos_nonneg; lia).
  split; nia.
Qed.

(** The product of a Number of 53 digits by the Number 100: 53 digits
    again, within one unit of the last place. *)
Lemma SFmul_100_near s mq eq :
  2 ^ 52 <= Zpos mq < 2 ^ 53 -> -200 <= eq <= 0 ->
  exists mp ep,
    SFmul prec emax (S754_finite s mq eq) (js_of_Z 100)
    = S754_finite s mp ep /\
    eq + 6 <= ep <= eq + 8 /\
    2 ^ 52 <= Zpos mp < 2 ^ 53 /\
    Zpos mp * 2 ^ (ep - (eq - 46))
    <= Zpos mq * (100 * 2 ^ 46) + 2 ^ (ep - (eq - 46)) /\
    Zpos mq * (100 * 2 ^ 46)
    < Zpos mp * 2 ^ (ep - (eq - 46)) + 2 ^ (ep - (eq - 46)).
Proof.
  intros Hmq Heq.
  change (js_of_Z 100) with (S754_finite false 7036874417766400 (-46)).
  unfold SFmul. rewrite xorb_false_r.
  assert (Hprod : Zpos (mq * 7036874417766400) = Zpos mq * (100 * 2 ^ 46))
    by (rewrite Pos2Z.inj_mul; reflexivity).
  set (m := Zpos (mq * 7036874417766400)) in *.
  assert (Hm1 : 2 ^ 104 <= m) by (rewrite Hprod; lia).
  assert (Hm2 : m < 2 ^ 106) by (rewrite Hprod; lia).
  assert (Hd : 105 <= Zdigits2 m <= 106).
  { split; [apply Zdigits2_ge; lia | apply Zdigits2_le; lia]. }
  destruct (binary_round_aux_near s m (eq + -46) loc_Exact
              ltac:(lia) ltac:(lia) ltac:(lia))
    as (mp & ep & -> & Hep & Hmp & Hu & Hl).
  exists mp, ep. split; [reflexivity|]. split; [lia|]. split; [exact Hmp|].
  replace (eq - 46) with (eq + -46) by lia.
  rewrite <- Hprod. split; assumption.
Qed.

(** Rounding to the nearest integer a value that is within less than half
    a last place of [N / y]: an integer within one half of [N / y]. *)
Lemma round_near n T N y :
  0 < T -> 0 < y -> 2 * Z.abs (n * y - N * T) < T ->
  Z.abs (2 * ((2 * n + T) / (2 * T)) * y - 2 * N) <= y.
Proof.
  intros HT Hy Hd.
  pose proof (Z.mul_div_le (2 * n + T) (2 * T) ltac:(lia)) as H1.
  pose proof (Z.mul_succ_div_gt (2 * n + T) (2 * T) ltac:(lia)) as H2.
  set (r := (2 * n + T) / (2 * T)) in *.
  assert (Hu : 2 * r * y <= 2 * N + y).
  { assert (H : 2 * r * y * T < (2 * N + y + 1) * T) by nia.
    apply Z.mul_lt_mono_pos_r in H; lia. }
  assert (Hl : 2 * N - y <= 2 * r * y).
  { assert (H : (2 * N - y - 1) * T < 2 * r * y * T) by nia.
    apply Z.mul_lt_mono_pos_r in H; lia. }
  lia.
Qed.

(** [Math.round((d / y) * 100)] on Numbers is an integer within one half
    of the exact percentage [100 * d / y]: the exact percentage rounded to
    the nearest integer, where a percentage that ends in one half may go
    either way.  A negative percentage above -0.5 gives the Number -0. *)
Lemma percent_near d y :
  0 < y < 2 ^ 32 -> - 2 ^ 32 < d < 2 ^ 32 ->
  exists k,
    (percent d y = js_of_Z k \/ k = 0 /\ percent d y = S754_zero true) /\
    Z.abs (2 * k * y - 200 * d) <= y.
Proof.
  intros Hy Hd. unfold percent.
  destruct (js_of_Z_exact y ltac:(lia)) as (my & ey & Ey & Hey & Hey0 & Hmy & Hdy).
  rewrite Ey.
  destruct (Z.eq_dec d 0) as [->|Hd0].
  { exists 0. split; [left; reflexivity | simpl; lia]. }
  destruct (js_of_Z_signed d Hd0 ltac:(lia))
    as (mx & ex & Ex & Hex & Hex0 & Hmx & Hdx).
  rewrite Ex. set (s := d <? 0) in *. set (a := Z.abs d) in *.
  assert (Ha : 0 < a < 2 ^ 32) by (unfold a; lia).
  assert (Hda : 1 <= Zdigits2 a <= 32).
  { split; [apply Zdigits2_ge; simpl; lia | apply Zdigits2_le; lia]. }
  assert (Hdb : 1 <= Zdigits2 y <= 32).
  { split; [apply Zdigits2_ge; simpl; lia | apply Zdigits2_le; lia]. }
  unfold js_div.
  destruct (SFdiv_near s mx ex my ey Hdx Hdy ltac:(lia) ltac:(lia))
    as (mq & eq & -> & Heq & Hmq & DU & DL).
  unfold js_mul.
  destruct (SFmul_100_near s mq eq Hmq ltac:(lia))
    as (mp & ep & -> & Hep & Hmp & HU & HL).
  assert (Hep0 : ep < 0) by lia.
  unfold Math_round.
  assert (Hleb : (0 <=? ep) = false) by (apply Z.leb_gt; lia).
  rewrite Hleb.
  replace (2 ^ (1 - ep)) with (2 * 2 ^ (- ep))
    by (replace (1 - ep) with (Z.succ (- ep)) by lia;
        rewrite Z.pow_succ_r by lia; reflexivity).
  set (T := 2 ^ (- ep)).
  set (n := cond_Zopp s (Zpos mp)).
  set (k := (2 * n + T) / (2 * T)).
  exists k. split.
  { destruct (Z.eqb_spec k 0) as [E|E]; [|now left].
    rewrite E. destruct s; [right; now split | left; reflexivity]. }
  (* the scales *)
  set (X := 2 ^ (- ex)) in *. set (Y := 2 ^ (- ey)) in *.
  set (Pq := 2 ^ (eq - (ex - ey - 53))) in *.
  set (Pp := 2 ^ (ep - (eq - 46))) in *.
  set (C := 100 * 2 ^ 46) in *.
  assert (HT : 0 < T) by (apply Z.pow_pos_nonneg; lia).
  assert (HY : 0 < Y) by (apply Z.pow_pos_nonneg; lia).
  assert (HX : 2 ^ 21 <= X) by (apply Z.pow_le_mono_r; lia).
  assert (HPq : 0 < Pq <= 2 ^ 2).
  { split; [apply Z.pow_pos_nonneg; lia | apply Z.pow_le_mono_r; lia]. }
  assert (HPp : 0 < Pp <= 2 ^ 54).
  { split; [apply Z.pow_pos_nonneg; lia | apply Z.pow_le_mono_r; lia]. }
  assert (HW : T * (Pp * Pq * Y) = 2 ^ 99 * X).
  { unfold T, Pp, Pq, Y, X. rewrite <- !Z.pow_add_r by lia. f_equal. lia. }
  assert (Hmy53 : Zpos my < 2 ^ 53).
  { pose proof (Zdigits2_bounds my) as [_ H]. now rewrite Hdy in H. }
  set (W := Pp * Pq * Y) in *.
  assert (HWpos : 0 < W) by (unfold W; nia).
  (* the value computed against the exact percentage, on the scale [W] *)
  set (G := Zpos mp * y). set (H := 100 * a * T).
  set (E := Pp * Pq * Zpos my + (Pq + 1) * Zpos my * C).
  assert (HGW : G * W = Zpos mp * Pp * (Pq * Zpos my))
    by (unfold G, W; rewrite Hmy; ring).
  assert (HHW : H * W = Zpos mx * 2 ^ 53 * C).
  { unfold H. replace (100 * a * T * W) with (100 * a * (T * W)) by ring.
    rewrite HW, Hmx. unfold C. fold a. fold X.
    change (2 ^ 99) with (2 ^ 53 * 2 ^ 46). ring. }
  assert (HE : 2 * E < T * W).
  { rewrite HW.
    assert (E <= 2 ^ 54 * 2 ^ 2 * 2 ^ 53 + (2 ^ 2 + 1) * 2 ^ 53 * C).
    { unfold E. apply Z.add_le_mono.
      - apply Z.mul_le_mono_nonneg; try lia.
        apply Z.mul_le_mono_nonneg; lia.
      - apply Z.mul_le_mono_nonneg_r; [unfold C; lia|].
        apply Z.mul_le_mono_nonneg; lia. }
    assert (2 ^ 99 * 2 ^ 21 <= 2 ^ 99 * X)
      by (apply Z.mul_le_mono_nonneg_l; lia).
    unfold C in *. lia. }
  assert (Hup : G * W <= H * W + E).
  { rewrite HGW, HHW. unfold E.
    assert (H1 : Zpos mp * Pp * (Pq * Zpos my)
                 <= (Zpos mq * C + Pp) * (Pq * Zpos my))
      by (apply Z.mul_le_mono_nonneg_r; [nia | exact HU]).
    assert (H2 : Zpos mq * Pq * Zpos my * C
                 <= (Zpos mx * 2 ^ 53 + Pq * Zpos my) * C)
      by (apply Z.mul_le_mono_nonneg_r; [unfold C; lia | exact DU]).
    nia. }
  assert (Hlo : H * W < G * W + E).
  { rewrite HGW, HHW. unfold E.
    assert (H1 : Zpos mq * C * (Pq * Zpos my)
                 <= (Zpos mp * Pp + Pp) * (Pq * Zpos my))
      by (apply Z.mul_le_mono_nonneg_r; [nia | lia]).
    assert (H2 : Zpos mx * 2 ^ 53 * C
                 < (Zpos mq * Pq * Zpos my + (Pq + 1) * Zpos my) * C)
      by (apply Z.mul_lt_mono_pos_r; [unfold C; lia | exact DL]).
    nia. }
  assert (Hnear : 2 * Z.abs (G - H) < T).
  { assert (Hw : 2 * Z.abs (G - H) * W < T * W) by nia.
    apply Z.mul_lt_mono_pos_r in Hw; lia. }
  (* with the sign *)
  assert (Hsig : Z.abs (n * y - 100 * d * T) = Z.abs (G - H)).
  { unfold n, G, H, a, s. destruct (Z.ltb_spec d 0); simpl cond_Zopp.
    - rewrite (Z.abs_neq d) by lia.
      rewrite <- (Z.abs_opp (Zpos mp * y - 100 * - d * T)). f_equal.
      change (Z.neg mp) with (- Zpos mp). ring.
    - rewrite (Z.abs_eq d) by lia. reflexivity. }
  pose proof (round_near n T (100 * d) y HT ltac:(lia)
                ltac:(rewrite Hsig; exact Hnear)) as Hr.
  fold k in Hr. replace (200 * d) with (2 * (100 * d)) by ring. exact Hr.
Qed.

(** An integer within one half of [N / y] is [N / y] rounded to the
    nearest integer, or one less when [N / y] ends in one half. *)
Lemma half_cases k N y :
  0 < y -> Z.abs (2 * k * y - 2 * N) <= y ->
  k = round_half_up N y \/
  k = round_half_up N y - 1 /\ 2 * y * round_half_up N y = 2 * N + y.
Proof.
  intros Hy Hk. unfold round_half_up.
  pose proof (Z.mul_div_le (2 * N + y) (2 * y) ltac:(lia)) as H1.
  pose proof (Z.mul_succ_div_gt (2 * N + y) (2 * y) ltac:(lia)) as H2.
  set (e := (2 * N + y) / (2 * y)) in *.
  assert (Hle : k <= e) by nia.
  assert (Hge : e - 1 <= k) by nia.
  destruct (Z.eq_dec k e) as [->|Hne]; [now left|].
  right. split; [lia|]. nia.
Qed.

(** C3 (as amended). In every aggregate, total_mentions and
    yesterday_mentions are the numbers of today's and of yesterday's
    records of the theme, and total_mentions is at least 1.  When
    yesterday_mentions is positive, percent_change_vs_yesterday is
    [Math.round(((total - yesterday) / yesterday) * 100)] computed on
    Numbers: the quotient and the product are rounded to binary64 before
    [Math.round] is applied.  For counts below [2 ^ 32], as every array
    length is, that is the exact percentage rounded to the nearest
    integer, except that an exact percentage that ends in one half may be
    rounded down instead of up (and a negative percentage above -0.5
    gives -0).  When yesterday_mentions is 0 it is 100. *)
Theorem percent_change_rule todayItems yesterdayItems a :
  In a (aggregateThemes todayItems yesterdayItems) ->
  total_mentions a = mentions (theme a) todayItems /\
  yesterday_mentions a = mentions (theme a) yesterdayItems /\
  1 <= total_mentions a /\
  (0 < yesterday_mentions a ->
   percent_change_vs_yesterday a =
   Math_round
     (js_mul (js_div (js_of_Z (mentions (theme a) todayItems
                               - mentions (theme a) yesterdayItems))
                     (js_of_Z (mentions (theme a) yesterdayItems)))
             (js_of_Z 100))) /\
  (0 < yesterday_mentions a ->
   total_mentions a < 2 ^ 32 -> yesterday_mentions a < 2 ^ 32 ->
   exists k,
     (percent_change_vs_yesterday a = js_of_Z k \/
      k = 0 /\ percent_change_vs_yesterday a = S754_zero true) /\
     (k = round_half_up (100 * (total_mentions a - yesterday_mentions a))
                        (yesterday_mentions a) \/
      k = round_half_up (100 * (total_mentions a - yesterday_mentions a))
                        (yesterday_mentions a) - 1 /\
      2 * yesterday_mentions a
      * round_half_up (100 * (total_mentions a - yesterday_mentions a))
                      (yesterday_mentions a)
      = 2 * (100 * (total_mentions a - yesterday_mentions a))
        + yesterday_mentions a)) /\
  (yesterday_mentions a = 0 ->
   percent_change_vs_yesterday a = js_of_Z 100).
Proof.
  intros Ha. destruct (aggregate_counts _ _ _ Ha) as (Ht & Hy & Hpos).
  split; [exact Ht|]. split; [exact Hy|]. split; [lia|].
  rewrite <- Ht, <- Hy. clear Ht Hy.
  apply aggregateThemes_In in Ha. destruct Ha as (th & rec & _ & ->).
  revert Hpos. unfold toAggregate.
  cbn [yesterday_mentions total_mentions percent_change_vs_yesterday].
  set (y := match map_get (yesterdayCounts yesterdayItems) th with
            | Some n => n
            | None => 0
            end).
  intros Hpos. split; [|split].
  - intros Hy. apply Z.ltb_lt in Hy. rewrite Hy. reflexivity.
  - intros Hy Ht32 Hy32. pose proof Hy as Hy'. apply Z.ltb_lt in Hy'.
    rewrite Hy'.
    destruct (percent_near (total rec - y) y ltac:(lia) ltac:(lia))
      as (k & Hk & Hb).
    exists k. split; [exact Hk|].
    apply half_cases; [exact Hy|].
    replace (2 * (100 * (total rec - y))) with (200 * (total rec - y)) by ring.
    exact Hb.
  - intros Hy. rewrite Hy. apply Z.ltb_lt in Hpos. now rewrite Hpos.
Qed.

(** 63 records today against 40 yesterday: the change is 57, where the
    exact 57.5 would round to 58. *)
Lemma percent_change_rule_witness :
  exists a,
    In a (aggregateThemes sample_63_today sample_40_yesterday) /\
    total_mentions a = 63 /\ yesterday_mentions a = 40 /\
    percent_change_vs_yesterday a = js_of_Z 57 /\
    round_half_up (100 * (total_mentions a - yesterday_mentions a))
                  (yesterday_mentions a) = 58.
Proof.
  exists (mkAgg "Authentication / Login Issues" 63 0 63 (js_of_Z 100) 40
                (js_of_Z 57)).
  assert (Hin : In (mkAgg "Authentication / Login Issues" 63 0 63 (js_of_Z 100)
                          40 (js_of_Z 57))
                   (aggregateThemes sample_63_today sample_40_yesterday))
    by (vm_compute; left; reflexivity).
  destruct (percent_change_rule _ _ _ Hin) as (Ht & Hy & _ & Hp & _).
  split; [exact Hin|].
  split; [rewrite Ht; vm_compute; reflexivity|].
  split; [rewrite Hy; vm_compute; reflexivity|].
  split; [|reflexivity].
  rewrite Hp by (rewrite Hy; vm_compute; reflexivity).
  vm_compute. reflexivity.
Defined.

(** C3 (the claim as stated). Read on exact quotients the rule fails: for
    63 records today against 40 yesterday the exact change is 57.5
    percent, which rounds to 58, and the aggregate says 57. *)
Lemma percent_change_not_exact : ~ percent_change_exact.
Proof.
  intros H.
  assert (Hin : In (mkAgg "Authentication / Login Issues" 63 0 63 (js_of_Z 100)
                          40 (js_of_Z 57))
                   (aggregateThemes sample_63_today sample_40_yesterday))
    by (vm_compute; left; reflexivity).
  destruct (H _ _ _ Hin) as [H1 _].
  specialize (H1 ltac:(vm_compute; reflexivity)).
  vm_compute in H1. discriminate H1.
Qed.
